(** * mypy / mypyc: IR types, subtype relation, dataflow, constant folding
      and daemon commands

    A shallow embedding of the parts of the repository the specification
    talks about:

    - [mypyc/ops.py]: runtime types ([RType] and its subclasses), their
      equality, hashing and JSON serialization, and the reference count ops;
    - [mypyc/subtype.py]: the subtype relation on runtime types;
    - [mypyc/analysis.py]: the set based dataflow framework and liveness;
    - [mypy/constant_fold.py]: constant folding of expressions;
    - [mypy/dmypy_server.py]: the command handlers of the daemon.

    Python objects are records that keep the attributes the constructors
    store; a constructor that can fail an assertion returns a [result]. *)

From Stdlib Require Import ZArith Lia Bool.
From stdpp Require Import gmap strings list pretty.

Local Set Warnings "-register-all,-clear-no-such-hyp".
Local Open Scope Z_scope.
Local Open Scope string_scope.
Local Open Scope list_scope.

(** ** The fragment of the Python runtime the code relies on *)

Module Py.

(** Exceptions raised by the modelled code. *)
Inductive exn : Type :=
| AssertionError (msg : string)
| NotImplementedError (msg : string)
| KeyError (key : string)
| IndexError (msg : string)
| TypeError (msg : string)
| AttributeError (attr : string).

(** The outcome of a call: a value, or a raised exception. *)
Inductive result (A : Type) : Type :=
| Ok (a : A)
| Raise (e : exn).
Arguments Ok {A} a.
Arguments Raise {A} e.

Definition bind {A B : Type} (r : result A) (k : A -> result B) : result B :=
  match r with
  | Ok a => k a
  | Raise e => Raise e
  end.

Definition is_ok {A : Type} (r : result A) : bool :=
  match r with Ok _ => true | Raise _ => false end.

(** [assert cond, msg] *)
Definition assert (cond : bool) (msg : string) : result unit :=
  if cond then Ok tt else Raise (AssertionError msg).

(** A list comprehension [[f x for x in l]] whose body can raise: elements
    are evaluated left to right and the first exception escapes. *)
Fixpoint mapM {A B : Type} (f : A -> result B) (l : list A) : result (list B) :=
  match l with
  | [] => Ok []
  | x :: l' =>
      match f x with
      | Ok y => match mapM f l' with
                | Ok ys => Ok (y :: ys)
                | Raise e => Raise e
                end
      | Raise e => Raise e
      end
  end.

(** [all(f(x, y) for x, y in zip(l, l'))] for two sequences that must also
    have the same length: how two tuples are compared. *)
Section All2.
Context {A B : Type} (f : A -> B -> bool).
Fixpoint all2 (l : list A) (l' : list B) {struct l} : bool :=
  match l, l' with
  | [], [] => true
  | x :: l, y :: l' => f x y && all2 l l'
  | _, _ => false
  end.
End All2.

(** Sets.  Looking the key [x] up in a set compares the entries [e] of the
    set with [x]: [same_key e x] holds when the hashes agree and [e == x].
    A set is kept as the list of its entries, in insertion order. *)
Section Sets.
Context {A : Type} (same_key : A -> A -> bool).

(** [x in s] *)
Definition set_contains (s : list A) (x : A) : bool :=
  existsb (fun e => same_key e x) s.

(** [s.add(x)] *)
Definition set_add (s : list A) (x : A) : list A :=
  if set_contains s x then s else s ++ [x].

(** [frozenset(items)] *)
Definition frozenset (items : list A) : list A :=
  fold_left set_add items [].

(** [s1 == s2]: the same size and every element of [s1] found in [s2]. *)
Definition set_eq (s1 s2 : list A) : bool :=
  Nat.eqb (length s1) (length s2) && forallb (set_contains s2) s1.

(** The invariant of the entries of a set: no entry matches a later one. *)
Fixpoint distinct (l : list A) : Prop :=
  match l with
  | [] => True
  | x :: l' => (forall x', x' ∈ l' -> same_key x x' = false) /\ distinct l'
  end.

End Sets.

(** The built-in [hash].  String hashing is randomised per process and the
    tuple hash is an implementation detail, so both are parameters; the hash
    of a frozenset combines the hashes of its elements and does not depend
    on the order in which the elements are stored. *)
Class Hash : Type := {
  hash_str : string -> Z;
  hash_tuple : list Z -> Z;
  hash_frozenset : list Z -> Z;
  hash_frozenset_perm :
    forall l l' : list Z, Permutation l l' -> hash_frozenset l = hash_frozenset l'
}.

End Py.

Import Py.

#[global] Instance result_ret : MRet result := @Ok.
#[global] Instance result_bind : MBind result := fun A B k r => Py.bind r k.

(** ** Runtime types ([mypyc/ops.py]) *)

(** Modelled from the spec: [ClassIR] lives in [mypyc/class_ir.py], which is
    not part of the sources at hand.  The specification describes it as a
    plain record whose MRO is a list of class references resolved through an
    id map; [class_id] stands for the identity of the Python object, and
    [mro] lists the identities of the classes of the linearisation. *)
Record ClassIR : Type := mkClassIR {
  class_id : nat;
  fullname : string;
  mro : list nat
}.

(** [RType] and its subclasses.  Every constructor keeps the attributes the
    Python constructor stores in the object:
    - [RPrimitive]: [oid] is the identity of the object (what [is] compares),
      followed by [name], [is_unboxed], [is_refcounted], [_ctype] and
      [c_undefined];
    - [RTuple]: [types], [is_refcounted], [unique_id], [struct_name] and
      [_ctype] ([name] is always ['tuple']);
    - [RInstance]: [class_ir] ([name] is the class's full name);
    - [RUnion]: [items] and [items_set], the frozen set of the items, kept as
      the list of its distinct entries ([name] is always ['union']). *)
Inductive RType : Type :=
| RVoid
| RPrimitive (oid : nat) (name : string) (is_unboxed is_refcounted : bool)
             (ctype c_undefined : string)
| RTuple (types : list RType) (is_refcounted : bool)
         (unique_id struct_name ctype : string)
| RInstance (class_ir : ClassIR)
| RUnion (items : list RType) (items_set : list RType).

Module RTypes.

(** The attribute [name]. *)
Definition name (t : RType) : string :=
  match t with
  | RVoid => "void"
  | RPrimitive _ n _ _ _ _ => n
  | RTuple _ _ _ _ _ => "tuple"
  | RInstance c => fullname c
  | RUnion _ _ => "union"
  end.

(** The attribute [is_unboxed]: the class default is [False]; [RPrimitive]
    stores its argument and [RTuple] sets it to [True]. *)
Definition is_unboxed (t : RType) : bool :=
  match t with
  | RVoid => false
  | RPrimitive _ _ ub _ _ _ => ub
  | RTuple _ _ _ _ _ => true
  | RInstance _ => false
  | RUnion _ _ => false
  end.

(** The attribute [is_refcounted]: the class default of [RType] is [True];
    [RPrimitive] and [RTuple] store their own value. *)
Definition is_refcounted (t : RType) : bool :=
  match t with
  | RVoid => true
  | RPrimitive _ _ _ rc _ _ => rc
  | RTuple _ rc _ _ _ => rc
  | RInstance _ => true
  | RUnion _ _ => true
  end.

(** The attribute [_ctype]; [RVoid] leaves the class default [None]. *)
Definition ctype (t : RType) : option string :=
  match t with
  | RVoid => None
  | RPrimitive _ _ _ _ ct _ => Some ct
  | RTuple _ _ _ _ ct => Some ct
  | RInstance _ => Some "PyObject *"
  | RUnion _ _ => Some "PyObject *"
  end.

(** [short_name] *)
Definition short_name (n : string) : string :=
  if String.prefix "builtins." n then String.substring 9 (String.length n - 9) n
  else n.

(** [RPrimitive.__init__] for the object identity [oid]; registering the
    object in [primitive_map] is done by [register] below. *)
Definition RPrimitive_init (oid : nat) (name : string)
    (is_unboxed is_refcounted : bool) (ctype : string) : result RType :=
  if String.eqb ctype "CPyTagged" then
    Ok (RPrimitive oid name is_unboxed is_refcounted ctype "CPY_INT_TAG")
  else if String.eqb ctype "PyObject *" then
    Ok (RPrimitive oid name is_unboxed is_refcounted ctype "NULL")
  else if String.eqb ctype "char" then
    Ok (RPrimitive oid name is_unboxed is_refcounted ctype "2")
  else Raise (AssertionError ("Unrecognized ctype: " +:+ ctype)).

(** The primitives created when the module is loaded, in creation order. *)
Definition object_rprimitive : RType :=
  RPrimitive 0 "builtins.object" false true "PyObject *" "NULL".
Definition int_rprimitive : RType :=
  RPrimitive 1 "builtins.int" true true "CPyTagged" "CPY_INT_TAG".
Definition short_int_rprimitive : RType :=
  RPrimitive 2 "short_int" true false "CPyTagged" "CPY_INT_TAG".
Definition float_rprimitive : RType :=
  RPrimitive 3 "builtins.float" false true "PyObject *" "NULL".
Definition bool_rprimitive : RType :=
  RPrimitive 4 "builtins.bool" true false "char" "2".
Definition none_rprimitive : RType :=
  RPrimitive 5 "builtins.None" true false "char" "2".
Definition list_rprimitive : RType :=
  RPrimitive 6 "builtins.list" false true "PyObject *" "NULL".
Definition dict_rprimitive : RType :=
  RPrimitive 7 "builtins.dict" false true "PyObject *" "NULL".
Definition set_rprimitive : RType :=
  RPrimitive 8 "builtins.set" false true "PyObject *" "NULL".
Definition str_rprimitive : RType :=
  RPrimitive 9 "builtins.str" false true "PyObject *" "NULL".
Definition tuple_rprimitive : RType :=
  RPrimitive 10 "builtins.tuple" false true "PyObject *" "NULL".

Definition module_primitives : list RType :=
  [object_rprimitive; int_rprimitive; short_int_rprimitive; float_rprimitive;
   bool_rprimitive; none_rprimitive; list_rprimitive; dict_rprimitive;
   set_rprimitive; str_rprimitive; tuple_rprimitive].

(** [RPrimitive.primitive_map[name] = self] *)
Definition register (pm : gmap string RType) (p : RType) : gmap string RType :=
  <[name p := p]> pm.

(** The class variable [RPrimitive.primitive_map] once [ops.py] is loaded. *)
Definition primitive_map : gmap string RType :=
  fold_left register module_primitives ∅.

(** [x is y] on primitives: the same object. *)
Definition same_object (t u : RType) : bool :=
  match t, u with
  | RPrimitive o _ _ _ _ _, RPrimitive o' _ _ _ _ _ => Nat.eqb o o'
  | _, _ => false
  end.

Definition is_rprimitive (t : RType) : bool :=
  match t with RPrimitive _ _ _ _ _ _ => true | _ => false end.

Definition is_int_rprimitive (t : RType) : bool := same_object t int_rprimitive.
Definition is_short_int_rprimitive (t : RType) : bool :=
  same_object t short_int_rprimitive.
Definition is_float_rprimitive (t : RType) : bool :=
  is_rprimitive t && String.eqb (name t) "builtins.float".
Definition is_bool_rprimitive (t : RType) : bool :=
  is_rprimitive t && String.eqb (name t) "builtins.bool".
Definition is_object_rprimitive (t : RType) : bool :=
  is_rprimitive t && String.eqb (name t) "builtins.object".
Definition is_none_rprimitive (t : RType) : bool :=
  is_rprimitive t && String.eqb (name t) "builtins.None".
Definition is_tuple_rprimitive (t : RType) : bool :=
  is_rprimitive t && String.eqb (name t) "builtins.tuple".

(** [TupleNameVisitor]: the tag of a component type, depth first. *)
Fixpoint tuple_name (t : RType) : result string :=
  match t with
  | RInstance _ => Ok "O"
  | RUnion _ _ => Ok "O"
  | RPrimitive _ n ub _ ct _ =>
      if String.eqb ct "CPyTagged" then Ok "I"
      else if String.eqb ct "char" then Ok "C"
      else
        assert (negb ub) (short_name n +:+ " unexpected unboxed type") ;;
        Ok "O"
  | RTuple ts _ _ _ _ =>
      parts ← mapM tuple_name ts;
      Ok ("T" +:+ pretty (length parts) +:+ String.concat "" parts)
  | RVoid => Raise (AssertionError "rvoid in tuple?")
  end.

(** [RTuple.__init__] *)
Definition RTuple_init (types : list RType) : result RType :=
  let rc := existsb is_refcounted types in
  parts ← mapM tuple_name types;
  let unique_id := "T" +:+ pretty (length parts) +:+ String.concat "" parts in
  let struct_name := "tuple_" +:+ unique_id in
  Ok (RTuple types rc unique_id struct_name struct_name).

(** [RInstance.__init__] *)
Definition RInstance_init (class_ir : ClassIR) : RType := RInstance class_ir.

(** The tuples that exist: every tuple, and every tuple nested in it, is the
    result of [RTuple.__init__]; the other types are leaves. *)
Definition is_rtuple (t : RType) : bool :=
  match t with RTuple _ _ _ _ _ => true | _ => false end.

Inductive built : RType -> Prop :=
| built_leaf (t : RType) : is_rtuple t = false -> built t
| built_tuple (types : list RType) (t : RType) :
    Forall built types -> RTuple_init types = Ok t -> built t.

(** The element types of a tuple that are not tuples themselves, through
    all levels of nesting. *)
Fixpoint leaves (t : RType) : list RType :=
  match t with
  | RTuple types _ _ _ _ => flat_map leaves types
  | _ => [t]
  end.

(** Nesting depth of a type, the measure of the inductions below. *)
Fixpoint depth (t : RType) : nat :=
  match t with
  | RTuple ts _ _ _ _ => S (max_list (map depth ts))
  | RUnion items s => S (Nat.max (max_list (map depth items)) (max_list (map depth s)))
  | _ => 0%nat
  end.

(** ['tuple'] and ['union'] are the names of the tuple and union types; no
    primitive is registered under them, and the full name of a class has a
    module prefix.  [well_named] checks this through a type. *)
Definition reserved_name (n : string) : bool :=
  String.eqb n "tuple" || String.eqb n "union".

Fixpoint well_named (t : RType) : bool :=
  match t with
  | RVoid => true
  | RPrimitive _ n _ _ _ _ => negb (reserved_name n)
  | RInstance c => negb (reserved_name (fullname c))
  | RTuple types _ _ _ _ => forallb well_named types
  | RUnion items s => forallb well_named items && forallb well_named s
  end.

Section Equality.
Context `{!Py.Hash}.

(** [RType.__hash__] hashes the name, [RTuple.__hash__] the pair of the name
    and the element types, [RUnion.__hash__] the pair of ['union'] and the
    frozen item set. *)
Fixpoint py_hash (t : RType) : Z :=
  match t with
  | RTuple ts _ _ _ _ => hash_tuple [hash_str "tuple"; hash_tuple (map py_hash ts)]
  | RUnion _ s => hash_tuple [hash_str "union"; hash_frozenset (map py_hash s)]
  | _ => hash_str (name t)
  end.

(** The entry [e] of a set matches the key [x] when the hashes agree and
    [e == x] (the identity shortcut of the runtime is subsumed: [==] is
    reflexive on these objects, see [py_eq_refl]). *)
Definition same_key (eq : RType -> RType -> bool) (e x : RType) : bool :=
  Z.eqb (py_hash e) (py_hash x) && eq e x.

(** [frozenset(items)] and [s1 == s2] for sets of types compared by [eq]. *)
Definition frozenset_of (eq : RType -> RType -> bool) (items : list RType) : list RType :=
  frozenset (same_key eq) items.

Definition frozenset_eq (eq : RType -> RType -> bool) (s1 s2 : list RType) : bool :=
  set_eq (same_key eq) s1 s2.

(** [a == b] ([py_eq a b]) and, for the recursion to be structural in its
    first argument, the mirrored [py_eq_rev a b], which is [b == a]:
    comparing two item sets calls [==] with an entry of the right set on the
    left.  [py_eq_unfold] below states [py_eq] the way the methods read. *)
Fixpoint py_eq (a b : RType) {struct a} : bool :=
  match a with
  | RTuple ts _ _ _ _ =>
      match b with
      | RTuple ts' _ _ _ _ =>
          all2 py_eq ts ts'
      | _ => false
      end
  | RUnion _ s =>
      match b with
      | RUnion _ s' =>
          Nat.eqb (length s) (length s')
          && forallb (fun x =>
               existsb (fun e => Z.eqb (py_hash e) (py_hash x) && py_eq_rev x e) s') s
      | _ => false
      end
  | _ => String.eqb (name b) (name a)
  end
with py_eq_rev (a b : RType) {struct a} : bool :=
  match b with
  | RTuple ts' _ _ _ _ =>
      match a with
      | RTuple ts _ _ _ _ =>
          all2 py_eq_rev ts ts'
      | _ => false
      end
  | RUnion _ s' =>
      match a with
      | RUnion _ s =>
          Nat.eqb (length s') (length s)
          && forallb (fun y =>
               existsb (fun e => Z.eqb (py_hash e) (py_hash y) && py_eq e y) s) s'
      | _ => false
      end
  | _ => String.eqb (name a) (name b)
  end.

(** [RUnion.__init__] *)
Definition RUnion_init (items : list RType) : RType :=
  RUnion items (frozenset_of py_eq items).

(** The types that exist: the objects the constructors return, built from
    objects the constructors returned. *)
Inductive constructed : RType -> Prop :=
| constructed_void : constructed RVoid
| constructed_primitive oid name is_unboxed is_refcounted ctype t :
    RPrimitive_init oid name is_unboxed is_refcounted ctype = Ok t -> constructed t
| constructed_tuple types t :
    Forall constructed types -> RTuple_init types = Ok t -> constructed t
| constructed_instance class_ir : constructed (RInstance_init class_ir)
| constructed_union items :
    Forall constructed items -> constructed (RUnion_init items).

(** The types of depth at most [n] that the constructors built and whose
    names are not reserved. *)
Definition good (n : nat) (t : RType) : Prop :=
  (depth t <= n)%nat /\ constructed t /\ well_named t = true.

End Equality.

End RTypes.

(** ** The subtype relation ([mypyc/subtype.py]) *)

Module Subtype.
Import RTypes.

(** [SubtypeVisitor.visit_rinstance]: [in] on the MRO compares the class
    objects by identity. *)
Definition visit_rinstance (right : RType) (left_class : ClassIR) : bool :=
  match right with
  | RInstance right_class => existsb (Nat.eqb (class_id right_class)) (mro left_class)
  | _ => false
  end.

(** [SubtypeVisitor.visit_rprimitive] *)
Definition visit_rprimitive (right left : RType) : bool :=
  if is_bool_rprimitive left && is_int_rprimitive right then true
  else if is_short_int_rprimitive left && is_int_rprimitive right then true
  else same_object left right.

(** [SubtypeVisitor.visit_rvoid] *)
Definition visit_rvoid (right : RType) : bool :=
  match right with RVoid => true | _ => false end.

(** [SubtypeVisitor.visit_runion] and [SubtypeVisitor.visit_rtuple], over the
    relation [rec] they call back. *)
Definition visit_runion (rec : RType -> RType -> bool) (right : RType)
    (left_items : list RType) : bool :=
  forallb (fun item => rec item right) left_items.

Definition visit_rtuple (rec : RType -> RType -> bool) (right : RType)
    (left_types : list RType) : bool :=
  if is_tuple_rprimitive right then true
  else match right with
       | RTuple right_types _ _ _ _ =>
           Nat.eqb (length right_types) (length left_types)
           && forallb (fun p => rec (fst p) (snd p)) (zip left_types right_types)
       | _ => false
       end.

(** [left.accept(SubtypeVisitor(right))] *)
Definition accept (rec : RType -> RType -> bool) (right left : RType) : bool :=
  match left with
  | RVoid => visit_rvoid right
  | RPrimitive _ _ _ _ _ _ => visit_rprimitive right left
  | RTuple types _ _ _ _ => visit_rtuple rec right types
  | RInstance c => visit_rinstance right c
  | RUnion items _ => visit_runion rec right items
  end.

(** The body of [is_subtype], as the function reads, over the relation
    [rec] used for the recursive calls. *)
Definition is_subtype_body (rec : RType -> RType -> bool) (left right : RType) : bool :=
  if is_object_rprimitive right then true
  else match right with
       | RUnion right_items _ =>
           match left with
           | RUnion left_items _ =>
               forallb (fun left_item =>
                          existsb (fun right_item => rec left_item right_item) right_items)
                       left_items
           | _ => existsb (fun item => rec left item) right_items
           end
       | _ => accept rec right left
       end.

(** [is_subtype].  The recursion descends into [left] (items of a union,
    elements of a tuple) or keeps [left] and descends into a union on the
    right, so it is written as a recursion on [left] with an inner recursion
    on [right]; [is_subtype_unfold] shows it satisfies [is_subtype_body]. *)
Fixpoint is_subtype (left right : RType) {struct left} : bool :=
  match left with
  | RUnion left_items _ =>
      if is_object_rprimitive right then true
      else match right with
           | RUnion right_items _ =>
               forallb (fun left_item =>
                          existsb (fun right_item => is_subtype left_item right_item)
                                  right_items)
                       left_items
           | _ => forallb (fun item => is_subtype item right) left_items
           end
  | RTuple left_types _ _ _ _ =>
      (fix against (right : RType) : bool :=
         if is_object_rprimitive right then true
         else match right with
              | RUnion right_items _ => existsb against right_items
              | RTuple right_types _ _ _ _ =>
                  if is_tuple_rprimitive right then true
                  else Nat.eqb (length right_types) (length left_types)
                       && all2 is_subtype left_types right_types
              | _ => is_tuple_rprimitive right
              end) right
  | RPrimitive _ _ _ _ _ _ =>
      (fix against (right : RType) : bool :=
         if is_object_rprimitive right then true
         else match right with
              | RUnion right_items _ => existsb against right_items
              | _ => visit_rprimitive right left
              end) right
  | RInstance c =>
      (fix against (right : RType) : bool :=
         if is_object_rprimitive right then true
         else match right with
              | RUnion right_items _ => existsb against right_items
              | _ => visit_rinstance right c
              end) right
  | RVoid =>
      (fix against (right : RType) : bool :=
         if is_object_rprimitive right then true
         else match right with
              | RUnion right_items _ => existsb against right_items
              | _ => visit_rvoid right
              end) right
  end.

End Subtype.

(** ** The promotion table ([mypy/semanal_classprop.py])

    [TYPE_PROMOTIONS] is a table of the type checker: it maps the full name
    of a class to the name of the class it is promoted to.  The code that
    consults it is in the type checker ([mypy/subtypes.py], not among the
    sources at hand), not in [mypyc/subtype.py]. *)
Module SemanalClassprop.

Definition TYPE_PROMOTIONS : list (string * string) :=
  [("builtins.int", "float");
   ("builtins.float", "complex");
   ("builtins.bytearray", "bytes");
   ("builtins.memoryview", "bytes")].

End SemanalClassprop.

(** ** Serialization of runtime types ([mypyc/ops.py]) *)

(** Decoded JSON, as far as the serialized types use it: strings, lists and
    objects (a [JsonDict], kept as the list of its entries). *)
Inductive json : Type :=
| JStr (s : string)
| JList (l : list json)
| JDict (kvs : list (string * json)).

Module Serialize.
Import RTypes.

(** [DeserMaps]: the classes and functions by name.  [FuncIR] is not read
    when types are deserialized and stays a parameter. *)
Record DeserMaps (FuncIR : Type) : Type := mkDeserMaps {
  classes : gmap string ClassIR;
  functions : gmap string FuncIR
}.
Arguments classes {FuncIR} _.
Arguments functions {FuncIR} _.

(** [RType.serialize] of each subclass. *)
Fixpoint serialize (t : RType) : json :=
  match t with
  | RVoid => JStr "void"
  | RPrimitive _ n _ _ _ _ => JStr n
  | RInstance c => JStr (fullname c)
  | RTuple types _ _ _ _ =>
      JDict [(".class", JStr "RTuple"); ("types", JList (map serialize types))]
  | RUnion items _ =>
      JDict [(".class", JStr "RUnion"); ("types", JList (map serialize items))]
  end.

(** [data.get(key)]: the first entry for the key. *)
Fixpoint json_get (kvs : list (string * json)) (key : string) : option json :=
  match kvs with
  | [] => None
  | (key', v) :: kvs' => if String.eqb key' key then Some v else json_get kvs' key
  end.

(** [data[key]] followed by a use [k] of the value found. *)
Section GetThen.
Context {B : Type} (k : json -> result B) (key : string).
Fixpoint get_then (kvs : list (string * json)) : result B :=
  match kvs with
  | [] => Raise (KeyError key)
  | (key', v) :: kvs' => if String.eqb key' key then k v else get_then kvs'
  end.
End GetThen.

(** Iterating over a string: its characters, as strings of length one. *)
Fixpoint chars (s : string) : list string :=
  match s with
  | EmptyString => []
  | String c s' => String c EmptyString :: chars s'
  end.

Section Deserialize.
Context `{!Py.Hash} {FuncIR : Type}.
(** The class variable [RPrimitive.primitive_map] at the time of the call,
    and [str] of a list or a dict (used when an error message is built). *)
Variable pm : gmap string RType.
Variable str_of_container : json -> string.

(** ['{}'.format(x)] *)
Definition format (x : json) : string :=
  match x with
  | JStr s => s
  | _ => str_of_container x
  end.

(** The branch of [deserialize_type] for a string. *)
Definition deserialize_str (data : string) (ctx : DeserMaps FuncIR) : result RType :=
  match classes ctx !! data with
  | Some c => Ok (RInstance_init c)
  | None =>
      match pm !! data with
      | Some p => Ok p
      | None =>
          if String.eqb data "void" then Ok RVoid
          else Raise (AssertionError ("Can't find class " +:+ data))
      end
  end.

Definition is_str (x : json) (s : string) : bool :=
  match x with JStr s' => String.eqb s' s | _ => false end.

(** [deserialize_type], with [RTuple.deserialize] and [RUnion.deserialize]
    in place.  Iterating over [data['types']] yields the elements of a list,
    the characters of a string and the keys of a dict. *)
Fixpoint deserialize_type (data : json) (ctx : DeserMaps FuncIR) {struct data} : result RType :=
  match data with
  | JStr s => deserialize_str s ctx
  | JList _ => Raise (TypeError "list indices must be integers or slices, not str")
  | JDict kvs =>
      let each (v : json) : result (list RType) :=
        match v with
        | JList l => mapM (fun t => deserialize_type t ctx) l
        | JStr s => mapM (fun c => deserialize_str c ctx) (chars s)
        | JDict kvs' => mapM (fun c => deserialize_str c ctx) (map fst kvs')
        end in
      get_then (fun cls =>
        if is_str cls "RTuple" then
          types ← get_then each "types" kvs; RTuple_init types
        else if is_str cls "RUnion" then
          types ← get_then each "types" kvs; Ok (RUnion_init types)
        else Raise (NotImplementedError ("unexpected .class " +:+ format cls)))
        ".class" kvs
  end.

End Deserialize.

(** The names of a type are registered: every primitive in it is the object
    registered under its name in [primitive_map], every class is the one
    registered under its full name in [ctx.classes], and no class is
    registered under the name of a primitive of the type or under ['void']
    (which is not the name of a primitive either). *)
Inductive registered {FuncIR : Type} (pm : gmap string RType) (ctx : DeserMaps FuncIR)
    : RType -> Prop :=
| registered_void :
    classes ctx !! "void" = None -> pm !! "void" = None -> registered pm ctx RVoid
| registered_primitive oid name is_unboxed is_refcounted ctype c_undefined :
    classes ctx !! name = None ->
    pm !! name = Some (RPrimitive oid name is_unboxed is_refcounted ctype c_undefined) ->
    registered pm ctx (RPrimitive oid name is_unboxed is_refcounted ctype c_undefined)
| registered_tuple types is_refcounted unique_id struct_name ctype :
    Forall (registered pm ctx) types ->
    registered pm ctx (RTuple types is_refcounted unique_id struct_name ctype)
| registered_instance class_ir :
    classes ctx !! fullname class_ir = Some class_ir ->
    registered pm ctx (RInstance class_ir)
| registered_union items items_set :
    Forall (registered pm ctx) items ->
    registered pm ctx (RUnion items items_set).

End Serialize.

(** ** Values and reference count ops ([mypyc/ops.py]) *)

Module Ops.
Import RTypes.

Definition ERR_NEVER : Z := 0.
Definition ERR_MAGIC : Z := 1.
Definition ERR_FALSE : Z := 2.

(** [Value] and the subclasses used here: [Register] and a few [RegisterOp]s
    that produce values of a given type, and the two reference count ops.
    Each constructor keeps the arguments of [__init__] that the object
    stores. *)
Inductive Value : Type :=
| Register (type : RType) (line : Z) (is_arg : bool) (name : string)
| LoadInt (value : Z) (line : Z)
| Cast (src : Value) (typ : RType) (line : Z)
| Box (src : Value) (line : Z)
| Unbox (src : Value) (typ : RType) (line : Z)
| IncRef (src : Value) (line : Z)
| DecRef (src : Value) (is_xdec : bool) (line : Z).

(** The attribute [type]: the class default of [Value] is [void_rtype]. *)
Definition type (v : Value) : RType :=
  match v with
  | Register t _ _ _ => t
  | LoadInt _ _ => short_int_rprimitive
  | Cast _ typ _ => typ
  | Box _ _ => object_rprimitive
  | Unbox _ typ _ => typ
  | IncRef _ _ => RVoid
  | DecRef _ _ _ => RVoid
  end.

(** The class attribute [error_kind]; [RegisterOp] itself has [-1] and a
    [Register] is not an op. *)
Definition error_kind (v : Value) : option Z :=
  match v with
  | Register _ _ _ _ => None
  | LoadInt _ _ => Some ERR_NEVER
  | Cast _ _ _ => Some ERR_MAGIC
  | Box _ _ => Some ERR_NEVER
  | Unbox _ _ _ => Some ERR_MAGIC
  | IncRef _ _ => Some ERR_NEVER
  | DecRef _ _ _ => Some ERR_NEVER
  end.

(** [RegisterOp.can_raise] *)
Definition can_raise (v : Value) : bool :=
  match error_kind v with
  | Some k => negb (Z.eqb k ERR_NEVER)
  | None => false
  end.

(** [Op.sources] *)
Definition sources (v : Value) : list Value :=
  match v with
  | Register _ _ _ _ => []
  | LoadInt _ _ => []
  | Cast src _ _ => [src]
  | Box src _ => [src]
  | Unbox src _ _ => [src]
  | IncRef src _ => [src]
  | DecRef src _ _ => [src]
  end.

(** [RegisterOp.__init__]: [assert self.error_kind != -1]. *)
Definition RegisterOp_init (kind : Z) : result unit :=
  assert (negb (Z.eqb kind (-1))) "error_kind not defined".

(** [IncRef.__init__] *)
Definition IncRef_init (src : Value) (line : Z) : result Value :=
  assert (is_refcounted (type src)) "";;
  RegisterOp_init ERR_NEVER;;
  Ok (IncRef src line).

(** [DecRef.__init__] *)
Definition DecRef_init (src : Value) (is_xdec : bool) (line : Z) : result Value :=
  assert (is_refcounted (type src)) "";;
  RegisterOp_init ERR_NEVER;;
  Ok (DecRef src is_xdec line).

(** The values that exist: built from registers by the constructors. *)
Inductive constructed : Value -> Prop :=
| constructed_register type line is_arg name :
    constructed (Register type line is_arg name)
| constructed_load_int value line : constructed (LoadInt value line)
| constructed_cast src typ line : constructed src -> constructed (Cast src typ line)
| constructed_box src line : constructed src -> constructed (Box src line)
| constructed_unbox src typ line : constructed src -> constructed (Unbox src typ line)
| constructed_inc_ref src line v :
    constructed src -> IncRef_init src line = Ok v -> constructed v
| constructed_dec_ref src is_xdec line v :
    constructed src -> DecRef_init src is_xdec line = Ok v -> constructed v.

(** Every [IncRef] and [DecRef] in [v], at any depth, has a source of a
    reference counted type. *)
Fixpoint ref_ops_refcounted (v : Value) : bool :=
  match v with
  | Register _ _ _ _ => true
  | LoadInt _ _ => true
  | Cast src _ _ => ref_ops_refcounted src
  | Box src _ => ref_ops_refcounted src
  | Unbox src _ _ => ref_ops_refcounted src
  | IncRef src _ => is_refcounted (type src) && ref_ops_refcounted src
  | DecRef src _ _ => is_refcounted (type src) && ref_ops_refcounted src
  end.

End Ops.

(** ** Dataflow analyses ([mypyc/analysis.py]) *)

Module Analysis.

(** The ops of [mypyc/ops.py], as [analysis.py] receives them.  A value (a
    [Register], or an op, which stands for its own result) and a
    [BasicBlock] that a jump leads to are objects, known here by their
    identity, a number.  A constructor keeps the attributes of the class
    that hold values or blocks: [Goto.label], [Branch.left], [Branch.true]
    and [Branch.false], [Return.reg], [Assign.dest] and [Assign.src], and
    for the other classes what [sources()] is made of. *)
Inductive Op : Type :=
| Goto (label : nat)
| Branch (left : nat) (true_label false_label : nat)
| Return (reg : nat)
| Unreachable
| IncRef (src : nat)
| DecRef (src : nat)
| Call (args : list nat)
| MethodCall (obj : nat) (args : list nat)
| PrimitiveOp (args : list nat)
| Assign (dest src : nat)
| LoadInt
| LoadErrorValue
| GetAttr (obj : nat)
| SetAttr (obj src : nat)
| LoadStatic
| InitStatic (value : nat)
| TupleSet (items : list nat)
| TupleGet (src : nat)
| Cast (src : nat)
| Box (src : nat)
| Unbox (src : nat)
| RaiseStandardError.

(** [op.sources()] *)
Definition sources (op : Op) : list nat :=
  match op with
  | Goto _ => []
  | Branch l _ _ => [l]
  | Return r => [r]
  | Unreachable => []
  | IncRef src => [src]
  | DecRef src => [src]
  | Call args => args
  | MethodCall obj args => args ++ [obj]
  | PrimitiveOp args => args
  | Assign _ src => [src]
  | LoadInt => []
  | LoadErrorValue => []
  | GetAttr obj => [obj]
  | SetAttr obj src => [obj; src]
  | LoadStatic => []
  | InitStatic value => [value]
  | TupleSet items => items
  | TupleGet src => [src]
  | Cast src => [src]
  | Box src => [src]
  | Unbox src => [src]
  | RaiseStandardError => []
  end.

(** The attributes that the visitors of [analysis.py] read.  [op.dest]:
    only an [Assign] has the attribute, and it holds a [Register];
    [op.left]: only a [Branch] has it; [op.right]: no class of [ops.py] has
    it; [op.reg]: only a [Return] has it. *)
Definition get_dest (op : Op) : result (option nat) :=
  match op with
  | Assign d _ => Ok (Some d)
  | _ => Raise (AttributeError "dest")
  end.

Definition get_left (op : Op) : result nat :=
  match op with
  | Branch l _ _ => Ok l
  | _ => Raise (AttributeError "left")
  end.

Definition get_right (op : Op) : result nat := Raise (AttributeError "right").

Definition get_reg (op : Op) : result nat :=
  match op with
  | Return r => Ok r
  | _ => Raise (AttributeError "reg")
  end.

Record BasicBlock : Type := mkBasicBlock {
  label : nat;
  ops : list Op
}.

(** A key of the dictionaries of the control-flow graph, which is also what
    the work list holds: the label of a block, an int, or a [BasicBlock]
    object.  An int and an object are never equal. *)
Inductive node : Type :=
| Label (n : nat)
| Block (id : nat).

Global Instance node_eq_dec : EqDecision node.
Proof. solve_decision. Defined.

Global Instance node_countable : Countable node :=
  inj_countable'
    (fun k => match k with Label n => inl n | Block id => inr id end)
    (fun s => match s with inl n => Label n | inr id => Block id end)
    (fun k => match k with Label _ => eq_refl | Block _ => eq_refl end).

(** A [dict] from keys to lists of keys, in insertion order. *)
Definition dict : Type := list (node * list node).

Fixpoint dict_get (d : dict) (k : node) : option (list node) :=
  match d with
  | [] => None
  | (k', v) :: d' => if bool_decide (k' = k) then Some v else dict_get d' k
  end.

(** [d[k] = v]: a key that is present keeps its position. *)
Fixpoint dict_set (d : dict) (k : node) (v : list node) : dict :=
  match d with
  | [] => [(k, v)]
  | (k', v') :: d' => if bool_decide (k' = k) then (k, v) :: d' else (k', v') :: dict_set d' k v
  end.

Definition key_error (k : node) : exn :=
  KeyError (match k with
            | Label n => pretty n
            | Block _ => "<mypyc.ops.BasicBlock object>"
            end).

(** [d[k]] *)
Definition dict_item (d : dict) (k : node) : result (list node) :=
  match dict_get d k with
  | Some v => Ok v
  | None => Raise (key_error k)
  end.

(** [CFG] *)
Record CFG : Type := mkCFG {
  succ : dict;
  pred : dict;
  exits : gset node
}.

(** [CFG.__init__]: [assert exits]. *)
Definition CFG_init (succ pred : dict) (exits : gset node) : result CFG :=
  assert (negb (bool_decide (exits = ∅))) "";;
  Ok (mkCFG succ pred exits).

(** The first loop of [get_cfg], one block at a time: [last.true],
    [last.false] and [last.label] are [BasicBlock] objects. *)
Definition get_cfg_block (st : dict * dict * gset node) (block : BasicBlock)
    : result (dict * dict * gset node) :=
  let '(succ_map, pred_map, exits) := st in
  let label := Label (label block) in
  match last (ops block) with
  | None => Raise (IndexError "list index out of range")
  | Some last_op =>
      let '(succ, exits) :=
        match last_op with
        | Branch _ t f => ([Block t; Block f], exits)
        | Goto l => ([Block l], exits)
        | _ => ([], exits ∪ {[label]})
        end in
      Ok (dict_set succ_map label succ, dict_set pred_map label [], exits)
  end.

Fixpoint foldM {A S : Type} (f : S -> A -> result S) (l : list A) (s : S) : result S :=
  match l with
  | [] => Ok s
  | x :: l' => s' ← f s x; foldM f l' s'
  end.

(** [pred_map[label].append(prev)] *)
Definition add_pred (prev : node) (pred_map : dict) (label : node) : result dict :=
  l ← dict_item pred_map label;
  Ok (dict_set pred_map label (l ++ [prev])).

(** [get_cfg] *)
Definition get_cfg (blocks : list BasicBlock) : result CFG :=
  '(succ_map, pred_map, exits) ← foldM get_cfg_block blocks ([], [], ∅);
  pred_map ← foldM (fun pm '(prev, nxt) => foldM (add_pred prev) nxt pm) succ_map pred_map;
  CFG_init succ_map pred_map exits.

Definition GenAndKill : Type := gset nat * gset nat.

(** The visitors.  [BaseAnalysisVisitor] answers [visit_goto] with two empty
    sets and sends [Call], [PrimitiveOp], [Assign], [LoadInt], [Box],
    [Unbox] and [Cast] to [visit_register_op]; a subclass gives
    [visit_branch], [visit_return], [visit_unreachable] and
    [visit_register_op], each of which receives the op.  The methods of
    [OpVisitor] for the other ops are not overridden: they raise
    [NotImplementedError]. *)
Record AnalysisVisitor : Type := mkVisitor {
  visit_branch : Op -> result GenAndKill;
  visit_return : Op -> result GenAndKill;
  visit_unreachable : Op -> result GenAndKill;
  visit_register_op : Op -> result GenAndKill
}.

(** [op.accept(visitor)] *)
Definition accept (op : Op) (v : AnalysisVisitor) : result GenAndKill :=
  match op with
  | Goto _ => Ok (∅, ∅)
  | Branch _ _ _ => visit_branch v op
  | Return _ => visit_return v op
  | Unreachable => visit_unreachable v op
  | Call _ | PrimitiveOp _ | Assign _ _ | LoadInt | Box _ | Unbox _ | Cast _ =>
      visit_register_op v op
  | IncRef _ | DecRef _ | MethodCall _ _ | LoadErrorValue | GetAttr _ | SetAttr _ _
  | LoadStatic | InitStatic _ | TupleSet _ | TupleGet _ | RaiseStandardError =>
      Raise (NotImplementedError "")
  end.

Definition MaybeDefinedVisitor : AnalysisVisitor :=
  {| visit_branch := fun _ => Ok (∅, ∅);
     visit_return := fun _ => Ok (∅, ∅);
     visit_unreachable := fun _ => Ok (∅, ∅);
     visit_register_op := fun op =>
       d ← get_dest op;
       match d with
       | Some d => Ok ({[d]}, ∅)
       | None => Ok (∅, ∅)
       end |}.

Definition BorrowedArgumentsVisitor (args : gset nat) : AnalysisVisitor :=
  {| visit_branch := fun _ => Ok (∅, ∅);
     visit_return := fun _ => Ok (∅, ∅);
     visit_unreachable := fun _ => Ok (∅, ∅);
     visit_register_op := fun op =>
       d ← get_dest op;
       match d with
       | Some d => if bool_decide (d ∈ args) then Ok (∅, {[d]}) else Ok (∅, ∅)
       | None => Ok (∅, ∅)
       end |}.

Definition LivenessVisitor : AnalysisVisitor :=
  {| visit_branch := fun op => l ← get_left op; r ← get_right op; Ok ({[l; r]}, ∅);
     visit_return := fun op => r ← get_reg op; Ok ({[r]}, ∅);
     visit_unreachable := fun _ => Ok (∅, ∅);
     visit_register_op := fun op =>
       let gen : gset nat := list_to_set (sources op) in
       d ← get_dest op;
       match d with
       | Some d => Ok (gen, {[d]})
       | None => Ok (gen, ∅)
       end |}.

Definition MUST_ANALYSIS : Z := 0.
Definition MAYBE_ANALYSIS : Z := 1.

(** [d[k]] on the dictionaries of sets. *)
Definition item {V : Type} (d : gmap node V) (k : node) : result V :=
  match d !! k with
  | Some v => Ok v
  | None => Raise (key_error k)
  end.

(** [gen] and [kill] of a block: the loop over its ops. *)
Definition block_gen_kill (gen_and_kill : AnalysisVisitor) (ops : list Op)
    : result GenAndKill :=
  foldM (fun '(gen, kill) op =>
           '(opgen, opkill) ← accept op gen_and_kill;
           Ok ((gen ∖ opkill) ∪ opgen, (kill ∖ opgen) ∪ opkill))
        ops (∅, ∅).

(** [worklist.pop()] *)
Definition pop (worklist : list node) : option (node * list node) :=
  match rev worklist with
  | [] => None
  | x :: r => Some (x, rev r)
  end.

(** The state of the work list loop. *)
Record WorkState : Type := mkWorkState {
  worklist : list node;
  workset : gset node;
  before : gmap node (gset nat);
  after : gmap node (gset nat)
}.

Section RunAnalysis.
Variable cfg : CFG.
Variable gen_and_kill : AnalysisVisitor.
Variable initial : gset nat.
Variable kind : Z.
Variable backward : bool.
Variable universe : option (gset nat).

Definition pred_map : dict := if backward then succ cfg else pred cfg.
Definition succ_map : dict := if backward then pred cfg else succ cfg.

(** The loop over [pred_map[label]] that joins the [after] sets. *)
Fixpoint join (after : gmap node (gset nat)) (preds : list node)
    (new_before : option (gset nat)) : result (option (gset nat)) :=
  match preds with
  | [] => Ok new_before
  | p :: preds' =>
      a ← item after p;
      join after preds'
        (Some (match new_before with
               | None => a
               | Some nb => if Z.eqb kind MAYBE_ANALYSIS then nb ∪ a else nb ∩ a
               end))
  end.

(** The loop over [succ_map[label]] that schedules the successors. *)
Definition schedule (st : list node * gset node) (s : node) : list node * gset node :=
  let '(worklist, workset) := st in
  if bool_decide (s ∈ workset) then (worklist, workset)
  else (worklist ++ [s], workset ∪ {[s]}).

(** One iteration of the work list loop, for the label just popped. *)
Definition step (block_gen block_kill : gmap node (gset nat))
    (label : node) (rest : list node) (st : WorkState) : result WorkState :=
  if negb (bool_decide (label ∈ workset st)) then Raise (key_error label)
  else
    let workset := workset st ∖ {[label]} in
    preds ← dict_item pred_map label;
    new_before ←
      match preds with
      | [] => Ok initial
      | _ => nb ← join (after st) preds None;
             match nb with
             | Some nb => Ok nb
             | None => Ok ∅
             end
      end;
    let before := <[label := new_before]> (before st) in
    gen ← item block_gen label;
    kill ← item block_kill label;
    let new_after := (new_before ∪ gen) ∖ kill in
    old_after ← item (after st) label;
    '(worklist, workset) ←
      (if bool_decide (new_after = old_after) then Ok (rest, workset)
       else succs ← dict_item succ_map label;
            Ok (fold_left schedule succs (rest, workset)));
    Ok (mkWorkState worklist workset before (<[label := new_after]> (after st))).

(** [while worklist: ...]; [None] when [fuel] iterations were not enough. *)
Fixpoint work (fuel : nat) (block_gen block_kill : gmap node (gset nat))
    (st : WorkState) : option (result WorkState) :=
  match pop (worklist st) with
  | None => Some (Ok st)
  | Some (label, rest) =>
      match fuel with
      | O => None
      | S fuel' =>
          match step block_gen block_kill label rest st with
          | Ok st' => work fuel' block_gen block_kill st'
          | Raise e => Some (Raise e)
          end
      end
  end.

(** The first loop of [run_analysis], one block at a time: the [gen] and
    [kill] sets of the block are stored under its label. *)
Definition block_sets (acc : gmap node (gset nat) * gmap node (gset nat))
    (block : BasicBlock) : result (gmap node (gset nat) * gmap node (gset nat)) :=
  let '(block_gen, block_kill) := acc in
  let ops := if backward then rev (ops block) else ops block in
  '(gen, kill) ← block_gen_kill gen_and_kill ops;
  Ok (<[Label (label block) := gen]> block_gen, <[Label (label block) := kill]> block_kill).

(** The last loop of [run_analysis], one block at a time: the sets before
    and after each op. *)
Definition sweep_block (before : gmap node (gset nat))
    (acc : gmap (node * nat) (gset nat) * gmap (node * nat) (gset nat))
    (block : BasicBlock)
    : result (gmap (node * nat) (gset nat) * gmap (node * nat) (gset nat)) :=
  let label := Label (label block) in
  cur ← item before label;
  let ops_enum := imap (fun idx op => (idx, op)) (ops block) in
  let ops_enum := if backward then rev ops_enum else ops_enum in
  r ← foldM
        (fun '(cur, (op_before, op_after)) '(idx, op) =>
           let op_before := <[(label, idx) := cur]> op_before in
           '(opgen, opkill) ← accept op gen_and_kill;
           let cur := (cur ∖ opkill) ∪ opgen in
           Ok (cur, (op_before, <[(label, idx) := cur]> op_after)))
        ops_enum (cur, acc);
  Ok (snd r).

(** [run_analysis]; the result is the pair [(op_before, op_after)]. *)
Definition run_analysis (fuel : nat) (blocks : list BasicBlock)
    : option (result (gmap (node * nat) (gset nat) * gmap (node * nat) (gset nat))) :=
  match (if Z.eqb kind MUST_ANALYSIS
         then assert (bool_decide (is_Some universe))
                     "Universe must be defined for a must analysis"
         else Ok tt) with
  | Raise e => Some (Raise e)
  | Ok _ =>
  match foldM block_sets blocks (∅, ∅) with
  | Raise e => Some (Raise e)
  | Ok (block_gen, block_kill) =>
  let worklist := map (fun block => Label (label block)) blocks in
  let worklist := if backward then worklist else rev worklist in
  let workset : gset node := list_to_set worklist in
  match (if Z.eqb kind MAYBE_ANALYSIS then Ok ∅
         else match universe with
              | Some u => Ok u
              | None => Raise (TypeError "'NoneType' object is not iterable")
              end) with
  | Raise e =>
      (* [set(universe)] is only evaluated when there is a block *)
      match blocks with
      | [] => Some (Ok (∅, ∅))
      | _ :: _ => Some (Raise e)
      end
  | Ok start =>
  let init : gmap node (gset nat) :=
    fold_left (fun m block => <[Label (label block) := start]> m) blocks ∅ in
  match work fuel block_gen block_kill (mkWorkState worklist workset init init) with
  | None => None
  | Some (Raise e) => Some (Raise e)
  | Some (Ok st) =>
      match foldM (sweep_block (before st)) blocks (∅, ∅) with
      | Raise e => Some (Raise e)
      | Ok (op_before, op_after) =>
          if backward then Some (Ok (op_after, op_before))
          else Some (Ok (op_before, op_after))
      end
  end
  end
  end
  end.

End RunAnalysis.

(** [analyze_live_regs] *)
Definition analyze_live_regs (fuel : nat) (blocks : list BasicBlock) (cfg : CFG)
    : option (result (gmap (node * nat) (gset nat) * gmap (node * nat) (gset nat))) :=
  run_analysis cfg LivenessVisitor ∅ MAYBE_ANALYSIS true None fuel blocks.

(** [analyze_maybe_defined_regs] *)
Definition analyze_maybe_defined_regs (fuel : nat) (blocks : list BasicBlock) (cfg : CFG)
    (initial_defined : gset nat)
    : option (result (gmap (node * nat) (gset nat) * gmap (node * nat) (gset nat))) :=
  run_analysis cfg MaybeDefinedVisitor initial_defined MAYBE_ANALYSIS false None fuel blocks.

(** [analyze_borrowed_arguments] *)
Definition analyze_borrowed_arguments (fuel : nat) (blocks : list BasicBlock) (cfg : CFG)
    (args : gset nat)
    : option (result (gmap (node * nat) (gset nat) * gmap (node * nat) (gset nat))) :=
  run_analysis cfg (BorrowedArgumentsVisitor args) args MUST_ANALYSIS false
    (Some args) fuel blocks.

End Analysis.

(** ** Constant folding ([mypy/constant_fold.py]) *)

Module ConstantFold.

(** A Python [int]; [bool] is a subclass of [int], so a value that passes
    [isinstance(v, int)] is either a plain integer or a boolean. *)
Inductive pyint : Type :=
| PInt (z : Z)
| PBool (b : bool).

Definition int_value (i : pyint) : Z :=
  match i with
  | PInt z => z
  | PBool b => if b then 1 else 0
  end.

(** [&], [|] and [^] give a [bool] on two booleans and an [int] otherwise. *)
Definition bitwise (fb : bool -> bool -> bool) (fz : Z -> Z -> Z) (l r : pyint) : pyint :=
  match l, r with
  | PBool a, PBool b => PBool (fb a b)
  | _, _ => PInt (fz (int_value l) (int_value r))
  end.

(** [constant_fold_binary_int_op] *)
Definition constant_fold_binary_int_op (op : string) (left right : pyint) : option pyint :=
  let l := int_value left in
  let r := int_value right in
  if String.eqb op "+" then Some (PInt (l + r))
  else if String.eqb op "-" then Some (PInt (l - r))
  else if String.eqb op "*" then Some (PInt (l * r))
  else if String.eqb op "//" then
    if negb (Z.eqb r 0) then Some (PInt (l / r)) else None
  else if String.eqb op "%" then
    if negb (Z.eqb r 0) then Some (PInt (l mod r)) else None
  else if String.eqb op "&" then Some (bitwise andb Z.land left right)
  else if String.eqb op "|" then Some (bitwise orb Z.lor left right)
  else if String.eqb op "^" then Some (bitwise xorb Z.lxor left right)
  else if String.eqb op "<<" then
    if Z.leb 0 r then Some (PInt (Z.shiftl l r)) else None
  else if String.eqb op ">>" then
    if Z.leb 0 r then Some (PInt (Z.shiftr l r)) else None
  else if String.eqb op "**" then
    if Z.leb 0 r then Some (PInt (l ^ r)) else None
  else None.

(** [constant_fold_unary_int_op]; [+value] is [value] itself. *)
Definition constant_fold_unary_int_op (op : string) (value : pyint) : option pyint :=
  if String.eqb op "-" then Some (PInt (- int_value value))
  else if String.eqb op "~" then Some (PInt (Z.lnot (int_value value)))
  else if String.eqb op "+" then Some value
  else None.

(** [constant_fold_binary_str_op] *)
Definition constant_fold_binary_str_op (op : string) (left right : string) : option string :=
  if String.eqb op "+" then Some (left +:+ right) else None.

(** [s.rsplit(".", 1)[0]]: what precedes the last dot, or all of [s]. *)
Fixpoint before_last_dot (s : string) : option string :=
  match s with
  | EmptyString => None
  | String c s' =>
      match before_last_dot s' with
      | Some p => Some (String c p)
      | None => if String.eqb (String c EmptyString) "." then Some EmptyString else None
      end
  end.

Definition rsplit_head (s : string) : string :=
  match before_last_dot s with
  | Some p => p
  | None => s
  end.

Section Fold.
(** Floating point numbers are only passed through. *)
Context {float : Type}.

(** [ConstantValue = Union[int, bool, float, str]] *)
Inductive ConstantValue : Type :=
| VInt (i : pyint)
| VFloat (x : float)
| VStr (s : string).

(** Modelled from the spec: the expression nodes and [Var] are classes of
    [mypy/nodes.py], which is not among the sources at hand; they carry the
    attributes that [constant_fold_expr] reads.  [final_value] is [None]
    when the variable has no value of a constant type. *)
Inductive SymbolNode : Type :=
| Var (fullname : string) (is_final : bool) (final_value : option ConstantValue)
| OtherNode.

Inductive Expression : Type :=
| IntExpr (value : Z)
| StrExpr (value : string)
| FloatExpr (value : float)
| NameExpr (name : string) (node : option SymbolNode)
| OpExpr (op : string) (left right : Expression)
| UnaryExpr (op : string) (expr : Expression)
| OtherExpr.

(** [constant_fold_expr] *)
Fixpoint constant_fold_expr (expr : Expression) (cur_mod_id : string)
    : option ConstantValue :=
  match expr with
  | IntExpr value => Some (VInt (PInt value))
  | StrExpr value => Some (VStr value)
  | FloatExpr value => Some (VFloat value)
  | NameExpr name node =>
      if String.eqb name "True" then Some (VInt (PBool true))
      else if String.eqb name "False" then Some (VInt (PBool false))
      else match node with
           | Some (Var fullname is_final final_value) =>
               if is_final && String.eqb (rsplit_head fullname) cur_mod_id
               then final_value
               else None
           | _ => None
           end
  | OpExpr op expr_left expr_right =>
      let left := constant_fold_expr expr_left cur_mod_id in
      let right := constant_fold_expr expr_right cur_mod_id in
      match left, right with
      | Some (VInt l), Some (VInt r) =>
          VInt <$> constant_fold_binary_int_op op l r
      | Some (VStr l), Some (VStr r) =>
          VStr <$> constant_fold_binary_str_op op l r
      | _, _ => None
      end
  | UnaryExpr op expr =>
      match constant_fold_expr expr cur_mod_id with
      | Some (VInt value) => VInt <$> constant_fold_unary_int_op op value
      | _ => None
      end
  | OtherExpr => None
  end.

End Fold.

End ConstantFold.

(** ** The command handlers of the daemon ([mypy/dmypy_server.py]) *)

Module DmypyServer.

(** Modelled from the spec: [BuildSource] is a class of
    [mypy/modulefinder.py], which is not among the sources at hand; the
    server reads its attributes [path] (which may be [None]) and [module]. *)
Record BuildSource : Type := mkBuildSource {
  path : option string;
  module : string
}.

(** The line feed. *)
Definition nl : string := String (Ascii.ascii_of_nat 10) EmptyString.

(** [''.join(s + '\n' for s in messages)] *)
Definition join_lines (messages : list string) : string :=
  String.concat "" (map (fun s => s +:+ nl) messages).

(** [out.endswith("\n")] *)
Fixpoint ends_with_nl (s : string) : bool :=
  match s with
  | EmptyString => false
  | String c EmptyString => String.eqb (String c EmptyString) nl
  | String _ s' => ends_with_nl s'
  end.

(** The methods [cmd_*] of the class [Server]. *)
Definition commands : list string :=
  ["status"; "stop"; "run"; "check"; "recheck"; "suggest"; "hang"].

(** A value stored in a response, and a response: a [dict] in key order. *)
Inductive value (Stats : Type) : Type :=
| VStr (s : string)
| VInt (z : Z)
| VNone
| VStats (stats : Stats).
Arguments VStr {Stats} s.
Arguments VInt {Stats} z.
Arguments VNone {Stats}.
Arguments VStats {Stats} stats.

Definition response (Stats : Type) : Type := list (string * value Stats).

(** What a call of a collaborator gives: a result or the exception the
    server catches. *)
Inductive SourceListOutcome : Type :=
| Sources (sources : list BuildSource)
| InvalidSourceList (msg : string).

Inductive BuildOutcome (Manager : Type) : Type :=
| Built (errors : list string) (used_cache : bool) (fine_grained_manager : Manager)
| CompileError (messages : list string) (use_stdout : bool).
Arguments Built {Manager} errors used_cache fine_grained_manager.
Arguments CompileError {Manager} messages use_stdout.

Inductive OptionsOutcome (Options Stats : Type) : Type :=
| Processed (sources : list BuildSource) (options : Options)
| OptionsInvalidSourceList (msg : string)
| SystemExit (code : value Stats) (stdout stderr : string).
Arguments Processed {Options Stats} sources options.
Arguments OptionsInvalidSourceList {Options Stats} msg.
Arguments SystemExit {Options Stats} code stdout stderr.

Inductive SuggestOutcome : Type :=
| Suggested (out : string)
| SuggestionFailure (msg : string).

(** The collaborators of the server are not among the sources at hand
    ([mypy.build], [mypy.main], [mypy.find_sources], [mypy.fswatcher],
    [mypy.server.update], [mypy.suggestions], [mypy.version]); their state
    is abstract and their behaviour is a parameter:
    - [create_source_list], [build] and [process_options] return or raise
      the exception the server catches;
    - [fg_update] is [FineGrainedBuildManager.update]; [stale] lists the
      modules that are not fresh; [set_search_paths], [add_stats] and
      [take_stats] are the bookkeeping of the build manager;
    - [new_watcher], [add_watched_paths], [seed_from_cache],
      [watcher_find_changed] and [watcher_update_changed] are the file
      system watcher, [flush] the file system cache;
    - [pretty_messages] formats the messages, [get_meminfo] is the memory
      report and [suggest] the suggestion engine. *)
Class Collaborators : Type := {
  Options : Type;
  Snapshot : Type;
  FSCache : Type;
  Watcher : Type;
  Manager : Type;
  Stats : Type;
  Plugins : Type;
  Kwargs : Type;
  create_source_list : list string -> Options -> FSCache -> SourceListOutcome;
  build : list BuildSource -> Options -> FSCache -> BuildOutcome Manager;
  process_options : list string -> FSCache -> OptionsOutcome Options Stats;
  snapshot : Options -> Snapshot;
  snapshot_eqb : Snapshot -> Snapshot -> bool;
  plugins_eqb : Plugins -> Plugins -> bool;
  plugins_snapshot : Manager -> Plugins;
  load_plugins : Options -> Manager -> Plugins;
  version : string;
  fg_update :
    Manager -> list (string * string) -> list (string * string) -> list string * Manager;
  stale : Manager -> list (string * string);
  set_search_paths : Manager -> list BuildSource -> Manager;
  add_stats : Manager -> nat -> Manager;
  take_stats : Manager -> Stats * Manager;
  new_watcher : FSCache -> Watcher;
  add_watched_paths : Watcher -> list string -> Watcher;
  seed_from_cache : Manager -> Watcher -> Watcher;
  watcher_find_changed : Watcher -> gset string * Watcher;
  watcher_update_changed : Watcher -> list string -> list string -> gset string * Watcher;
  flush : FSCache -> FSCache;
  pretty_messages : Options -> list string -> nat -> bool -> Z -> list string;
  get_meminfo : response Stats;
  suggest : Manager -> Kwargs -> bool -> string -> SuggestOutcome
}.

Section Server.
Context `{C : Collaborators}.

Local Abbreviation response := (response Stats).
Local Abbreviation value := (value Stats).

(** The attributes of the [Server] object that the commands read and
    write; [previous_sources] and [fswatcher] do not exist before the first
    build. *)
Record Server : Type := mkServer {
  options : Options;
  options_snapshot : Snapshot;
  fine_grained_manager : option Manager;
  previous_sources : option (list BuildSource);
  fswatcher : option Watcher;
  fscache : FSCache;
  status_file_present : bool
}.

Definition set_manager (m : option Manager) (s : Server) : Server :=
  mkServer (options s) (options_snapshot s) m (previous_sources s) (fswatcher s)
           (fscache s) (status_file_present s).
Definition set_previous_sources (l : list BuildSource) (s : Server) : Server :=
  mkServer (options s) (options_snapshot s) (fine_grained_manager s) (Some l) (fswatcher s)
           (fscache s) (status_file_present s).
Definition set_fswatcher (w : Watcher) (s : Server) : Server :=
  mkServer (options s) (options_snapshot s) (fine_grained_manager s) (previous_sources s)
           (Some w) (fscache s) (status_file_present s).
Definition set_fscache (c : FSCache) (s : Server) : Server :=
  mkServer (options s) (options_snapshot s) (fine_grained_manager s) (previous_sources s)
           (fswatcher s) c (status_file_present s).
Definition set_status_file_present (b : bool) (s : Server) : Server :=
  mkServer (options s) (options_snapshot s) (fine_grained_manager s) (previous_sources s)
           (fswatcher s) (fscache s) b.

(** Reading an attribute that may not exist yet. *)
Definition attr {A : Type} (name : string) (a : option A) : result A :=
  match a with
  | Some x => Ok x
  | None => Raise (AttributeError name)
  end.

(** A path that is neither [None] nor empty. *)
Definition truthy_path (s : BuildSource) : option string :=
  match path s with
  | Some p => if String.eqb p "" then None else Some p
  | None => None
  end.

(** [Server.update_sources] *)
Definition update_sources (sources : list BuildSource) (s : Server) : result Server :=
  w ← attr "fswatcher" (fswatcher s);
  Ok (set_fswatcher (add_watched_paths w (omap path sources)) s).

(** [last[s.path]] for [last = {s.path: s.module for s in previous_sources}]:
    the last entry for a key is the one kept. *)
Definition last_module (previous : list BuildSource) (p : option string) : option string :=
  module <$> List.find (fun s => bool_decide (path s = p)) (rev previous).

(** [Server._find_changed] *)
Definition _find_changed (sources : list BuildSource) (changed_paths : gset string)
    (s : Server) : result (list (string * string) * list (string * string)) :=
  let changed :=
    omap (fun src => match truthy_path src with
                     | Some p => if bool_decide (p ∈ changed_paths)
                                 then Some (module src, p) else None
                     | None => None
                     end) sources in
  previous ← attr "previous_sources" (previous_sources s);
  let modules := map module sources in
  let omitted :=
    List.filter (fun src => negb (bool_decide (module src ∈ modules))) previous in
  removed ← mapM (fun src => match truthy_path src with
                             | Some p => Ok (module src, p)
                             | None => Raise (AssertionError "")
                             end) omitted;
  (fix moved (l : list BuildSource) (acc : list (string * string) * list (string * string))
     : result (list (string * string) * list (string * string)) :=
     match l with
     | [] => Ok acc
     | src :: l' =>
         match truthy_path src with
         | None => Raise (AssertionError "")
         | Some p =>
             match last_module previous (path src) with
             | Some m =>
                 if negb (String.eqb m (module src))
                 then moved l' (fst acc ++ [(module src, p)], snd acc ++ [(m, p)])
                 else moved l' acc
             | None => moved l' acc
             end
         end
     end) sources (changed, removed).

(** [Server.find_changed] and [Server.update_changed] *)
Definition find_changed (sources : list BuildSource) (s : Server)
    : result (list (string * string) * list (string * string) * Server) :=
  w ← attr "fswatcher" (fswatcher s);
  let '(changed_paths, w') := watcher_find_changed w in
  let s := set_fswatcher w' s in
  r ← _find_changed sources changed_paths s;
  Ok (r, s).

Definition update_changed (sources : list BuildSource) (remove update : list string)
    (s : Server) : result (list (string * string) * list (string * string) * Server) :=
  w ← attr "fswatcher" (fswatcher s);
  let '(changed_paths, w') := watcher_update_changed w remove update in
  let s := set_fswatcher w' s in
  r ← _find_changed sources changed_paths s;
  Ok (r, s).

(** [status = 1 if messages else 0] *)
Definition status_of (messages : list string) : Z :=
  match messages with
  | [] => 0
  | _ :: _ => 1
  end.

(** The dictionary [{'out': out, 'err': err, 'status': status}]. *)
Definition check_response (out err : string) (status : value) : response :=
  [("out", VStr out); ("err", VStr err); ("status", status)].

(** [Server.initialize_fine_grained] *)
Definition initialize_fine_grained (sources : list BuildSource) (is_tty : bool)
    (terminal_width : Z) (s : Server) : result (response * Server) :=
  let s := set_fswatcher (new_watcher (fscache s)) s in
  s ← update_sources sources s;
  match build sources (options s) (fscache s) with
  | CompileError messages use_stdout =>
      let output := join_lines messages in
      if use_stdout then Ok (check_response output "" (VInt 2), s)
      else Ok (check_response "" output (VInt 2), s)
  | Built errors used_cache manager =>
      let s := set_previous_sources sources (set_manager (Some manager) s) in
      '(messages, s) ←
        (if used_cache then
           w ← attr "fswatcher" (fswatcher s);
           let s := set_fswatcher (seed_from_cache manager w) s in
           '(changed, removed, s) ← find_changed sources s;
           let changed := changed ++ stale manager in
           let '(messages, manager) := fg_update manager changed removed in
           let manager := add_stats manager (length removed + length changed) in
           Ok (messages, set_manager (Some manager) s)
         else
           w ← attr "fswatcher" (fswatcher s);
           Ok (errors, set_fswatcher (snd (watcher_find_changed w)) s));
      let status := status_of messages in
      let messages := pretty_messages (options s) messages (length sources)
                                      is_tty terminal_width in
      Ok (check_response (join_lines messages) "" (VInt status), s)
  end.

(** [Server.fine_grained_increment] *)
Definition fine_grained_increment (sources : list BuildSource) (is_tty : bool)
    (terminal_width : Z) (remove update : option (list string)) (s : Server)
    : result (response * Server) :=
  manager ← match fine_grained_manager s with
            | Some m => Ok m
            | None => Raise (AssertionError "")
            end;
  '(changed, removed, s) ←
    match remove, update with
    | None, None => s ← update_sources sources s; find_changed sources s
    | _, _ => update_changed sources (default [] remove) (default [] update) s
    end;
  let manager := set_search_paths manager sources in
  let '(messages, manager) := fg_update manager changed removed in
  let manager := add_stats manager (length removed + length changed) in
  let status := status_of messages in
  let s := set_previous_sources sources (set_manager (Some manager) s) in
  let messages := pretty_messages (options s) messages (length sources)
                                  is_tty terminal_width in
  Ok (check_response (join_lines messages) "" (VInt status), s).

(** [Server.update_stats] *)
Definition update_stats (res : response) (s : Server) : response * Server :=
  match fine_grained_manager s with
  | Some manager =>
      let '(stats, manager) := take_stats manager in
      (res ++ [("stats", VStats stats)], set_manager (Some manager) s)
  | None => (res, s)
  end.

(** [Server.check] *)
Definition check (sources : list BuildSource) (is_tty : bool) (terminal_width : Z)
    (s : Server) : result (response * Server) :=
  '(res, s) ←
    match fine_grained_manager s with
    | None => initialize_fine_grained sources is_tty terminal_width s
    | Some _ => fine_grained_increment sources is_tty terminal_width None None s
    end;
  let s := set_fscache (flush (fscache s)) s in
  Ok (update_stats res s).

(** [Server.cmd_check] *)
Definition cmd_check (files : list string) (is_tty : bool) (terminal_width : Z)
    (s : Server) : result (response * Server) :=
  match create_source_list files (options s) (fscache s) with
  | InvalidSourceList err => Ok (check_response "" err (VInt 2), s)
  | Sources sources => check sources is_tty terminal_width s
  end.

(** [Server.cmd_run] *)
Definition cmd_run (version' : string) (args : list string) (is_tty : bool)
    (terminal_width : Z) (s : Server) : result (response * Server) :=
  match process_options ("-i" :: args) (fscache s) with
  | OptionsInvalidSourceList err => Ok (check_response "" err (VInt 2), s)
  | SystemExit code stdout stderr => Ok (check_response stdout stderr code, s)
  | Processed sources options' =>
      if negb (snapshot_eqb (options_snapshot s) (snapshot options')) then
        Ok ([("restart", VStr "configuration changed")], s)
      else if negb (String.eqb version version') then
        Ok ([("restart", VStr "mypy version changed")], s)
      else if match fine_grained_manager s with
              | Some manager =>
                  negb (plugins_eqb (load_plugins options' manager)
                                    (plugins_snapshot manager))
              | None => false
              end then
        Ok ([("restart", VStr "plugins changed")], s)
      else check sources is_tty terminal_width s
  end.

(** A list that is neither [None] nor empty. *)
Definition truthy_list (l : option (list string)) : option (list string) :=
  match l with
  | Some (x :: l') => Some (x :: l')
  | _ => None
  end.

(** [Server.cmd_recheck] *)
Definition cmd_recheck (is_tty : bool) (terminal_width : Z)
    (remove update : option (list string)) (s : Server) : result (response * Server) :=
  match fine_grained_manager s with
  | None =>
      Ok ([("error", VStr "Command 'recheck' is only valid after a 'check' command")], s)
  | Some _ =>
      sources ← attr "previous_sources" (previous_sources s);
      let sources :=
        match truthy_list remove with
        | Some removals =>
            List.filter (fun src => match truthy_path src with
                                    | Some p => negb (bool_decide (p ∈ removals))
                                    | None => false
                                    end) sources
        | None => sources
        end in
      let added_sources :=
        match truthy_list update with
        | Some update =>
            let known := omap truthy_path sources in
            let added := List.filter (fun p => negb (bool_decide (p ∈ known))) update in
            match create_source_list added (options s) (fscache s) with
            | InvalidSourceList err => inl err
            | Sources added_sources => inr (sources ++ added_sources)
            end
        | None => inr sources
        end in
      match added_sources with
      | inl err => Ok (check_response "" err (VInt 2), s)
      | inr sources =>
          '(res, s) ← fine_grained_increment sources is_tty terminal_width remove update s;
          let s := set_fscache (flush (fscache s)) s in
          Ok (update_stats res s)
      end
  end.

(** [Server.cmd_suggest] *)
Definition cmd_suggest (function : string) (callsites : bool) (kwargs : Kwargs)
    (s : Server) : result (response * Server) :=
  match fine_grained_manager s with
  | None =>
      Ok ([("error", VStr "Command 'suggest' is only valid after a 'check' command")], s)
  | Some manager =>
      let s' := set_fscache (flush (fscache s)) s in
      match suggest manager kwargs callsites function with
      | SuggestionFailure err => Ok ([("error", VStr err)], s')
      | Suggested out =>
          let out := if String.eqb out "" then "No suggestions" +:+ nl
                     else if negb (ends_with_nl out) then out +:+ nl
                     else out in
          Ok (check_response out "" (VInt 0), s')
      end
  end.

(** [Server.cmd_status] (writing the dump file is left out), [cmd_stop] and
    [cmd_hang]. *)
Definition cmd_status (s : Server) : result (response * Server) :=
  Ok (get_meminfo, s).

Definition cmd_stop (s : Server) : result (response * Server) :=
  Ok ([], set_status_file_present false s).

Definition cmd_hang (s : Server) : result (response * Server) :=
  Ok ([], s).

(** A request: the command and the keyword arguments left in [data] for the
    method.  [Other] is a request whose arguments fit no method. *)
Inductive Arguments : Type :=
| StatusArgs
| StopArgs
| HangArgs
| RunArgs (version : string) (args : list string) (is_tty : bool) (terminal_width : Z)
| CheckArgs (files : list string) (is_tty : bool) (terminal_width : Z)
| RecheckArgs (is_tty : bool) (terminal_width : Z) (remove update : option (list string))
| SuggestArgs (function : string) (callsites : bool) (kwargs : Kwargs)
| Other.

(** [Server.run_command]: [getattr(self.__class__, 'cmd_' + command, None)]
    finds the method, which is then called with the arguments. *)
Definition run_command (command : string) (data : Arguments) (s : Server)
    : result (response * Server) :=
  if negb (bool_decide (command ∈ commands)) then
    Ok ([("error", VStr ("Unrecognized command '" +:+ command +:+ "'"))], s)
  else
    match data with
    | StatusArgs =>
        if String.eqb command "status" then cmd_status s else Raise (TypeError command)
    | StopArgs =>
        if String.eqb command "stop" then cmd_stop s
        else if String.eqb command "hang" then cmd_hang s
        else if String.eqb command "status" then cmd_status s
        else Raise (TypeError command)
    | HangArgs =>
        if String.eqb command "hang" then cmd_hang s
        else if String.eqb command "stop" then cmd_stop s
        else if String.eqb command "status" then cmd_status s
        else Raise (TypeError command)
    | RunArgs v args is_tty tw =>
        if String.eqb command "run" then cmd_run v args is_tty tw s
        else Raise (TypeError command)
    | CheckArgs files is_tty tw =>
        if String.eqb command "check" then cmd_check files is_tty tw s
        else Raise (TypeError command)
    | RecheckArgs is_tty tw remove update =>
        if String.eqb command "recheck" then cmd_recheck is_tty tw remove update s
        else Raise (TypeError command)
    | SuggestArgs function callsites kwargs =>
        if String.eqb command "suggest" then cmd_suggest function callsites kwargs s
        else Raise (TypeError command)
    | Other => Raise (TypeError command)
    end.








End Server.

End DmypyServer.

(** ** Example types *)

Module Examples.
Import RTypes.

(** [RTuple([bool, short_int])] and a tuple that nests it. *)
Definition bool_short_int_tuple : RType :=
  RTuple [bool_rprimitive; short_int_rprimitive] false "T2CI" "tuple_T2CI" "tuple_T2CI".

Definition nested_unboxed_tuple : RType :=
  RTuple [bool_short_int_tuple; none_rprimitive] false
         "T2T2CIC" "tuple_T2T2CIC" "tuple_T2T2CIC".

(** [RTuple([int, bool])], [RTuple([int, int])] and [RTuple([str, int])]. *)
Definition int_bool_tuple : RType :=
  RTuple [int_rprimitive; bool_rprimitive] true "T2IC" "tuple_T2IC" "tuple_T2IC".

Definition int_int_tuple : RType :=
  RTuple [int_rprimitive; int_rprimitive] true "T2II" "tuple_T2II" "tuple_T2II".

Definition str_int_tuple : RType :=
  RTuple [str_rprimitive; int_rprimitive] true "T2OI" "tuple_T2OI" "tuple_T2OI".

(** The function [a = 1; b = a + 1; return b] as one basic block: the value
    [a] is the op that loads 1 (the object 0), and [b] is the op (the object
    2) that adds to [a] another load of 1 (the object 1). *)
Definition straight_line : Analysis.BasicBlock :=
  Analysis.mkBasicBlock 0
    [Analysis.LoadInt; Analysis.LoadInt; Analysis.PrimitiveOp [0; 1]%nat; Analysis.Return 2].

(** The ops on which [LivenessVisitor] does not raise: it reads [op.dest] of
    the ops it takes for register ops and [op.right] of a [Branch]. *)
Definition liveness_visits (op : Analysis.Op) : bool :=
  match op with
  | Analysis.Goto _ | Analysis.Return _ | Analysis.Unreachable | Analysis.Assign _ _ => true
  | _ => false
  end.

(** A hash function to run the definitions on: strings hash to their
    length and a frozenset to the sum of the hashes of its elements. *)
Lemma sum_list_perm (l l' : list Z) :
  Permutation l l' -> fold_right Z.add 0 l = fold_right Z.add 0 l'.
Proof. induction 1; simpl; lia. Qed.

Definition toy_hash : Py.Hash :=
  {| hash_str := fun s => Z.of_nat (String.length s);
     hash_tuple := fold_right (fun h acc => 31 * acc + h) 7;
     hash_frozenset := fold_right Z.add 0;
     hash_frozenset_perm := sum_list_perm |}.

(** A class, the maps that register it, and the type
    [Optional[Tuple[int, Point]]]. *)
Definition point_class : ClassIR := mkClassIR 0 "geometry.Point" [0%nat].

Definition point_maps : Serialize.DeserMaps unit :=
  Serialize.mkDeserMaps unit {[ "geometry.Point" := point_class ]} ∅.

Definition int_point_tuple : RType :=
  RTuple [int_rprimitive; RInstance point_class] true "T2IO" "tuple_T2IO" "tuple_T2IO".

Definition optional_int_point : RType :=
  RUnion_init (H := toy_hash) [int_point_tuple; none_rprimitive].

End Examples.
Import Examples.

(** A small instance of the collaborators of the daemon, to run the
    commands on: an empty list of files is an invalid source list, a build
    of a single source fails to compile, and the messages of a build are the
    paths of its sources. *)
Module ServerExamples.
Import DmypyServer.

Definition toy_collaborators : Collaborators :=
  {| Options := unit; Snapshot := unit; FSCache := unit; Watcher := list string;
     Manager := list string; Stats := nat; Plugins := unit; Kwargs := unit;
     create_source_list := fun files _ _ =>
       match files with
       | [] => InvalidSourceList "no files"
       | _ => Sources (map (fun f => mkBuildSource (Some f) f) files)
       end;
     build := fun sources _ _ =>
       match sources with
       | [_] => CompileError ["syntax error"] true
       | _ => Built (omap path sources) false []
       end;
     process_options := fun args _ =>
       match args with
       | [_] => SystemExit (VInt 2) "" "usage"
       | _ => Processed [] tt
       end;
     snapshot := fun _ => tt;
     snapshot_eqb := fun _ _ => true;
     plugins_eqb := fun _ _ => true;
     plugins_snapshot := fun _ => tt;
     load_plugins := fun _ _ => tt;
     version := "0.0";
     fg_update := fun m changed removed => (map snd changed, m);
     stale := fun _ => [];
     set_search_paths := fun m _ => m;
     add_stats := fun m _ => m;
     take_stats := fun m => (length m, m);
     new_watcher := fun _ => [];
     add_watched_paths := fun w paths => w ++ paths;
     seed_from_cache := fun _ w => w;
     watcher_find_changed := fun w => (list_to_set w, w);
     watcher_update_changed := fun w remove update => (list_to_set update, w);
     flush := fun c => c;
     pretty_messages := fun _ messages _ _ _ => messages;
     get_meminfo := [];
     suggest := fun _ _ _ f => Suggested f |}.

Definition toy_server : @Server toy_collaborators := mkServer (C:=toy_collaborators) tt tt None None None tt true.

End ServerExamples.

(** ** Notions used to state the further properties

    These definitions are not code of the repository: they name the
    conditions and the quantities that the further properties speak of. *)

Module Notions.
Import RTypes.

(** Every class in the type lists itself in its own MRO (the linearisation
    of a class starts with the class). *)
Fixpoint self_in_mro (t : RType) : bool :=
  match t with
  | RInstance c => existsb (Nat.eqb (class_id c)) (mro c)
  | RTuple types _ _ _ _ => forallb self_in_mro types
  | RUnion items _ => forallb self_in_mro items
  | _ => true
  end.

Definition is_runion (t : RType) : bool :=
  match t with RUnion _ _ => true | _ => false end.

(** A component that [TupleNameVisitor] accepts: not void, and not an
    unboxed primitive whose C type is neither [CPyTagged] nor [char]. *)
Definition tuple_component_ok (t : RType) : bool :=
  match t with
  | RVoid => false
  | RPrimitive _ _ ub _ ct _ => String.eqb ct "CPyTagged" || String.eqb ct "char" || negb ub
  | _ => true
  end.

End Notions.

Module CFGNotions.
Import Analysis.

(** The blocks that leave the function: the last op is neither a [Goto] nor
    a [Branch]. *)
Definition is_exit (b : BasicBlock) : bool :=
  match last (ops b) with
  | Some (Goto _) | Some (Branch _ _ _) | None => false
  | Some _ => true
  end.

(** The blocks a block jumps to, as [get_cfg] lists them. *)
Definition block_targets (b : BasicBlock) : list node :=
  match last (ops b) with
  | Some (Branch _ t f) => [Block t; Block f]
  | Some (Goto l) => [Block l]
  | _ => []
  end.

(** The dictionary without edges over the labels of [blocks], and the set
    of these labels. *)
Definition no_edges (blocks : list BasicBlock) : dict :=
  map (fun b => (Label (label b), [])) blocks.

Definition labels (blocks : list BasicBlock) : gset node :=
  list_to_set (map (fun b => Label (label b)) blocks).

(** A function that jumps: block 0 goes on to the block object 7. *)
Definition jumping : list BasicBlock :=
  [mkBasicBlock 0 [Assign 1 0; Goto 7]; mkBasicBlock 1 [Return 1]].

(** The body of the last loop of [run_analysis] for one op:
    [cur = (cur - opkill) | opgen]; and the loop over the ops of a block. *)
Definition op_transfer (v : AnalysisVisitor) (cur : gset nat) (op : Op) : result (gset nat) :=
  '(opgen, opkill) ← accept op v; Ok ((cur ∖ opkill) ∪ opgen).

Definition transfer (v : AnalysisVisitor) (ops : list Op) (X : gset nat) : result (gset nat) :=
  foldM (op_transfer v) ops X.

(** An op whose [gen] and [kill] sets, when the visitor gives them, have no
    value in common. *)
Definition separated (v : AnalysisVisitor) (op : Op) : Prop :=
  forall opgen opkill, accept op v = Ok (opgen, opkill) -> opgen ## opkill.

End CFGNotions.

Module FoldNotions.
Import ConstantFold.
Section FoldNotions.
Context {float : Type}.

(** [e'] is an operand of [e], at any depth. *)
Inductive operand_of : @Expression float -> @Expression float -> Prop :=
| operand_left op l r : operand_of l (OpExpr op l r)
| operand_right op l r : operand_of r (OpExpr op l r)
| operand_unary op e : operand_of e (UnaryExpr op e)
| operand_trans e1 e2 e3 : operand_of e1 e2 -> operand_of e2 e3 -> operand_of e1 e3.

(** A name without a dot. *)
Definition no_dot (s : string) : Prop := before_last_dot s = None.

End FoldNotions.
End FoldNotions.

Module ServerNotions.
Import DmypyServer ServerExamples.

(** The source has a path that is neither [None] nor empty. *)
Definition has_path (src : BuildSource) : bool :=
  match truthy_path src with Some _ => true | None => false end.

(** A server that has checked two sources. *)
Definition two_sources : list BuildSource :=
  [mkBuildSource (Some "a.py") "a"; mkBuildSource (Some "b.py") "b"].

Definition checked_server : @Server toy_collaborators :=
  mkServer (C := toy_collaborators) tt tt (Some []) (Some two_sources) (Some []) tt true.

End ServerNotions.

(** ** The register symbol table ([mypyc/ops.py]) *)

Module Environment.

(** [Environment]: the register symbol table.  A [Value] object is known by
    its identity (a number); the attribute [name] that [add] stores in the
    object is kept in [value_name].  [indexes] is the [OrderedDict] from
    values to their index, in insertion order; [names] counts the uses of a
    name. *)
Record Environment : Type := mkEnvironment {
  indexes : list (nat * nat);
  names : gmap string nat;
  temp_index : nat;
  value_name : gmap nat string
}.

(** [Environment.__init__] *)
Definition Environment_init : Environment := mkEnvironment [] ∅ 0 ∅.

(** [Environment.regs] *)
Definition regs (env : Environment) : list nat := map fst (indexes env).

(** [self.indexes[reg] = len(self.indexes)]: a key that is present keeps
    its position. *)
Fixpoint set_index (d : list (nat * nat)) (reg i : nat) : list (nat * nat) :=
  match d with
  | [] => [(reg, i)]
  | (r, j) :: d' => if Nat.eqb r reg then (reg, i) :: d' else (r, j) :: set_index d' reg i
  end.

(** The loop of [Environment.add]:
    [while unique_name in self.names:
         unique_name = name + str(self.names[name]); self.names[name] += 1];
    [None] when [fuel] iterations were not enough. *)
Fixpoint unique_name_loop (fuel : nat) (names : gmap string nat) (name unique_name : string)
    : option (result (string * gmap string nat)) :=
  if bool_decide (is_Some (names !! unique_name)) then
    match fuel with
    | O => None
    | S fuel' =>
        match names !! name with
        | None => Some (Raise (KeyError name))
        | Some k => unique_name_loop fuel' (<[name := S k]> names) name (name +:+ pretty k)
        end
    end
  else Some (Ok (unique_name, names)).

(** [Environment.add] *)
Definition add (fuel : nat) (reg : nat) (name : string) (env : Environment)
    : option (result Environment) :=
  match unique_name_loop fuel (names env) name name with
  | None => None
  | Some (Raise e) => Some (Raise e)
  | Some (Ok (unique_name, names')) =>
      Some (Ok (mkEnvironment (set_index (indexes env) reg (length (indexes env)))
                              (<[unique_name := 0%nat]> names')
                              (temp_index env)
                              (<[reg := unique_name]> (value_name env))))
  end.

(** [Environment.add_temp]: [reg] is the identity of the [Register] object
    that the method creates; it is added under the name
    ['r%d' % temp_index]. *)
Definition add_temp (fuel : nat) (reg : nat) (env : Environment) : option (result Environment) :=
  match add fuel reg ("r" +:+ pretty (temp_index env)) env with
  | Some (Ok env') =>
      Some (Ok (mkEnvironment (indexes env') (names env') (S (temp_index env'))
                              (value_name env')))
  | r => r
  end.

(** [Environment.add_op]: nothing is done for an op without a value. *)
Definition add_op (fuel : nat) (reg : nat) (is_void : bool) (env : Environment)
    : option (result Environment) :=
  if is_void then Some (Ok env) else add_temp fuel reg env.

(** The environments that exist: built from the empty one by adding
    objects that are not in it yet. *)
Inductive built : Environment -> Prop :=
| built_init : built Environment_init
| built_add fuel reg name env env' :
    built env -> reg ∉ regs env -> add fuel reg name env = Some (Ok env') -> built env'
| built_add_temp fuel reg env env' :
    built env -> reg ∉ regs env -> add_temp fuel reg env = Some (Ok env') -> built env'
| built_add_op fuel reg is_void env env' :
    built env -> (is_void = false -> reg ∉ regs env) ->
    add_op fuel reg is_void env = Some (Ok env') -> built env'.

(** The names of the registers of the environment, in order. *)
Definition reg_names (env : Environment) : list (option string) :=
  map (fun r => value_name env !! r) (regs env).

(** What [built] keeps true. *)
Definition wf (env : Environment) : Prop :=
  NoDup (regs env)
  /\ map snd (indexes env) = seq 0 (length (indexes env))
  /\ (forall r, r ∈ regs env ->
        exists u, value_name env !! r = Some u /\ is_Some (names env !! u))
  /\ (forall r1 r2 u, r1 ∈ regs env -> r2 ∈ regs env ->
        value_name env !! r1 = Some u -> value_name env !! r2 = Some u -> r1 = r2).

(** The environment after [add(a, 'x')], [add(b, 'x')] and [add(c, 'x0')]
    for three values. *)
Definition three_names : Environment :=
  mkEnvironment [(10, 0); (11, 1); (12, 2)]%nat
                {["x" := 1%nat; "x0" := 1%nat; "x00" := 0%nat]} 0
                {[10%nat := "x"; 11%nat := "x0"; 12%nat := "x00"]}.

End Environment.

(** * Properties *)

(** A list of primitives is a list of constructed types. *)
Ltac primitives_constructed :=
  repeat (apply List.Forall_cons;
          [match goal with
           | |- RTypes.constructed ?t =>
               let t' := eval hnf in t in
               match t' with
               | RPrimitive ?o ?n ?ub ?rc ?ct ?cu =>
                   apply (RTypes.constructed_primitive o n ub rc ct); reflexivity
               end
           end|]);
  apply List.Forall_nil.

(** ** Lists *)

Lemma all2_zip {A B : Type} (f : A -> B -> bool) (l : list A) (l' : list B) :
  all2 f l l' = Nat.eqb (length l') (length l)
                && forallb (fun p => f (fst p) (snd p)) (zip l l').
Proof.
  revert l'. induction l as [|x l IH]; intros [|y l']; simpl; try reflexivity.
  rewrite IH. destruct (Nat.eqb (length l') (length l)); simpl.
  - reflexivity.
  - rewrite andb_false_r. reflexivity.
Qed.

Lemma all2_Forall2 {A B : Type} (f : A -> B -> bool) (l : list A) (l' : list B) :
  all2 f l l' = true <-> Forall2 (fun x y => f x y = true) l l'.
Proof.
  revert l'. induction l as [|x l IH]; intros [|y l']; simpl.
  - split; [constructor | reflexivity].
  - split; [discriminate | inversion 1].
  - split; [discriminate | inversion 1].
  - rewrite andb_true_iff, IH. split.
    + intros [Hxy Hl]. constructor; assumption.
    + inversion 1; subst. split; assumption.
Qed.

(** Structural induction that also gives the hypothesis for the types
    nested in the lists. *)
Lemma RType_rect_nested (P : RType -> Type) (Q : list RType -> Type)
  (Hnil : Q [])
  (Hcons : forall t l, P t -> Q l -> Q (t :: l))
  (Hvoid : P RVoid)
  (Hprim : forall oid name ub rc ct cu, P (RPrimitive oid name ub rc ct cu))
  (Htuple : forall ts rc uid sn ct, Q ts -> P (RTuple ts rc uid sn ct))
  (Hinst : forall c, P (RInstance c))
  (Hunion : forall items s, Q items -> Q s -> P (RUnion items s)) :
  forall t, P t.
Proof.
  fix IH 1. intros t. destruct t as [|oid name ub rc ct cu|ts rc uid sn ct|c|items s].
  - exact Hvoid.
  - apply Hprim.
  - apply Htuple.
    induction ts as [|t ts IHts]; [exact Hnil | apply Hcons; [apply IH | exact IHts]].
  - apply Hinst.
  - apply Hunion.
    + induction items as [|t ts IHts]; [exact Hnil | apply Hcons; [apply IH | exact IHts]].
    + induction s as [|t ts IHts]; [exact Hnil | apply Hcons; [apply IH | exact IHts]].
Defined.

Lemma RType_ind_nested (P : RType -> Prop)
  (Hvoid : P RVoid)
  (Hprim : forall oid name ub rc ct cu, P (RPrimitive oid name ub rc ct cu))
  (Htuple : forall ts rc uid sn ct, Forall P ts -> P (RTuple ts rc uid sn ct))
  (Hinst : forall c, P (RInstance c))
  (Hunion : forall items s, Forall P items -> Forall P s -> P (RUnion items s)) :
  forall t, P t.
Proof.
  apply (RType_rect_nested P (Forall P)); auto.
Qed.


(** ** Reference counted tuples *)

Section RefcountedTuples.
Import RTypes.

Lemma RTuple_init_inv (types : list RType) (t : RType) :
  RTuple_init types = Ok t ->
  exists uid sn ct, t = RTuple types (existsb is_refcounted types) uid sn ct.
Proof.
  unfold RTuple_init. destruct (mapM tuple_name types) as [parts|e]; simpl; [|discriminate].
  intros [= <-]. eauto.
Qed.

Lemma RTuple_init_not_refcounted (types : list RType) (t : RType) :
  RTuple_init types = Ok t ->
  Forall (fun x => is_refcounted x = false) types -> is_refcounted t = false.
Proof.
  intros Hinit Hall.
  destruct (RTuple_init_inv _ _ Hinit) as (uid & sn & ct & ->). simpl.
  apply not_true_is_false. rewrite existsb_exists.
  intros (x & Hx & Hrc). rewrite Forall_forall in Hall.
  apply list_elem_of_In in Hx. rewrite (Hall x Hx) in Hrc. discriminate.
Qed.

Lemma existsb_flat_map {A B : Type} (f : B -> bool) (g : A -> list B) (l : list A) :
  existsb f (flat_map g l) = existsb (fun x => existsb f (g x)) l.
Proof.
  induction l as [|x l IH]; simpl; [reflexivity|].
  rewrite existsb_app, IH. reflexivity.
Qed.

Lemma built_is_refcounted_leaves (t : RType) :
  built t -> is_refcounted t = existsb is_refcounted (leaves t).
Proof.
  revert t. fix IH 2. intros t [t' Hleaf | types t' Hall Hinit].
  - destruct t'; simpl in *; try discriminate; rewrite ?orb_false_r; reflexivity.
  - destruct (RTuple_init_inv _ _ Hinit) as (uid & sn & ct & ->). simpl.
    rewrite existsb_flat_map. clear Hinit.
    induction Hall as [|x l Hx Hl IHl]; simpl; [reflexivity|].
    rewrite (IH x Hx), IHl. reflexivity.
Qed.

(** C6: a tuple type built by [RTuple.__init__] is reference counted iff at
    least one of its element types is, a tuple of elements that are not
    reference counted is not, and for tuples nested in tuples the flag is
    decided by the element types at the leaves. *)
Theorem RTuple_is_refcounted_iff_any (types : list RType) (t : RType) :
  RTuple_init types = Ok t ->
  (is_refcounted t = true <-> exists x, x ∈ types /\ is_refcounted x = true)
  /\ (Forall (fun x => is_refcounted x = false) types -> is_refcounted t = false)
  /\ (Forall built types ->
      (is_refcounted t = true <-> exists x, x ∈ leaves t /\ is_refcounted x = true)).
Proof.
  intros Hinit. split; [|split].
  - destruct (RTuple_init_inv _ _ Hinit) as (uid & sn & ct & ->). simpl.
    rewrite existsb_exists. split; intros (x & Hx & Hrc); exists x; split; auto.
    + apply list_elem_of_In; exact Hx.
    + apply list_elem_of_In; exact Hx.
  - apply RTuple_init_not_refcounted. exact Hinit.
  - intros Hall. rewrite (built_is_refcounted_leaves t (built_tuple types t Hall Hinit)).
    rewrite existsb_exists. split; intros (x & Hx & Hrc); exists x; split; auto.
    + apply list_elem_of_In; exact Hx.
    + apply list_elem_of_In; exact Hx.
Qed.

End RefcountedTuples.

Section RefcountedTuplesExamples.
Import RTypes.

Example RTuple_init_bool_short_int :
  RTuple_init [bool_rprimitive; short_int_rprimitive] = Ok bool_short_int_tuple
  /\ is_refcounted bool_short_int_tuple = false.
Proof. split; reflexivity. Qed.

Example RTuple_init_nested :
  RTuple_init [bool_short_int_tuple; none_rprimitive] = Ok nested_unboxed_tuple
  /\ is_refcounted nested_unboxed_tuple = false
  /\ leaves nested_unboxed_tuple = [bool_rprimitive; short_int_rprimitive; none_rprimitive].
Proof. repeat split; reflexivity. Qed.

Example RTuple_init_with_int :
  exists t, RTuple_init [bool_short_int_tuple; int_rprimitive] = Ok t
            /\ is_refcounted t = true.
Proof. eexists. split; reflexivity. Qed.

Lemma RTuple_is_refcounted_iff_any_witness :
  RTuple_init [bool_short_int_tuple; none_rprimitive] = Ok nested_unboxed_tuple
  /\ ((is_refcounted nested_unboxed_tuple = true
       <-> exists x, x ∈ [bool_short_int_tuple; none_rprimitive] /\ is_refcounted x = true)
      /\ (Forall (fun x => is_refcounted x = false) [bool_short_int_tuple; none_rprimitive]
          -> is_refcounted nested_unboxed_tuple = false)
      /\ (Forall built [bool_short_int_tuple; none_rprimitive] ->
          (is_refcounted nested_unboxed_tuple = true
           <-> exists x, x ∈ leaves nested_unboxed_tuple /\ is_refcounted x = true))).
Proof.
  split; [reflexivity|].
  apply (RTuple_is_refcounted_iff_any [bool_short_int_tuple; none_rprimitive]).
  reflexivity.
Defined.

End RefcountedTuplesExamples.

(** ** Reference count ops *)

Section RefCountOps.
Import RTypes Ops.

Lemma IncRef_init_spec (src : Value) (line : Z) :
  IncRef_init src line =
  if is_refcounted (type src) then Ok (IncRef src line) else Raise (AssertionError "").
Proof. unfold IncRef_init. destruct (is_refcounted (type src)); reflexivity. Qed.

Lemma DecRef_init_spec (src : Value) (is_xdec : bool) (line : Z) :
  DecRef_init src is_xdec line =
  if is_refcounted (type src) then Ok (DecRef src is_xdec line)
  else Raise (AssertionError "").
Proof. unfold DecRef_init. destruct (is_refcounted (type src)); reflexivity. Qed.

Lemma constructed_ref_ops_refcounted (v : Value) :
  constructed v -> ref_ops_refcounted v = true.
Proof.
  induction 1 as [| | | | |src line v Hsrc IH Hinit|src is_xdec line v Hsrc IH Hinit];
    simpl; auto.
  - rewrite IncRef_init_spec in Hinit.
    destruct (is_refcounted (type src)) eqn:Hrc; [|discriminate].
    injection Hinit as <-. simpl. rewrite Hrc, IH. reflexivity.
  - rewrite DecRef_init_spec in Hinit.
    destruct (is_refcounted (type src)) eqn:Hrc; [|discriminate].
    injection Hinit as <-. simpl. rewrite Hrc, IH. reflexivity.
Qed.

(** C10: [IncRef] and [DecRef] can only be constructed over a value of a
    reference counted type: the constructor succeeds exactly then, so every
    such op in a value built by the constructors has a reference counted
    source; over a value that is not reference counted ([bool], short int,
    [None], a tuple of such elements) the assertion fails; and both ops have
    error kind [ERR_NEVER], so [can_raise] is false. *)
Theorem ref_count_ops_need_refcounted (src : Value) (is_xdec : bool) (line : Z) :
  (forall v, IncRef_init src line = Ok v \/ DecRef_init src is_xdec line = Ok v ->
     is_refcounted (type src) = true
     /\ sources v = [src]
     /\ error_kind v = Some ERR_NEVER
     /\ can_raise v = false)
  /\ (is_refcounted (type src) = true ->
      IncRef_init src line = Ok (IncRef src line)
      /\ DecRef_init src is_xdec line = Ok (DecRef src is_xdec line))
  /\ (is_refcounted (type src) = false ->
      IncRef_init src line = Raise (AssertionError "")
      /\ DecRef_init src is_xdec line = Raise (AssertionError ""))
  /\ (type src = bool_rprimitive \/ type src = short_int_rprimitive
      \/ type src = none_rprimitive
      \/ (exists types, RTuple_init types = Ok (type src)
                        /\ Forall (fun x => is_refcounted x = false) types) ->
      IncRef_init src line = Raise (AssertionError "")
      /\ DecRef_init src is_xdec line = Raise (AssertionError ""))
  /\ (forall v, constructed v -> ref_ops_refcounted v = true).
Proof.
  rewrite IncRef_init_spec, DecRef_init_spec.
  split; [|split; [|split; [|split]]].
  - intros v Hv. destruct (is_refcounted (type src)); [|destruct Hv; discriminate].
    destruct Hv as [[= <-]|[= <-]]; repeat split; reflexivity.
  - intros ->. split; reflexivity.
  - intros ->. split; reflexivity.
  - intros H.
    assert (Hrc : is_refcounted (type src) = false).
    { destruct H as [->| [->| [->| (types & Hinit & Hall)]]]; try reflexivity.
      exact (RTuple_init_not_refcounted types (type src) Hinit Hall). }
    rewrite Hrc. split; reflexivity.
  - apply constructed_ref_ops_refcounted.
Qed.

Example IncRef_over_bool_fails :
  IncRef_init (Register bool_rprimitive (-1) false "b") (-1) = Raise (AssertionError "")
  /\ DecRef_init (LoadInt 1 (-1)) false (-1) = Raise (AssertionError "")
  /\ IncRef_init (Register bool_short_int_tuple (-1) false "t") (-1)
     = Raise (AssertionError "")
  /\ IncRef_init (Register int_rprimitive (-1) false "i") (-1)
     = Ok (IncRef (Register int_rprimitive (-1) false "i") (-1)).
Proof. repeat split; reflexivity. Qed.

End RefCountOps.

(** ** Constant folding *)

Section ConstantFolding.
Import ConstantFold.


End ConstantFolding.

(** ** The subtype relation *)

Section SubtypeFacts.
Import RTypes Subtype.

(** [is_subtype] satisfies the equation the Python function reads as. *)
Lemma is_subtype_unfold (left right : RType) :
  is_subtype left right = is_subtype_body is_subtype left right.
Proof.
  unfold is_subtype_body.
  destruct left as [|lo ln lub lrc lct lcu|lts lrc luid lsn lct|lc|litems ls];
    destruct right as [|ro rn rub rrc rct rcu|rts rrc ruid rsn rct|rc|ritems rs];
    simpl; try reflexivity;
    try (destruct (is_object_rprimitive _); reflexivity).
  - unfold visit_rtuple. destruct (is_object_rprimitive _); [reflexivity|].
    destruct (is_tuple_rprimitive _); reflexivity.
  - unfold visit_rtuple. simpl. rewrite all2_zip.
    destruct (Nat.eqb (length rts) (length lts)); reflexivity.
Qed.

Lemma RPrimitive_is_subtype (lo : nat) (ln : string) (lub lrc : bool) (lct lcu : string)
    (right : RType) :
  let left := RPrimitive lo ln lub lrc lct lcu in
  is_rprimitive right = true ->
  is_subtype left right
  = is_object_rprimitive right
    || (is_bool_rprimitive left && is_int_rprimitive right)
    || (is_short_int_rprimitive left && is_int_rprimitive right)
    || same_object left right.
Proof.
  intros left Hprim. rewrite is_subtype_unfold. unfold is_subtype_body.
  destruct right as [|ro rn rub rrc rct rcu| | |]; try discriminate.
  set (right := RPrimitive ro rn rub rrc rct rcu).
  change (accept is_subtype right left) with (visit_rprimitive right left).
  unfold visit_rprimitive.
  destruct (is_object_rprimitive right); [reflexivity|]. rewrite orb_false_l.
  destruct (is_bool_rprimitive left && is_int_rprimitive right); [reflexivity|].
  destruct (is_short_int_rprimitive left && is_int_rprimitive right); reflexivity.
Qed.

(** C1: a tuple is a subtype of a tuple iff they have the same number of
    elements and the elements are subtypes pairwise; tuples of different
    arity are never subtypes; and every tuple is a subtype of the built-in
    tuple primitive.  In particular [RTuple([int, bool])] is a subtype of
    [RTuple([int, int])] and of the tuple primitive, and not of
    [RTuple([str, int])]. *)
Theorem rtuple_is_subtype_elementwise
    (ls rs : list RType) (lrc rrc : bool) (luid lsn lct ruid rsn rct : string) :
  let left := RTuple ls lrc luid lsn lct in
  let right := RTuple rs rrc ruid rsn rct in
  (is_subtype left right = true
   <-> Forall2 (fun t1 t2 => is_subtype t1 t2 = true) ls rs)
  /\ (length ls = length rs ->
      is_subtype left right = forallb (fun p => is_subtype (fst p) (snd p)) (zip ls rs))
  /\ (length ls <> length rs -> is_subtype left right = false)
  /\ is_subtype left tuple_rprimitive = true
  /\ is_subtype int_bool_tuple int_int_tuple = true
  /\ is_subtype int_bool_tuple tuple_rprimitive = true
  /\ is_subtype int_bool_tuple str_int_tuple = false.
Proof.
  intros left right.
  assert (Heq : is_subtype left right
                = Nat.eqb (length rs) (length ls) && all2 is_subtype ls rs)
    by reflexivity.
  split; [|split; [|split; [|repeat split]]].
  - rewrite Heq, andb_true_iff, all2_Forall2. split; [tauto|].
    intros H. split; [|exact H]. apply Nat.eqb_eq. symmetry.
    exact (Forall2_length _ _ _ H).
  - intros Hlen. rewrite Heq, all2_zip, Hlen, Nat.eqb_refl. reflexivity.
  - intros Hlen. rewrite Heq. apply andb_false_iff. left. apply Nat.eqb_neq. congruence.
Qed.

End SubtypeFacts.

Section SubtypeExamples.
Import RTypes Subtype.

Example tuple_examples_built :
  RTuple_init [int_rprimitive; bool_rprimitive] = Ok int_bool_tuple
  /\ RTuple_init [int_rprimitive; int_rprimitive] = Ok int_int_tuple
  /\ RTuple_init [str_rprimitive; int_rprimitive] = Ok str_int_tuple.
Proof. repeat split; reflexivity. Qed.

End SubtypeExamples.

Section PrimitiveSubtype.
Import RTypes Subtype SemanalClassprop.

(** C2, as the code has it: for two primitives, [is_subtype(left, right)]
    holds iff [right] is the object primitive, or [left] is [bool] and
    [right] is [int], or [left] is the short int and [right] is [int], or
    the two are the same object.  The relation never reads the promotion
    table: [int] is not a subtype of [float]. *)
Theorem rprimitive_is_subtype_cases
    (lo : nat) (ln : string) (lub lrc : bool) (lct lcu : string)
    (ro : nat) (rn : string) (rub rrc : bool) (rct rcu : string) :
  let left := RPrimitive lo ln lub lrc lct lcu in
  let right := RPrimitive ro rn rub rrc rct rcu in
  is_subtype left right
  = is_object_rprimitive right
    || (is_bool_rprimitive left && is_int_rprimitive right)
    || (is_short_int_rprimitive left && is_int_rprimitive right)
    || same_object left right
  /\ visit_rprimitive right left
     = (is_bool_rprimitive left && is_int_rprimitive right)
       || (is_short_int_rprimitive left && is_int_rprimitive right)
       || same_object left right
  /\ is_subtype bool_rprimitive int_rprimitive = true
  /\ is_subtype short_int_rprimitive int_rprimitive = true
  /\ is_subtype int_rprimitive float_rprimitive = false
  /\ is_subtype float_rprimitive int_rprimitive = false.
Proof.
  intros left right. split; [|repeat split].
  - apply RPrimitive_is_subtype. reflexivity.
  - unfold visit_rprimitive.
    destruct (is_bool_rprimitive left && is_int_rprimitive right); [reflexivity|].
    destruct (is_short_int_rprimitive left && is_int_rprimitive right); reflexivity.
Qed.

(** C2 as the specification words it fails: [int] is a subtype of the object primitive
    although the two are different primitives and no promotion is involved;
    and the table promotes ["builtins.int"] to ["float"], yet [int] is not a
    subtype of [float]. *)
Lemma rprimitive_is_subtype_counterexample :
  is_subtype int_rprimitive object_rprimitive = true
  /\ same_object int_rprimitive object_rprimitive = false
  /\ is_bool_rprimitive int_rprimitive = false
  /\ is_short_int_rprimitive int_rprimitive = false
  /\ List.find (fun p => String.eqb (fst p) "builtins.int") TYPE_PROMOTIONS
     = Some ("builtins.int", "float")
  /\ is_subtype int_rprimitive float_rprimitive = false.
Proof. repeat split; reflexivity. Qed.

End PrimitiveSubtype.

(** ** Liveness *)

Ltac unbind_result := unfold mbind, result_bind, Py.bind in *.

Section Liveness.
Import Analysis.

Lemma foldM_Exists_raise {A S : Type} (f : S -> A -> result S) (l : list A) (s : S) :
  Exists (fun x => forall s', exists e, f s' x = Raise e) l ->
  exists e, foldM f l s = Raise e.
Proof.
  intros Hex. revert s. induction Hex as [x l Hx|x l _ IH]; intros s; simpl; unbind_result.
  - destruct (Hx s) as [e ->]. eauto.
  - destruct (f s x) as [s'|e']; [apply IH|eauto].
Qed.

Lemma accept_liveness (op : Op) :
  accept op LivenessVisitor
  = match op with
    | Goto _ | Unreachable => Ok (∅, ∅)
    | Return r => Ok ({[r]}, ∅)
    | Assign d s => Ok ({[s]} ∪ ∅, {[d]})
    | Branch _ _ _ => Raise (AttributeError "right")
    | Call _ | PrimitiveOp _ | LoadInt | Box _ | Unbox _ | Cast _ =>
        Raise (AttributeError "dest")
    | _ => Raise (NotImplementedError "")
    end.
Proof. destruct op; reflexivity. Qed.

Lemma liveness_unvisited (op : Op) :
  liveness_visits op = false -> exists e, accept op LivenessVisitor = Raise e.
Proof. rewrite accept_liveness. destruct op; try discriminate; eauto. Qed.

Lemma block_gen_kill_unvisited (ops : list Op) :
  Exists (fun op => liveness_visits op = false) ops ->
  exists e, block_gen_kill LivenessVisitor ops = Raise e.
Proof.
  intros H. apply foldM_Exists_raise. eapply List.Exists_impl; [|exact H].
  intros op Hop [g k]. cbv beta iota. unbind_result.
  destruct (liveness_unvisited op Hop) as [e ->]. eauto.
Qed.

(** C3, at the function [a = 1; b = a + 1; return b]: the liveness analysis raises
    [AttributeError] instead of giving the sets.  [LivenessVisitor] reads
    [op.dest] of what it takes for a register op, and of the classes of ops
    only [Assign] has a [dest]; for a [Branch] it reads [op.right], which
    no [Branch] has.  So the analysis of a function fails as soon as one of
    its ops is not a [Goto], a [Return], an [Unreachable] or an [Assign]. *)
Theorem liveness_straight_line_raises :
  (forall fuel cfg,
      analyze_live_regs fuel [straight_line] cfg = Some (Raise (AttributeError "dest")))
  /\ (exists cfg, get_cfg [straight_line] = Ok cfg)
  /\ (forall l t f, accept (Branch l t f) LivenessVisitor = Raise (AttributeError "right"))
  /\ (forall fuel blocks cfg,
        Exists (fun b => Exists (fun op => liveness_visits op = false) (ops b)) blocks ->
        exists e, analyze_live_regs fuel blocks cfg = Some (Raise e)).
Proof.
  split; [|split; [|split]].
  - intros fuel cfg. reflexivity.
  - eexists. unfold get_cfg. cbn. unfold CFG_init.
    rewrite bool_decide_eq_false_2 by set_solver. reflexivity.
  - reflexivity.
  - intros fuel blocks cfg H. unfold analyze_live_regs, run_analysis. cbn [Z.eqb MAYBE_ANALYSIS MUST_ANALYSIS].
    destruct (foldM_Exists_raise (block_sets LivenessVisitor true) blocks (∅, ∅)) as [e ->];
      [|eauto].
    eapply List.Exists_impl; [|exact H].
    intros b Hb [bg bk]. unfold block_sets. unbind_result.
    destruct (block_gen_kill_unvisited (rev (ops b))) as [e ->]; [|eauto].
    apply List.Exists_exists in Hb. destruct Hb as (op & Hin & Hop).
    apply List.Exists_exists. exists op. split; [|exact Hop].
    apply List.in_rev. rewrite rev_involutive. exact Hin.
Qed.

End Liveness.

(** ** The commands of the daemon *)

Section ServerFacts.
Import DmypyServer.
Context `{C : Collaborators}.

















End ServerFacts.

Section ServerFactsExamples.
Import DmypyServer ServerExamples.



(** An initialized server: [inspect] is unrecognized there too. *)
Example inspect_initialized :
  exists s : Server (C := toy_collaborators),
    fine_grained_manager s <> None
    /\ run_command "inspect" Other s
       = Ok ([("error", VStr "Unrecognized command 'inspect'")], s).
Proof.
  exists (set_manager (C := toy_collaborators) (Some ([] : list string)) toy_server).
  split; [discriminate|reflexivity].
Qed.

Example toy_check_statuses :
  (exists s', cmd_check (C := toy_collaborators) [] false 80 toy_server
              = Ok ([("out", VStr ""); ("err", VStr "no files"); ("status", VInt 2)], s')
              /\ s' = toy_server)
  /\ (exists out s', cmd_check (C := toy_collaborators) ["a.py"] false 80 toy_server
              = Ok ([("out", VStr out); ("err", VStr ""); ("status", VInt 2)], s')
              /\ fine_grained_manager s' = None /\ previous_sources s' = None)
  /\ (exists out s', cmd_check (C := toy_collaborators) ["a.py"; "b.py"] false 80 toy_server
              = Ok ([("out", VStr out); ("err", VStr ""); ("status", VInt 1);
                     ("stats", VStats 0%nat)], s')
              /\ fine_grained_manager s' = Some [])
  /\ (exists s', cmd_run (C := toy_collaborators) "0.0" [] false 80 toy_server
              = Ok ([("out", VStr ""); ("err", VStr "usage"); ("status", VInt 2)], s')
              /\ s' = toy_server).
Proof. repeat split; repeat eexists; reflexivity. Qed.

End ServerFactsExamples.

(** ** Sets as lists of distinct keys *)

Section KeyLists.
Context {A : Type} (k : A -> A -> bool) (D : A -> Prop).
Hypothesis k_refl : forall x, D x -> k x x = true.
Hypothesis k_sym : forall x y, D x -> D y -> k x y = true -> k y x = true.
Hypothesis k_trans :
  forall x y z, D x -> D y -> D z -> k x y = true -> k y z = true -> k x z = true.

Local Abbreviation distinct := (distinct k).

Lemma set_contains_true (s : list A) (x : A) :
  set_contains k s x = true <-> exists e, e ∈ s /\ k e x = true.
Proof.
  unfold set_contains. rewrite existsb_exists.
  split; intros (e & He & Hk); exists e; split; auto; apply list_elem_of_In; exact He.
Qed.

Lemma set_contains_false (s : list A) (x : A) :
  set_contains k s x = false <-> forall e, e ∈ s -> k e x = false.
Proof.
  split.
  - intros Hc e He. destruct (k e x) eqn:Hk; [|reflexivity].
    assert (set_contains k s x = true) by (apply set_contains_true; eauto). congruence.
  - intros Hall. destruct (set_contains k s x) eqn:Hc; [|reflexivity].
    apply set_contains_true in Hc as (e & He & Hk). rewrite (Hall e He) in Hk. discriminate.
Qed.

Lemma distinct_snoc (l : list A) (x : A) :
  distinct l -> set_contains k l x = false -> distinct (l ++ [x]).
Proof.
  rewrite set_contains_false. induction l as [|y l IH]; simpl.
  - intros _ _. split; [|exact I]. intros x' Hx'. inversion Hx'.
  - intros [Hy Hl] Hx. split.
    + intros x' Hx'. apply elem_of_app in Hx' as [Hx'|Hx'].
      * apply Hy. exact Hx'.
      * apply list_elem_of_singleton in Hx'. subst x'. apply Hx. left.
    + apply IH; [exact Hl|]. intros e He. apply Hx. right. exact He.
Qed.

Lemma fold_set_add_distinct (items acc : list A) :
  distinct acc -> distinct (fold_left (set_add k) items acc).
Proof.
  revert acc. induction items as [|x items IH]; simpl; intros acc Hacc; [exact Hacc|].
  apply IH. unfold set_add. destruct (set_contains k acc x) eqn:Hc; [exact Hacc|].
  apply distinct_snoc; assumption.
Qed.

Lemma frozenset_distinct (items : list A) : distinct (frozenset k items).
Proof. apply fold_set_add_distinct. exact I. Qed.

Lemma fold_set_add_subset (items acc : list A) (x : A) :
  x ∈ fold_left (set_add k) items acc -> x ∈ acc \/ x ∈ items.
Proof.
  revert acc. induction items as [|y items IH]; simpl; intros acc Hx; [left; exact Hx|].
  apply IH in Hx as [Hx|Hx]; [|right; right; exact Hx].
  unfold set_add in Hx. destruct (set_contains k acc y); [left; exact Hx|].
  apply elem_of_app in Hx as [Hx|Hx]; [left; exact Hx|].
  apply list_elem_of_singleton in Hx. subst. right. left.
Qed.

Lemma frozenset_subset (items : list A) (x : A) :
  x ∈ frozenset k items -> x ∈ items.
Proof.
  intros Hx. apply fold_set_add_subset in Hx as [Hx|Hx]; [inversion Hx|exact Hx].
Qed.

Lemma fold_set_add_keeps (items acc : list A) (x : A) :
  x ∈ acc -> x ∈ fold_left (set_add k) items acc.
Proof.
  revert acc. induction items as [|y items IH]; simpl; intros acc Hx; [exact Hx|].
  apply IH. unfold set_add. destruct (set_contains k acc y); [exact Hx|].
  apply elem_of_app. left. exact Hx.
Qed.

Lemma fold_set_add_covers (items acc : list A) (x : A) :
  D x -> x ∈ items -> set_contains k (fold_left (set_add k) items acc) x = true.
Proof.
  intros HD. revert acc. induction items as [|y items IH]; simpl; intros acc Hx;
    [inversion Hx|].
  apply elem_of_cons in Hx as [->|Hx]; [|apply IH; exact Hx].
  apply set_contains_true. unfold set_add.
  destruct (set_contains k acc y) eqn:Hc.
  - apply set_contains_true in Hc as (e & He & Hk). exists e. split; [|exact Hk].
    apply fold_set_add_keeps. exact He.
  - exists y. split; [|apply k_refl; exact HD].
    apply fold_set_add_keeps. apply elem_of_app. right. left.
Qed.

Lemma frozenset_covers (items : list A) (x : A) :
  D x -> x ∈ items -> set_contains k (frozenset k items) x = true.
Proof. apply fold_set_add_covers. Qed.

(** Distinct keys that are all found in [l2] are matched with different
    entries of [l2]. *)
Lemma distinct_matching (l1 l2 : list A) :
  distinct l1 -> Forall D l1 -> Forall D l2 ->
  (forall x, x ∈ l1 -> set_contains k l2 x = true) ->
  exists l2' rest, l2 ≡ₚ l2' ++ rest /\ Forall2 (fun x y => k y x = true) l1 l2'.
Proof.
  revert l2. induction l1 as [|x l1 IH]; intros l2 Hd HD1 HD2 Hin.
  - exists [], l2. split; [reflexivity|constructor].
  - destruct Hd as [Hx Hd]. apply Forall_cons in HD1 as [HDx HD1].
    destruct (proj1 (set_contains_true l2 x) (Hin x (list_elem_of_here _ _)))
      as (y & Hy & Hyx).
    apply elem_of_Permutation in Hy as (l2r & Hperm).
    assert (HD2' : Forall D (y :: l2r)) by (rewrite <- Hperm; exact HD2).
    apply Forall_cons in HD2' as [HDy HD2r].
    destruct (IH l2r Hd HD1 HD2r) as (l2' & rest & Hperm' & Hall).
    { intros x' Hx'. 
      destruct (proj1 (set_contains_true l2 x') (Hin x' (list_elem_of_further _ _ _ Hx')))
        as (y' & Hy' & Hyx').
      rewrite Hperm in Hy'. apply elem_of_cons in Hy' as [->|Hy'].
      - exfalso. 
        assert (HDx' : D x') by (rewrite Forall_forall in HD1; apply HD1; exact Hx').
        assert (k x x' = true).
        { apply (k_trans x y x'); auto. }
        rewrite (Hx x' Hx') in H. discriminate.
      - apply set_contains_true. eauto. }
    exists (y :: l2'), rest. split.
    + rewrite Hperm. simpl. rewrite Hperm'. reflexivity.
    + constructor; assumption.
Qed.

Lemma distinct_incl_length (l1 l2 : list A) :
  distinct l1 -> Forall D l1 -> Forall D l2 ->
  (forall x, x ∈ l1 -> set_contains k l2 x = true) ->
  (length l1 <= length l2)%nat.
Proof.
  intros Hd HD1 HD2 Hin.
  destruct (distinct_matching l1 l2 Hd HD1 HD2 Hin) as (l2' & rest & Hperm & Hall).
  rewrite Hperm, length_app, <- (Forall2_length _ _ _ Hall). lia.
Qed.

Lemma set_eq_matching (l1 l2 : list A) :
  distinct l1 -> Forall D l1 -> Forall D l2 ->
  set_eq k l1 l2 = true ->
  exists l2', l2 ≡ₚ l2' /\ Forall2 (fun x y => k y x = true) l1 l2'.
Proof.
  intros Hd HD1 HD2 Heq. unfold set_eq in Heq.
  apply andb_true_iff in Heq as [Hlen Hall]. apply Nat.eqb_eq in Hlen.
  rewrite forallb_forall in Hall.
  destruct (distinct_matching l1 l2 Hd HD1 HD2) as (l2' & rest & Hperm & HF).
  { intros x Hx. apply Hall. apply list_elem_of_In. exact Hx. }
  exists l2'. split; [|exact HF].
  assert (Hrest : rest = []).
  { apply nil_length_inv. apply Forall2_length in HF.
    apply Permutation_length in Hperm. rewrite length_app in Hperm. lia. }
  subst rest. rewrite app_nil_r in Hperm. exact Hperm.
Qed.

Lemma set_eq_true (l1 l2 : list A) :
  set_eq k l1 l2 = true
  <-> length l1 = length l2 /\ forall x, x ∈ l1 -> set_contains k l2 x = true.
Proof.
  unfold set_eq. rewrite andb_true_iff, Nat.eqb_eq, forallb_forall.
  split; intros [Hlen Hall]; split; auto; intros x Hx; apply Hall;
    apply list_elem_of_In; exact Hx.
Qed.

Lemma set_eq_refl (l : list A) : Forall D l -> set_eq k l l = true.
Proof.
  intros HD. apply set_eq_true. split; [reflexivity|]. intros x Hx.
  apply set_contains_true. exists x. split; [exact Hx|]. apply k_refl.
  rewrite Forall_forall in HD. apply HD. exact Hx.
Qed.

Lemma set_eq_sym (l1 l2 : list A) :
  distinct l1 -> Forall D l1 -> Forall D l2 ->
  set_eq k l1 l2 = true -> set_eq k l2 l1 = true.
Proof.
  intros Hd HD1 HD2 Heq.
  destruct (set_eq_matching l1 l2 Hd HD1 HD2 Heq) as (l2' & Hperm & HF).
  apply set_eq_true in Heq as [Hlen _]. apply set_eq_true. split; [congruence|].
  intros y Hy. rewrite Hperm in Hy.
  apply list_elem_of_lookup in Hy as (i & Hi).
  destruct (Forall2_lookup_r _ _ _ _ _ HF Hi) as (x & Hx & Hyx).
  apply set_contains_true. exists x. split.
  - apply list_elem_of_lookup. eauto.
  - apply k_sym; [| |exact Hyx].
    + rewrite Forall_forall in HD2. apply HD2. rewrite Hperm.
      apply list_elem_of_lookup. eauto.
    + rewrite Forall_forall in HD1. apply HD1. apply list_elem_of_lookup. eauto.
Qed.

Lemma set_eq_trans (l1 l2 l3 : list A) :
  Forall D l1 -> Forall D l2 -> Forall D l3 ->
  set_eq k l1 l2 = true -> set_eq k l2 l3 = true -> set_eq k l1 l3 = true.
Proof.
  rewrite !set_eq_true, !Forall_forall. intros HD1 HD2 HD3 [Hl12 H12] [Hl23 H23].
  split; [congruence|]. intros x Hx.
  destruct (proj1 (set_contains_true _ _) (H12 x Hx)) as (y & Hy & Hyx).
  destruct (proj1 (set_contains_true _ _) (H23 y Hy)) as (z & Hz & Hzy).
  apply set_contains_true. exists z. split; [exact Hz|].
  apply (k_trans z y x); auto.
Qed.

End KeyLists.

(** ** Equality and hashing of runtime types *)

Section TypeEquality.
Import RTypes.
Context `{!Py.Hash}.

Lemma max_list_elem_of (l : list nat) (n : nat) : n ∈ l -> (n <= max_list l)%nat.
Proof.
  induction l as [|m l IH]; simpl; intros Hn; [inversion Hn|].
  apply elem_of_cons in Hn as [->|Hn]; [lia|]. specialize (IH Hn). lia.
Qed.

Lemma depth_tuple_elem (x : RType) ts rc uid sn ct :
  x ∈ ts -> (depth x < depth (RTuple ts rc uid sn ct))%nat.
Proof.
  intros Hx. simpl. apply Nat.lt_succ_r. apply max_list_elem_of.
  apply list_elem_of_fmap. eauto.
Qed.

Lemma depth_union_item (x : RType) items s :
  x ∈ items -> (depth x < depth (RUnion items s))%nat.
Proof.
  intros Hx. simpl. apply Nat.lt_succ_r.
  etransitivity; [|apply Nat.le_max_l]. apply max_list_elem_of.
  apply list_elem_of_fmap. eauto.
Qed.

Lemma depth_union_entry (x : RType) items s :
  x ∈ s -> (depth x < depth (RUnion items s))%nat.
Proof.
  intros Hx. simpl. apply Nat.lt_succ_r.
  etransitivity; [|apply Nat.le_max_r]. apply max_list_elem_of.
  apply list_elem_of_fmap. eauto.
Qed.

Lemma all2_ext_in {A B : Type} (f g : A -> B -> bool) (l : list A) (l' : list B) :
  (forall x y, x ∈ l -> y ∈ l' -> f x y = g x y) -> all2 f l l' = all2 g l l'.
Proof.
  revert l'. induction l as [|x l IH]; intros [|y l'] Hfg; simpl; try reflexivity.
  rewrite Hfg by left. rewrite IH; [reflexivity|].
  intros x' y' Hx' Hy'. apply Hfg; right; assumption.
Qed.

Lemma all2_flip {A B : Type} (f : A -> B -> bool) (l : list A) (l' : list B) :
  all2 f l l' = all2 (fun y x => f x y) l' l.
Proof.
  revert l'. induction l as [|x l IH]; intros [|y l']; simpl; try reflexivity.
  rewrite IH. reflexivity.
Qed.

Lemma forallb_ext_in {A : Type} (f g : A -> bool) (l : list A) :
  (forall x, x ∈ l -> f x = g x) -> forallb f l = forallb g l.
Proof.
  induction l as [|x l IH]; simpl; intros Hfg; [reflexivity|].
  rewrite Hfg by left. rewrite IH; [reflexivity|]. intros; apply Hfg; right; assumption.
Qed.

Lemma existsb_ext_in {A : Type} (f g : A -> bool) (l : list A) :
  (forall x, x ∈ l -> f x = g x) -> existsb f l = existsb g l.
Proof.
  induction l as [|x l IH]; simpl; intros Hfg; [reflexivity|].
  rewrite Hfg by left. rewrite IH; [reflexivity|]. intros; apply Hfg; right; assumption.
Qed.

(** [py_eq_rev] is [py_eq] with its arguments exchanged. *)
Lemma py_eq_rev_bounded (n : nat) (a b : RType) :
  (depth a <= n)%nat -> (depth b <= n)%nat -> py_eq_rev a b = py_eq b a.
Proof.
  revert a b. induction n as [|n IH]; intros a b Ha Hb.
  - destruct a, b; simpl in Ha, Hb; try lia; reflexivity.
  - destruct a as [|ao an aub arc act acu|ats arc auid asn act|ac|aitems sa],
             b as [|bo bn bub brc bct bcu|bts brc buid bsn bct|bc|bitems sb];
      try reflexivity.
    + cbn [py_eq_rev py_eq]. rewrite (all2_flip py_eq bts ats).
      apply all2_ext_in. intros x y Hx Hy. apply IH.
      * apply depth_tuple_elem with (rc := arc) (uid := auid) (sn := asn) (ct := act) in Hx.
        lia.
      * apply depth_tuple_elem with (rc := brc) (uid := buid) (sn := bsn) (ct := bct) in Hy.
        lia.
    + cbn [py_eq_rev py_eq]. f_equal.
      apply forallb_ext_in. intros y Hy. apply existsb_ext_in. intros e He.
      f_equal. symmetry. apply IH.
      * apply depth_union_entry with (items := bitems) in Hy. lia.
      * apply depth_union_entry with (items := aitems) in He. lia.
Qed.

Lemma py_eq_rev_spec (a b : RType) : py_eq_rev a b = py_eq b a.
Proof.
  apply (py_eq_rev_bounded (Nat.max (depth a) (depth b))); lia.
Qed.

(** [py_eq] the way [RType.__eq__], [RTuple.__eq__] and [RUnion.__eq__]
    read. *)
Lemma py_eq_unfold (a b : RType) :
  py_eq a b =
  match a with
  | RTuple ts _ _ _ _ =>
      match b with
      | RTuple ts' _ _ _ _ => all2 py_eq ts ts'
      | _ => false
      end
  | RUnion _ s =>
      match b with
      | RUnion _ s' => frozenset_eq py_eq s s'
      | _ => false
      end
  | _ => String.eqb (name b) (name a)
  end.
Proof.
  destruct a; try reflexivity. destruct b; try reflexivity.
  cbn [py_eq]. unfold frozenset_eq, set_eq, set_contains, same_key. f_equal.
  apply forallb_ext_in. intros x _. apply existsb_ext_in. intros e _.
  rewrite py_eq_rev_spec. reflexivity.
Qed.

Lemma all2_refl {A : Type} (f : A -> A -> bool) (l : list A) :
  Forall (fun x => f x x = true) l -> all2 f l l = true.
Proof. induction 1; simpl; [reflexivity|]. rewrite H0, IHForall. reflexivity. Qed.

Lemma py_eq_refl (a : RType) : py_eq a a = true.
Proof.
  induction a as [| | ts rc uid sn ct IH | c | items s IHitems IHs]
    using RType_ind_nested; rewrite py_eq_unfold.
  - reflexivity.
  - apply String.eqb_refl.
  - apply all2_refl. exact IH.
  - apply String.eqb_refl.
  - apply (set_eq_refl (same_key py_eq) (fun x => py_eq x x = true)); [|exact IHs].
    intros x Hx. unfold same_key. rewrite Z.eqb_refl, Hx. reflexivity.
Qed.


Lemma RPrimitive_init_inv oid n ub rc ct t :
  RPrimitive_init oid n ub rc ct = Ok t -> exists cu, t = RPrimitive oid n ub rc ct cu.
Proof.
  unfold RPrimitive_init. repeat (destruct (String.eqb ct _)); intros [= <-]; eauto.
Qed.

Lemma constructed_tuple_inv ts rc uid sn ct :
  constructed (RTuple ts rc uid sn ct) ->
  Forall constructed ts /\ RTuple_init ts = Ok (RTuple ts rc uid sn ct).
Proof.
  inversion 1 as [|? ? ? ? ? ? Hp|types t Hall Hinit| |]; subst.
  - apply RPrimitive_init_inv in Hp as (cu & [=]).
  - destruct (RTuple_init_inv _ _ Hinit) as (uid' & sn' & ct' & [= -> -> -> -> ->]).
    split; assumption.
Qed.

Lemma constructed_union_inv items s :
  constructed (RUnion items s) ->
  Forall constructed items /\ s = frozenset_of py_eq items.
Proof.
  inversion 1 as [|? ? ? ? ? ? Hp|types t Hall Hinit| |items' Hall Heq]; subst.
  - apply RPrimitive_init_inv in Hp as (cu & [=]).
  - destruct (RTuple_init_inv _ _ Hinit) as (uid' & sn' & ct' & [=]).
  - split; [assumption|reflexivity].
Qed.

Lemma good_tuple_elems n ts rc uid sn ct :
  good (S n) (RTuple ts rc uid sn ct) -> Forall (good n) ts.
Proof.
  intros (Hd & Hc & Hw). apply constructed_tuple_inv in Hc as [Hc _].
  simpl in Hw. rewrite forallb_forall in Hw. rewrite Forall_forall in Hc.
  apply Forall_forall. intros x Hx. repeat split.
  - apply (depth_tuple_elem x ts rc uid sn ct) in Hx. lia.
  - apply Hc. exact Hx.
  - apply Hw. apply list_elem_of_In. exact Hx.
Qed.

Lemma good_union_entries n items s :
  good (S n) (RUnion items s) ->
  Forall (good n) s /\ Py.distinct (same_key py_eq) s.
Proof.
  intros (Hd & Hc & Hw). apply constructed_union_inv in Hc as [Hc ->].
  split; [|apply frozenset_distinct].
  simpl in Hw. apply andb_true_iff in Hw as [_ Hw].
  rewrite forallb_forall in Hw. rewrite Forall_forall in Hc.
  apply Forall_forall. intros x Hx. repeat split.
  - apply (depth_union_entry x items) in Hx. lia.
  - apply Hc. apply (frozenset_subset (same_key py_eq)). exact Hx.
  - apply Hw. apply list_elem_of_In. exact Hx.
Qed.

Lemma Forall2_impl_in {A B : Type} (R R' : A -> B -> Prop) (D : A -> Prop) (D' : B -> Prop)
    (l : list A) (l' : list B) :
  Forall2 R l l' -> Forall D l -> Forall D' l' ->
  (forall x y, D x -> D' y -> R x y -> R' x y) -> Forall2 R' l l'.
Proof.
  intros HF. induction HF as [|x y l l' Hxy HF IH]; intros HD HD' Himpl; [constructor|].
  apply Forall_cons in HD as [Hx HD]. apply Forall_cons in HD' as [Hy HD'].
  constructor; [apply Himpl; assumption|apply IH; assumption].
Qed.

Lemma Forall2_trans_in {A : Type} (R : A -> A -> Prop) (D : A -> Prop) (l1 l2 l3 : list A) :
  Forall2 R l1 l2 -> Forall2 R l2 l3 -> Forall D l1 -> Forall D l2 -> Forall D l3 ->
  (forall x y z, D x -> D y -> D z -> R x y -> R y z -> R x z) -> Forall2 R l1 l3.
Proof.
  intros H12. revert l3. induction H12 as [|x y l1 l2 Hxy H12 IH];
    intros l3 H23 HD1 HD2 HD3 Htrans; inversion H23 as [|? z ? l3' Hyz H23']; subst;
    [constructor|].
  apply Forall_cons in HD1 as [Hx HD1]. apply Forall_cons in HD2 as [Hy HD2].
  apply Forall_cons in HD3 as [Hz HD3].
  constructor; [exact (Htrans x y z Hx Hy Hz Hxy Hyz)|apply IH; assumption].
Qed.

Lemma leaf_or_nested (t : RType) :
  (depth t = 0%nat /\ forall b, py_eq t b = String.eqb (name b) (name t))
  \/ (exists ts rc uid sn ct, t = RTuple ts rc uid sn ct)
  \/ (exists items s, t = RUnion items s).
Proof. destruct t; eauto 10. Qed.

Lemma well_named_not_reserved (t : RType) :
  depth t = 0%nat -> well_named t = true -> reserved_name (name t) = false.
Proof.
  destruct t; simpl; try discriminate; intros _ Hw;
    try (apply negb_true_iff in Hw; exact Hw); reflexivity.
Qed.

Lemma py_eq_leaf_l (a b : RType) :
  depth a = 0%nat -> well_named a = true -> py_eq a b = true ->
  depth b = 0%nat /\ name b = name a.
Proof.
  intros Ha Hw Heq. pose proof (well_named_not_reserved a Ha Hw) as Hres.
  rewrite py_eq_unfold in Heq.
  destruct a; simpl in Ha; try discriminate; apply String.eqb_eq in Heq;
    (destruct b; simpl in *;
     [split; [reflexivity|exact Heq]
     |split; [reflexivity|exact Heq]
     |rewrite <- Heq in Hres; discriminate
     |split; [reflexivity|exact Heq]
     |rewrite <- Heq in Hres; discriminate]).
Qed.

Lemma py_hash_leaf (a : RType) : depth a = 0%nat -> py_hash a = hash_str (name a).
Proof. destruct a; simpl; try discriminate; reflexivity. Qed.

Lemma py_eq_leaf (a b : RType) :
  depth a = 0%nat -> depth b = 0%nat -> py_eq a b = String.eqb (name b) (name a).
Proof. destruct a; simpl; try discriminate; reflexivity. Qed.

(** On the types that exist, [==] is symmetric and transitive, and equal
    types have equal hashes. *)
Lemma py_eq_equivalence (n : nat) (a b : RType) :
  good n a -> good n b -> py_eq a b = true ->
  py_eq b a = true
  /\ py_hash a = py_hash b
  /\ forall c, good n c -> py_eq b c = true -> py_eq a c = true.
Proof.
  revert a b. induction n as [|n IH]; intros a b Ha Hb Heq.
  - destruct Ha as (Hda & _ & Hwa), Hb as (Hdb & _ & Hwb).
    assert (Hda0 : depth a = 0%nat) by lia. assert (Hdb0 : depth b = 0%nat) by lia.
    destruct (py_eq_leaf_l a b Hda0 Hwa Heq) as [_ Hname].
    split; [|split].
    + rewrite py_eq_leaf by assumption. rewrite Hname. apply String.eqb_refl.
    + rewrite !py_hash_leaf by assumption. congruence.
    + intros c (Hdc & _ & _) Hbc. assert (Hdc0 : depth c = 0%nat) by lia.
      rewrite py_eq_leaf in Hbc |- * by assumption. congruence.
  - destruct (leaf_or_nested a) as [[Hda0 Hleaf]|[(ts & rc & uid & sn & ct & ->)
                                               |(items & s & ->)]].
    + destruct Ha as (Hda & _ & Hwa), Hb as (Hdb & _ & Hwb).
      destruct (py_eq_leaf_l a b Hda0 Hwa Heq) as [Hdb0 Hname].
      split; [|split].
      * rewrite py_eq_leaf by assumption. rewrite Hname. apply String.eqb_refl.
      * rewrite !py_hash_leaf by assumption. congruence.
      * intros c (Hdc & _ & Hwc) Hbc.
        destruct (py_eq_leaf_l b c Hdb0 Hwb Hbc) as [Hdc0 Hname'].
        rewrite py_eq_leaf by assumption. rewrite Hname', Hname. apply String.eqb_refl.
    + rewrite py_eq_unfold in Heq.
      destruct b as [| |ts' rc' uid' sn' ct'| |]; try discriminate.
      apply all2_Forall2 in Heq.
      pose proof (good_tuple_elems _ _ _ _ _ _ Ha) as Hga.
      pose proof (good_tuple_elems _ _ _ _ _ _ Hb) as Hgb.
      split; [|split].
      * rewrite py_eq_unfold. apply all2_Forall2. apply Forall2_flip.
        apply (Forall2_impl_in _ _ _ _ _ _ Heq Hga Hgb).
        intros x y Hx Hy Hxy. apply (IH x y Hx Hy Hxy).
      * simpl.
        assert (HF : Forall2 (fun x y => py_hash x = py_hash y) ts ts').
        { apply (Forall2_impl_in _ _ _ _ _ _ Heq Hga Hgb).
          intros x y Hx Hy Hxy. apply (IH x y Hx Hy Hxy). }
        assert (Hmap : map py_hash ts = map py_hash ts').
        { clear -HF. induction HF; simpl; [reflexivity|congruence]. }
        rewrite Hmap. reflexivity.
      * intros c Hc Hbc. rewrite py_eq_unfold in Hbc.
        destruct c as [| |ts'' rc'' uid'' sn'' ct''| |]; try discriminate.
        apply all2_Forall2 in Hbc.
        pose proof (good_tuple_elems _ _ _ _ _ _ Hc) as Hgc.
        rewrite py_eq_unfold. apply all2_Forall2.
        apply (Forall2_trans_in _ (good n) ts ts' ts''); try assumption.
        intros x y z Hx Hy Hz Hxy Hyz. apply (IH x y Hx Hy Hxy). assumption. assumption.
    + rewrite py_eq_unfold in Heq.
      destruct b as [| | | |items' s']; try discriminate.
      destruct (good_union_entries _ _ _ Ha) as [Hga Hdista].
      destruct (good_union_entries _ _ _ Hb) as [Hgb Hdistb].
      assert (Hrefl : forall x, good n x -> same_key py_eq x x = true).
      { intros x _. unfold same_key. rewrite Z.eqb_refl, py_eq_refl. reflexivity. }
      assert (Hsym : forall x y, good n x -> good n y ->
                same_key py_eq x y = true -> same_key py_eq y x = true).
      { intros x y Hx Hy Hk. unfold same_key in *.
        apply andb_true_iff in Hk as [Hh Hxy]. apply Z.eqb_eq in Hh.
        rewrite Hh, Z.eqb_refl. simpl. apply (IH x y Hx Hy Hxy). }
      assert (Htrans : forall x y z, good n x -> good n y -> good n z ->
                same_key py_eq x y = true -> same_key py_eq y z = true ->
                same_key py_eq x z = true).
      { intros x y z Hx Hy Hz Hxy Hyz. unfold same_key in *.
        apply andb_true_iff in Hxy as [Hh1 Hxy]. apply Z.eqb_eq in Hh1.
        apply andb_true_iff in Hyz as [Hh2 Hyz]. apply Z.eqb_eq in Hh2.
        rewrite Hh1, Hh2, Z.eqb_refl. simpl. apply (IH x y Hx Hy Hxy). assumption.
        assumption. }
      unfold frozenset_eq in Heq.
      split; [|split].
      * rewrite py_eq_unfold. unfold frozenset_eq.
        apply (set_eq_sym (same_key py_eq) (good n) Hsym Htrans s s'); assumption.
      * simpl.
        destruct (set_eq_matching (same_key py_eq) (good n) Hsym Htrans s s'
                    Hdista Hga Hgb Heq) as (l2' & Hperm & HF).
        assert (Hfs : hash_frozenset (map py_hash s) = hash_frozenset (map py_hash s'));
          [|rewrite Hfs; reflexivity].
        transitivity (hash_frozenset (map py_hash l2')).
        -- f_equal. clear -HF. induction HF as [|x y l l' Hxy HF IH']; simpl;
             [reflexivity|].
           unfold same_key in Hxy. apply andb_true_iff in Hxy as [Hh _].
           apply Z.eqb_eq in Hh. congruence.
        -- apply hash_frozenset_perm. apply Permutation_map. symmetry. exact Hperm.
      * intros c Hc Hbc. rewrite py_eq_unfold in Hbc.
        destruct c as [| | | |items'' s'']; try discriminate.
        destruct (good_union_entries _ _ _ Hc) as [Hgc _].
        rewrite py_eq_unfold. unfold frozenset_eq in *.
        apply (set_eq_trans (same_key py_eq) (good n) Htrans s s' s''); assumption.
Qed.


Lemma max_list_subseteq (l l' : list RType) :
  (forall x, x ∈ l -> x ∈ l') ->
  (max_list (map depth l) <= max_list (map depth l'))%nat.
Proof.
  intros Hsub. induction l as [|x l IH]; simpl; [lia|].
  assert (depth x <= max_list (map depth l'))%nat.
  { apply max_list_elem_of. apply list_elem_of_fmap. exists x. split; [reflexivity|].
    apply Hsub. left. }
  assert (max_list (map depth l) <= max_list (map depth l'))%nat.
  { apply IH. intros y Hy. apply Hsub. right. exact Hy. }
  lia.
Qed.

Lemma good_union_init (n : nat) (items : list RType) :
  Forall (good n) items -> good (S n) (RUnion_init items).
Proof.
  intros Hall. rewrite Forall_forall in Hall.
  assert (Hsub : forall x, x ∈ frozenset_of py_eq items -> x ∈ items)
    by (intros x; apply frozenset_subset).
  repeat split.
  - unfold RUnion_init. simpl. apply le_n_S.
    pose proof (max_list_subseteq _ _ Hsub).
    assert (max_list (map depth items) <= n)%nat; [|lia].
    clear -Hall. induction items as [|x items IH]; simpl; [lia|].
    assert (depth x <= n)%nat by (apply Hall; left).
    assert (max_list (map depth items) <= n)%nat
      by (apply IH; intros y Hy; apply Hall; right; exact Hy).
    lia.
  - apply constructed_union. apply Forall_forall. intros x Hx. apply Hall. exact Hx.
  - unfold RUnion_init. simpl. apply andb_true_iff. split; apply forallb_forall;
      intros x Hx; apply list_elem_of_In in Hx.
    + apply Hall. exact Hx.
    + apply Hall. apply Hsub. exact Hx.
Qed.

Lemma good_mono (n m : nat) (t : RType) : (n <= m)%nat -> good n t -> good m t.
Proof. intros Hnm (Hd & Hc & Hw). repeat split; [lia|assumption|assumption]. Qed.

Lemma good_items (items : list RType) :
  Forall constructed items -> forallb well_named items = true ->
  Forall (good (max_list (map depth items))) items.
Proof.
  intros Hc Hw. rewrite Forall_forall in Hc. rewrite forallb_forall in Hw.
  apply Forall_forall. intros x Hx. repeat split.
  - apply max_list_elem_of. apply list_elem_of_fmap. eauto.
  - apply Hc. exact Hx.
  - apply Hw. apply list_elem_of_In. exact Hx.
Qed.

(** C5: two unions are equal iff the frozen sets of their items are equal,
    so the order of the items and duplicates do not matter; the hash of a
    union is computed from the frozen set of its items, and equal unions
    have equal hashes. *)
Theorem runion_eq_iff_item_sets (items1 items2 : list RType) :
  Forall constructed items1 -> Forall constructed items2 ->
  forallb well_named items1 = true -> forallb well_named items2 = true ->
  py_eq (RUnion_init items1) (RUnion_init items2)
  = frozenset_eq py_eq (frozenset_of py_eq items1) (frozenset_of py_eq items2)
  /\ py_hash (RUnion_init items1)
     = hash_tuple [hash_str "union";
                   hash_frozenset (map py_hash (frozenset_of py_eq items1))]
  /\ (py_eq (RUnion_init items1) (RUnion_init items2) = true ->
      py_hash (RUnion_init items1) = py_hash (RUnion_init items2))
  /\ ((forall x, x ∈ items1 <-> x ∈ items2) ->
      py_eq (RUnion_init items1) (RUnion_init items2) = true).
Proof.
  intros Hc1 Hc2 Hw1 Hw2.
  set (n := Nat.max (max_list (map depth items1)) (max_list (map depth items2))).
  assert (Hg1 : Forall (good n) items1).
  { eapply Forall_impl; [apply good_items; assumption|].
    intros x. apply good_mono. unfold n. lia. }
  assert (Hg2 : Forall (good n) items2).
  { eapply Forall_impl; [apply good_items; assumption|].
    intros x. apply good_mono. unfold n. lia. }
  split; [|split; [|split]].
  - rewrite py_eq_unfold. reflexivity.
  - reflexivity.
  - intros Heq.
    apply (py_eq_equivalence (S n) (RUnion_init items1) (RUnion_init items2));
      [apply good_union_init| apply good_union_init|]; assumption.
  - intros Hsame. rewrite py_eq_unfold. unfold RUnion_init, frozenset_eq, frozenset_of.
    assert (Hrefl : forall x, good n x -> same_key py_eq x x = true).
    { intros x _. unfold same_key. rewrite Z.eqb_refl, py_eq_refl. reflexivity. }
    assert (Hsym : forall x y, good n x -> good n y ->
              same_key py_eq x y = true -> same_key py_eq y x = true).
    { intros x y Hx Hy Hk. unfold same_key in *.
      apply andb_true_iff in Hk as [Hh Hxy]. apply Z.eqb_eq in Hh.
      rewrite Hh, Z.eqb_refl. simpl. apply (py_eq_equivalence n x y Hx Hy Hxy). }
    assert (Htrans : forall x y z, good n x -> good n y -> good n z ->
              same_key py_eq x y = true -> same_key py_eq y z = true ->
              same_key py_eq x z = true).
    { intros x y z Hx Hy Hz Hxy Hyz. unfold same_key in *.
      apply andb_true_iff in Hxy as [Hh1 Hxy]. apply Z.eqb_eq in Hh1.
      apply andb_true_iff in Hyz as [Hh2 Hyz]. apply Z.eqb_eq in Hh2.
      rewrite Hh1, Hh2, Z.eqb_refl. simpl.
      apply (py_eq_equivalence n x y Hx Hy Hxy); assumption. }
    assert (Hin : forall l l', Forall (good n) l -> (forall x, x ∈ l -> x ∈ l') ->
              forall x, x ∈ frozenset (same_key py_eq) l ->
                        set_contains (same_key py_eq) (frozenset (same_key py_eq) l') x
                        = true).
    { intros l l' Hg Hsub x Hx. apply (frozenset_subset (same_key py_eq)) in Hx.
      apply (frozenset_covers (same_key py_eq) (good n) Hrefl).
      - rewrite Forall_forall in Hg. apply Hg. exact Hx.
      - apply Hsub. exact Hx. }
    assert (Hgs : forall l, Forall (good n) l ->
              Forall (good n) (frozenset (same_key py_eq) l)).
    { intros l Hg. rewrite Forall_forall in Hg. apply Forall_forall. intros x Hx.
      apply Hg. apply (frozenset_subset (same_key py_eq)). exact Hx. }
    apply set_eq_true. split.
    + apply Nat.le_antisymm;
        apply (distinct_incl_length (same_key py_eq) (good n) Hsym Htrans);
        try apply frozenset_distinct; try (apply Hgs; assumption).
      * apply Hin; [assumption|]. intros x. apply Hsame.
      * apply Hin; [assumption|]. intros x. apply Hsame.
    + apply Hin; [assumption|]. intros x. apply Hsame.
Qed.

End TypeEquality.

Section HashExample.
Import RTypes.

Lemma module_primitives_constructed :
  Forall (constructed (H := toy_hash)) module_primitives.
Proof. unfold module_primitives. primitives_constructed. Qed.

Lemma runion_eq_iff_item_sets_witness :
  let H := toy_hash in
  let items1 := [int_rprimitive; none_rprimitive] in
  let items2 := [none_rprimitive; int_rprimitive; none_rprimitive] in
  (Forall constructed items1 /\ Forall constructed items2
   /\ forallb well_named items1 = true /\ forallb well_named items2 = true)
  /\ (py_eq (RUnion_init items1) (RUnion_init items2)
      = frozenset_eq py_eq (frozenset_of py_eq items1) (frozenset_of py_eq items2)
      /\ py_hash (RUnion_init items1)
         = hash_tuple [hash_str "union";
                       hash_frozenset (map py_hash (frozenset_of py_eq items1))]
      /\ (py_eq (RUnion_init items1) (RUnion_init items2) = true ->
          py_hash (RUnion_init items1) = py_hash (RUnion_init items2))
      /\ ((forall x, x ∈ items1 <-> x ∈ items2) ->
          py_eq (RUnion_init items1) (RUnion_init items2) = true)).
Proof.
  intros H items1 items2.
  assert (Hc1 : Forall constructed items1) by (unfold items1; primitives_constructed).
  assert (Hc2 : Forall constructed items2) by (unfold items2; primitives_constructed).
  assert (Hw1 : forallb well_named items1 = true) by reflexivity.
  assert (Hw2 : forallb well_named items2 = true) by reflexivity.
  split; [repeat split; assumption|].
  exact (runion_eq_iff_item_sets (H := H) items1 items2 Hc1 Hc2 Hw1 Hw2).
Defined.

Example runion_order_and_duplicates :
  let H := toy_hash in
  py_eq (RUnion_init [int_rprimitive; none_rprimitive])
        (RUnion_init [none_rprimitive; int_rprimitive; none_rprimitive]) = true
  /\ py_eq (RUnion_init [int_rprimitive; none_rprimitive])
           (RUnion_init [int_rprimitive; str_rprimitive]) = false
  /\ py_hash (RUnion_init [int_rprimitive; none_rprimitive])
     = py_hash (RUnion_init [none_rprimitive; int_rprimitive; none_rprimitive]).
Proof. repeat split; reflexivity. Qed.

End HashExample.

(** ** Serialization round trip *)

Section RoundTrip.
Import RTypes Serialize.
Context `{!Py.Hash} {FuncIR : Type}.
Variable pm : gmap string RType.
Variable str_of_container : json -> string.
Variable ctx : DeserMaps FuncIR.

Lemma mapM_map_ok {A B : Type} (f : B -> result A) (g : A -> B) (l : list A) :
  Forall (fun x => f (g x) = Ok x) l -> mapM f (map g l) = Ok l.
Proof.
  induction 1 as [|x l Hx Hl IH]; simpl; [reflexivity|]. rewrite Hx, IH. reflexivity.
Qed.

Lemma get_then_json_get {B : Type} (k : json -> result B) (key : string)
    (kvs : list (string * json)) :
  get_then k key kvs
  = match json_get kvs key with
    | Some v => k v
    | None => Raise (KeyError key)
    end.
Proof.
  induction kvs as [|[key' v] kvs IH]; simpl; [reflexivity|].
  destruct (String.eqb key' key); [reflexivity|exact IH].
Qed.

Lemma deserialize_serialize (t : RType) :
  constructed t -> registered pm ctx t ->
  deserialize_type pm str_of_container (serialize t) ctx = Ok t.
Proof.
  induction t as [|oid n ub rc ct cu|ts rc uid sn ct IH|c|items s IH _]
    using RType_ind_nested; intros Hc Hr.
  - inversion Hr as [Hcls Hpm| | | |]; subst. simpl. unfold deserialize_str.
    rewrite Hcls, Hpm. reflexivity.
  - inversion Hr as [|? ? ? ? ? ? Hcls Hpm| | |]; subst. simpl. unfold deserialize_str.
    rewrite Hcls, Hpm. reflexivity.
  - inversion Hr as [| |? ? ? ? ? Hall| |]; subst.
    apply constructed_tuple_inv in Hc as [Hcs Hinit].
    cbn -[RTuple_init]. rewrite mapM_map_ok.
    + cbn -[RTuple_init]. exact Hinit.
    + rewrite Forall_forall in IH, Hcs, Hall. apply Forall_forall. intros x Hx.
      apply IH; auto.
  - inversion Hr as [| | |? Hcls|]; subst. simpl. unfold deserialize_str.
    rewrite Hcls. reflexivity.
  - inversion Hr as [| | | |? ? Hall]; subst.
    apply constructed_union_inv in Hc as [Hcs ->].
    cbn -[RUnion_init]. rewrite mapM_map_ok.
    + reflexivity.
    + rewrite Forall_forall in IH, Hcs, Hall. apply Forall_forall. intros x Hx.
      apply IH; auto.
Qed.

(** C9: a primitive serializes as its name, [RVoid] as ["void"], an
    instance as the full name of its class, tuples and unions as objects
    with the key [.class]; a type whose names are registered deserializes to
    itself; and an object with any other [.class] raises
    [NotImplementedError('unexpected .class <x>')]. *)
Theorem deserialize_serialize_roundtrip (t : RType) :
  constructed t -> registered pm ctx t ->
  (exists t', deserialize_type pm str_of_container (serialize t) ctx = Ok t'
              /\ t' = t /\ py_eq t' t = true)
  /\ (forall oid n ub rc ct cu, serialize (RPrimitive oid n ub rc ct cu) = JStr n)
  /\ serialize RVoid = JStr "void"
  /\ (forall c, serialize (RInstance c) = JStr (fullname c))
  /\ (forall types rc uid sn ct,
        serialize (RTuple types rc uid sn ct)
        = JDict [(".class", JStr "RTuple"); ("types", JList (map serialize types))])
  /\ (forall items s,
        serialize (RUnion items s)
        = JDict [(".class", JStr "RUnion"); ("types", JList (map serialize items))])
  /\ (forall kvs cls,
        json_get kvs ".class" = Some cls ->
        is_str cls "RTuple" = false -> is_str cls "RUnion" = false ->
        deserialize_type pm str_of_container (JDict kvs) ctx
        = Raise (NotImplementedError
                   ("unexpected .class " +:+ format str_of_container cls)))
  /\ (forall kvs x,
        json_get kvs ".class" = Some (JStr x) -> x <> "RTuple" -> x <> "RUnion" ->
        deserialize_type pm str_of_container (JDict kvs) ctx
        = Raise (NotImplementedError ("unexpected .class " +:+ x))).
Proof.
  intros Hc Hr.
  assert (Hunknown : forall kvs cls,
        json_get kvs ".class" = Some cls ->
        is_str cls "RTuple" = false -> is_str cls "RUnion" = false ->
        deserialize_type pm str_of_container (JDict kvs) ctx
        = Raise (NotImplementedError
                   ("unexpected .class " +:+ format str_of_container cls))).
  { intros kvs cls Hget Ht Hu. cbn [deserialize_type].
    rewrite get_then_json_get, Hget, Ht, Hu. reflexivity. }
  split; [|repeat split; try reflexivity].
  - exists t. split; [apply deserialize_serialize; assumption|].
    split; [reflexivity|apply py_eq_refl].
  - exact Hunknown.
  - intros kvs x Hget Ht Hu. rewrite (Hunknown kvs (JStr x) Hget).
    + reflexivity.
    + simpl. apply String.eqb_neq. exact Ht.
    + simpl. apply String.eqb_neq. exact Hu.
Qed.

End RoundTrip.

Section RoundTripExamples.
Import RTypes Serialize.

Lemma optional_int_point_constructed : constructed (H := toy_hash) optional_int_point.
Proof.
  apply constructed_union.
  apply List.Forall_cons; [|primitives_constructed].
  apply (constructed_tuple [int_rprimitive; RInstance point_class]); [|reflexivity].
  apply List.Forall_cons;
    [apply (constructed_primitive 1 "builtins.int" true true "CPyTagged"); reflexivity|].
  apply List.Forall_cons; [apply (constructed_instance point_class)|apply List.Forall_nil].
Defined.

Lemma optional_int_point_registered :
  registered primitive_map point_maps optional_int_point.
Proof.
  apply registered_union.
  apply List.Forall_cons; [|apply List.Forall_cons; [|apply List.Forall_nil]].
  - apply registered_tuple.
    apply List.Forall_cons; [|apply List.Forall_cons; [|apply List.Forall_nil]].
    + apply registered_primitive; reflexivity.
    + apply registered_instance. reflexivity.
  - apply registered_primitive; reflexivity.
Defined.

Lemma deserialize_serialize_roundtrip_witness :
  (constructed (H := toy_hash) optional_int_point
   /\ registered primitive_map point_maps optional_int_point)
  /\ exists t',
       deserialize_type (H := toy_hash) primitive_map (fun _ => "")
         (serialize optional_int_point) point_maps = Ok t'
       /\ t' = optional_int_point /\ py_eq (H := toy_hash) t' optional_int_point = true.
Proof.
  split; [split; [exact optional_int_point_constructed|exact optional_int_point_registered]|].
  apply (deserialize_serialize_roundtrip (H := toy_hash) primitive_map (fun _ => "")
           point_maps optional_int_point
           optional_int_point_constructed optional_int_point_registered).
Defined.

Example serialize_optional_int_point :
  serialize optional_int_point
  = JDict [(".class", JStr "RUnion");
           ("types", JList [JDict [(".class", JStr "RTuple");
                                   ("types", JList [JStr "builtins.int";
                                                    JStr "geometry.Point"])];
                            JStr "builtins.None"])]
  /\ deserialize_type (H := toy_hash) primitive_map (fun _ => "")
       (JDict [(".class", JStr "RList"); ("types", JList [])]) point_maps
     = Raise (NotImplementedError "unexpected .class RList")
  /\ deserialize_type (H := toy_hash) primitive_map (fun _ => "")
       (JStr "geometry.Line") point_maps
     = Raise (AssertionError "Can't find class geometry.Line").
Proof. repeat split; reflexivity. Qed.

End RoundTripExamples.

(** ** The subtype relation as an order *)

Section SubtypeOrder.
Import RTypes Subtype Notions.

Lemma is_subtype_union_l litems ls right :
  is_subtype (RUnion litems ls) right
  = if is_object_rprimitive right then true
    else match right with
         | RUnion ritems _ =>
             forallb (fun li => existsb (fun ri => is_subtype li ri) ritems) litems
         | _ => forallb (fun li => is_subtype li right) litems
         end.
Proof. reflexivity. Qed.

Lemma is_subtype_union_r left ritems rs :
  is_runion left = false ->
  is_subtype left (RUnion ritems rs) = existsb (fun ri => is_subtype left ri) ritems.
Proof.
  intros H. rewrite is_subtype_unfold. unfold is_subtype_body. simpl.
  destruct left; try discriminate; reflexivity.
Qed.

Lemma is_subtype_object left right :
  is_object_rprimitive right = true -> is_subtype left right = true.
Proof.
  intros H. rewrite is_subtype_unfold. unfold is_subtype_body. rewrite H. reflexivity.
Qed.

(** X1: [is_subtype] is reflexive: every type whose classes list themselves in
    their MRO is a subtype of itself, through any nesting of tuples and
    unions. *)
Theorem is_subtype_refl (t : RType) :
  self_in_mro t = true -> is_subtype t t = true.
Proof.
  induction t as [|o n ub rc ct cu|ts rc uid sn ct IH|c|items s IH _] using RType_ind_nested;
    intros Hm.
  - reflexivity.
  - rewrite is_subtype_unfold. unfold is_subtype_body.
    destruct (is_object_rprimitive _); [reflexivity|].
    simpl. unfold visit_rprimitive.
    destruct (_ && _); [reflexivity|]. destruct (_ && _); [reflexivity|].
    simpl. apply Nat.eqb_refl.
  - assert (Heq : is_subtype (RTuple ts rc uid sn ct) (RTuple ts rc uid sn ct)
                  = Nat.eqb (length ts) (length ts) && all2 is_subtype ts ts)
      by reflexivity.
    rewrite Heq, Nat.eqb_refl. simpl. apply all2_Forall2.
    simpl in Hm. rewrite forallb_forall in Hm.
    clear Heq. induction ts as [|x ts IHts]; constructor.
    + apply (Forall_inv IH). apply Hm. left. reflexivity.
    + apply IHts; [exact (Forall_inv_tail IH)|]. intros y Hy. apply Hm. right. exact Hy.
  - rewrite is_subtype_unfold. unfold is_subtype_body. simpl. exact Hm.
  - rewrite is_subtype_union_l. simpl.
    simpl in Hm. rewrite forallb_forall in Hm |- *.
    intros x Hx. apply existsb_exists. exists x. split; [exact Hx|].
    rewrite List.Forall_forall in IH. apply IH; [exact Hx|]. apply Hm. exact Hx.
Qed.

Lemma is_subtype_refl_witness :
  self_in_mro optional_int_point = true
  /\ is_subtype optional_int_point optional_int_point = true.
Proof.
  split; [reflexivity|]. apply (is_subtype_refl optional_int_point). reflexivity.
Defined.

(** X2: a union is an upper bound of its items: whatever is a subtype of an
    item of a union is a subtype of the union, also when the subtype is a
    union itself. *)
Theorem is_subtype_union_upper (left item : RType) (items s : list RType) :
  In item items -> is_subtype left item = true ->
  is_subtype left (RUnion items s) = true.
Proof.
  revert item items s.
  induction left as [|o n ub rc ct cu|ts rc uid sn ct _|c|litems ls IH _] using RType_ind_nested;
    intros item items s Hin Hsub;
    try (rewrite is_subtype_union_r by reflexivity;
         apply existsb_exists; exists item; split; assumption).
  rewrite is_subtype_union_l. simpl.
  rewrite is_subtype_union_l in Hsub.
  rewrite forallb_forall. intros li Hli.
  apply existsb_exists. exists item. split; [exact Hin|].
  destruct (is_object_rprimitive item) eqn:Hobj.
  { apply is_subtype_object. exact Hobj. }
  rewrite List.Forall_forall in IH.
  destruct item as [|io iname iub irc ict icu|its irc iuid isn ict|ic|iitems is'];
    try (rewrite forallb_forall in Hsub; apply Hsub; exact Hli).
  rewrite forallb_forall in Hsub. specialize (Hsub li Hli).
  apply existsb_exists in Hsub. destruct Hsub as (ri & Hri & Hle).
  apply (IH li Hli ri iitems is' Hri Hle).
Qed.

(** X3: a union whose items are not unions themselves is a subtype of [right]
    exactly when each of its items is, for every [right] (the object
    primitive, a union or any other type). *)
Theorem is_subtype_flat_union_all (litems ls : list RType) (right : RType) :
  forallb (fun li => negb (is_runion li)) litems = true ->
  is_subtype (RUnion litems ls) right = forallb (fun li => is_subtype li right) litems.
Proof.
  intros Hflat. rewrite is_subtype_union_l.
  destruct (is_object_rprimitive right) eqn:Hobj.
  - symmetry. apply forallb_forall. intros li _. apply is_subtype_object. exact Hobj.
  - destruct right as [|ro rn rub rrc rct rcu|rts rrc ruid rsn rct|rc|ritems rs]; try reflexivity.
    apply forallb_ext_in. intros li Hli.
    rewrite forallb_forall in Hflat. specialize (Hflat li).
    rewrite is_subtype_union_r; [reflexivity|].
    apply negb_true_iff. apply Hflat. apply list_elem_of_In. exact Hli.
Qed.

Lemma is_subtype_union_upper_witness :
  (In int_rprimitive [str_rprimitive; int_rprimitive]
   /\ is_subtype (RUnion [bool_rprimitive; short_int_rprimitive] []) int_rprimitive = true)
  /\ is_subtype (RUnion [bool_rprimitive; short_int_rprimitive] [])
                (RUnion [str_rprimitive; int_rprimitive] []) = true.
Proof.
  assert (Hin : In int_rprimitive [str_rprimitive; int_rprimitive])
    by (simpl; right; left; reflexivity).
  assert (Hsub : is_subtype (RUnion [bool_rprimitive; short_int_rprimitive] [])
                            int_rprimitive = true) by reflexivity.
  split; [split; assumption|].
  exact (is_subtype_union_upper _ _ _ [] Hin Hsub).
Defined.

Lemma is_subtype_flat_union_all_witness :
  forallb (fun li => negb (is_runion li)) [bool_rprimitive; short_int_rprimitive] = true
  /\ is_subtype (RUnion [bool_rprimitive; short_int_rprimitive] []) int_rprimitive
     = forallb (fun li => is_subtype li int_rprimitive) [bool_rprimitive; short_int_rprimitive].
Proof.
  split; [reflexivity|].
  apply (is_subtype_flat_union_all [bool_rprimitive; short_int_rprimitive] [] int_rprimitive).
  reflexivity.
Defined.

End SubtypeOrder.

(** ** The control-flow graph *)

Section ControlFlowGraph.
Import Analysis CFGNotions.

(** The first loop of [get_cfg]. *)

Lemma get_cfg_block_ok st block :
  ops block <> [] -> exists st', get_cfg_block st block = Ok st'.
Proof.
  destruct st as [[S P] X]. unfold get_cfg_block. intros Hne.
  destruct (last (ops block)) as [op|] eqn:Hl.
  - destruct op; eauto.
  - apply last_None in Hl. contradiction.
Qed.

Lemma foldM_get_cfg_block_empty blocks st :
  Exists (fun b => ops b = []) blocks ->
  foldM get_cfg_block blocks st = Raise (IndexError "list index out of range").
Proof.
  intros H. revert st. induction H as [b blocks Hb|b blocks _ IH]; intros st; simpl; unbind_result.
  - destruct st as [[S P] X]. unfold get_cfg_block. rewrite Hb. reflexivity.
  - destruct (get_cfg_block st b) as [st1|e] eqn:H1; [apply IH|].
    destruct st as [[S P] X]. unfold get_cfg_block in H1.
    destruct (last (ops b)) as [[]|]; try discriminate. congruence.
Qed.

(** X4: [get_cfg] raises [IndexError] when a block has no ops ([block.ops[-1]]
    of an empty list), whatever the other blocks are. *)
Theorem get_cfg_empty_block (blocks : list BasicBlock) :
  Exists (fun b => ops b = []) blocks ->
  get_cfg blocks = Raise (IndexError "list index out of range").
Proof.
  intros H. unfold get_cfg. unbind_result.
  rewrite (foldM_get_cfg_block_empty blocks _ H). reflexivity.
Qed.

Lemma get_cfg_empty_block_witness :
  Exists (fun b => ops b = []) [mkBasicBlock 0 [Return 0]; mkBasicBlock 1 []]
  /\ get_cfg [mkBasicBlock 0 [Return 0]; mkBasicBlock 1 []]
     = Raise (IndexError "list index out of range").
Proof.
  assert (H : Exists (fun b => ops b = []) [mkBasicBlock 0 [Return 0]; mkBasicBlock 1 []])
    by (apply Exists_cons_tl, Exists_cons_hd; reflexivity).
  split; [exact H|]. exact (get_cfg_empty_block _ H).
Defined.



Lemma dict_set_fresh (d : dict) (k : node) (v : list node) :
  k ∉ map fst d -> dict_set d k v = d ++ [(k, v)].
Proof.
  induction d as [|[k0 v0] d IH]; cbn [dict_set map fst app]; intros H; [reflexivity|].
  rewrite bool_decide_eq_false_2 by (intros ->; apply H; left).
  rewrite IH; [reflexivity|]. intros Hin. apply H. right. exact Hin.
Qed.

Lemma dict_get_block (d : dict) (id : nat) :
  Forall (fun e => exists n, e.1 = Label n) d -> dict_get d (Block id) = None.
Proof.
  induction 1 as [|[k v] d [n Hk] _ IH]; cbn [dict_get]; [reflexivity|].
  cbn in Hk. subst k. rewrite bool_decide_eq_false_2 by discriminate. exact IH.
Qed.

(** The first loop of [get_cfg] on blocks with distinct labels. *)
Lemma loop1_distinct blocks (S P : dict) (X : gset node) :
  NoDup (map label blocks) ->
  Forall (fun b => ops b <> []) blocks ->
  (forall b, b ∈ blocks -> Label (label b) ∉ map fst S) ->
  map fst P = map fst S ->
  foldM get_cfg_block blocks (S, P, X)
  = Ok (S ++ map (fun b => (Label (label b), block_targets b)) blocks,
        P ++ no_edges blocks,
        X ∪ labels (List.filter is_exit blocks)).
Proof.
  revert S P X. induction blocks as [|b blocks IH]; intros S P X Hnd Hne Hfresh Hkeys.
  - cbn. rewrite !app_nil_r. unfold labels. cbn. rewrite (right_id_L ∅ (∪)). reflexivity.
  - cbn [foldM]. unbind_result. apply NoDup_cons in Hnd. destruct Hnd as [Hb Hnd].
    assert (Hfb : Label (label b) ∉ map fst S) by (apply Hfresh; left).
    assert (Hstep : get_cfg_block (S, P, X) b
                    = Ok (S ++ [(Label (label b), block_targets b)],
                          P ++ [(Label (label b), [])],
                          X ∪ labels (List.filter is_exit [b]))).
    { unfold get_cfg_block, block_targets, is_exit, labels.
      pose proof (Forall_inv Hne) as Hb0. cbn in Hb0.
      destruct (last (ops b)) as [op|] eqn:Hl; [|apply last_None in Hl; contradiction].
      cbn [List.filter]. unfold is_exit. rewrite Hl.
      destruct op; cbn; rewrite !dict_set_fresh by (rewrite ?Hkeys; exact Hfb);
        rewrite ?(right_id_L ∅ (∪)); reflexivity. }
    rewrite Hstep. rewrite IH.
    + rewrite <- !app_assoc. cbn [app no_edges map]. f_equal. f_equal.
      unfold labels. cbn [List.filter]. destruct (is_exit b); cbn; set_solver.
    + exact Hnd.
    + exact (Forall_inv_tail Hne).
    + intros b' Hb'. rewrite map_app. cbn. intros Hin. apply elem_of_app in Hin.
      destruct Hin as [Hin|Hin].
      * revert Hin. apply Hfresh. right. exact Hb'.
      * apply list_elem_of_singleton in Hin. injection Hin as Hin.
        apply Hb. rewrite <- Hin. apply list_elem_of_fmap. exists b'. split; [reflexivity|exact Hb'].
    + rewrite !map_app, Hkeys. reflexivity.
Qed.

(** The second loop of [get_cfg]: the targets are block objects, the keys
    of [pred_map] are labels. *)
Lemma loop2_no_targets (E pm : dict) :
  Forall (fun e => e.2 = []) E ->
  foldM (fun pm '(prev, nxt) => foldM (add_pred prev) nxt pm) E pm = Ok pm.
Proof.
  induction 1 as [|[prev nxt] E Hn _ IH]; cbn [foldM]; [reflexivity|].
  cbn in Hn. subst nxt. cbn [foldM]. unbind_result. exact IH.
Qed.

Lemma loop2_block_target (E pm : dict) :
  Forall (fun e => exists n, e.1 = Label n) pm ->
  Forall (fun e => Forall (fun t => exists id, t = Block id) e.2) E ->
  Exists (fun e => e.2 <> []) E ->
  exists id, foldM (fun pm '(prev, nxt) => foldM (add_pred prev) nxt pm) E pm
             = Raise (key_error (Block id)).
Proof.
  intros Hpm Hblocks Hex. induction Hex as [[prev nxt] E Hn|[prev nxt] E _ IH].
  - cbn in Hn. destruct nxt as [|t nxt]; [contradiction|].
    pose proof (Forall_inv (Forall_inv Hblocks)) as [id ->].
    exists id. cbn [foldM]. unbind_result. unfold add_pred, dict_item. unbind_result.
    rewrite (dict_get_block pm id Hpm). reflexivity.
  - destruct nxt as [|t nxt].
    + cbn [foldM]. unbind_result. apply IH. exact (Forall_inv_tail Hblocks).
    + pose proof (Forall_inv (Forall_inv Hblocks)) as [id ->].
      exists id. cbn [foldM]. unbind_result. unfold add_pred, dict_item. unbind_result.
      rewrite (dict_get_block pm id Hpm). reflexivity.
Qed.

Lemma is_exit_targets (b : BasicBlock) :
  ops b <> [] -> (is_exit b = true <-> block_targets b = []).
Proof.
  unfold is_exit, block_targets. intros Hne.
  destruct (last (ops b)) as [op|] eqn:Hl; [|apply last_None in Hl; contradiction].
  destruct op; split; intros; try reflexivity; discriminate.
Qed.

Lemma is_exit_nonempty (b : BasicBlock) : is_exit b = true -> ops b <> [].
Proof. unfold is_exit. intros H E. rewrite E in H. discriminate. Qed.

Lemma block_targets_blocks (b : BasicBlock) :
  Forall (fun t => exists id, t = Block id) (block_targets b).
Proof.
  unfold block_targets. destruct (last (ops b)) as [[]|]; repeat constructor; eauto.
Qed.

Lemma labels_empty (blocks : list BasicBlock) : labels blocks = ∅ <-> blocks = [].
Proof.
  unfold labels. destruct blocks as [|b blocks]; cbn; split; try reflexivity; try discriminate.
  intros H. assert (Label (label b) ∈ (∅ : gset node)) by (rewrite <- H; set_solver).
  set_solver.
Qed.

Lemma filter_all {A : Type} (f : A -> bool) (l : list A) :
  Forall (fun x => f x = true) l -> List.filter f l = l.
Proof. induction 1 as [|x l Hx _ IH]; cbn; [reflexivity|]. rewrite Hx, IH. reflexivity. Qed.

(** X6: for blocks with distinct labels, [get_cfg] returns exactly when
    there is a block and every block ends in an op that is neither a [Goto]
    nor a [Branch]: the graph has no edge then, and every block is an exit.
    When no block is empty and some block ends in a jump, [get_cfg] raises
    [KeyError]: the target of a jump is a [BasicBlock] object, and the keys
    of the predecessor map are the labels, which are ints. *)
Theorem get_cfg_ok_iff (blocks : list BasicBlock) :
  NoDup (map label blocks) ->
  (blocks <> [] /\ Forall (fun b => is_exit b = true) blocks ->
   get_cfg blocks = Ok (mkCFG (no_edges blocks) (no_edges blocks) (labels blocks)))
  /\ (forall cfg, get_cfg blocks = Ok cfg ->
        blocks <> [] /\ Forall (fun b => is_exit b = true) blocks)
  /\ (Forall (fun b => ops b <> []) blocks ->
      Exists (fun b => is_exit b = false) blocks ->
      exists id, get_cfg blocks = Raise (key_error (Block id))).
Proof.
  intros Hnd.
  assert (Hloop1 : Forall (fun b => ops b <> []) blocks ->
            foldM get_cfg_block blocks ([], [], ∅)
            = Ok (map (fun b => (Label (label b), block_targets b)) blocks,
                  no_edges blocks, labels (List.filter is_exit blocks))).
  { intros Hne. rewrite (loop1_distinct blocks [] [] ∅ Hnd Hne); [|intros; apply not_elem_of_nil|reflexivity].
    cbn [app]. f_equal. f_equal. set_solver. }
  assert (Hkeys : Forall (fun e : node * list node => exists n, e.1 = Label n) (no_edges blocks)).
  { unfold no_edges. apply Forall_fmap, Forall_forall. intros b _. cbn. eauto. }
  assert (Hjump : Forall (fun b => ops b <> []) blocks ->
            Exists (fun b => is_exit b = false) blocks ->
            exists id, get_cfg blocks = Raise (key_error (Block id))).
  { intros Hne Hex. unfold get_cfg. unbind_result. rewrite (Hloop1 Hne).
    destruct (loop2_block_target
                (map (fun b => (Label (label b), block_targets b)) blocks)
                (no_edges blocks) Hkeys) as [id ->]; [| |eauto].
    - apply Forall_fmap, Forall_forall. intros b _. apply block_targets_blocks.
    - apply List.Exists_exists in Hex. destruct Hex as (b & Hb & Hx).
      apply List.Exists_exists. exists (Label (label b), block_targets b). split.
      + apply List.in_map_iff. exists b. split; [reflexivity|exact Hb].
      + cbn. intros E. rewrite List.Forall_forall in Hne.
        apply (is_exit_targets b (Hne b Hb)) in E. congruence. }
  split; [|split; [|exact Hjump]].
  - intros [Hnil Hall].
    assert (Hne : Forall (fun b => ops b <> []) blocks)
      by (eapply Forall_impl; [exact Hall|]; intros b; apply is_exit_nonempty).
    unfold get_cfg. unbind_result. rewrite (Hloop1 Hne).
    rewrite (filter_all _ _ Hall).
    assert (E : map (fun b => (Label (label b), block_targets b)) blocks = no_edges blocks).
    { unfold no_edges. apply map_ext_in. intros b Hb. f_equal.
      rewrite List.Forall_forall in Hall, Hne.
      apply (is_exit_targets b (Hne b Hb)). apply Hall, Hb. }
    rewrite E, loop2_no_targets
      by (unfold no_edges; apply Forall_fmap, Forall_forall; intros; reflexivity).
    unfold CFG_init, assert. unbind_result.
    rewrite bool_decide_eq_false_2 by (rewrite labels_empty; exact Hnil). reflexivity.
  - intros cfg Hcfg.
    destruct (decide (Exists (fun b => ops b = []) blocks)) as [Hemp|Hemp].
    { rewrite (get_cfg_empty_block blocks Hemp) in Hcfg. discriminate. }
    assert (Hne : Forall (fun b => ops b <> []) blocks).
    { apply Forall_forall. intros b Hb E. apply Hemp. apply List.Exists_exists.
      exists b. split; [apply list_elem_of_In; exact Hb|exact E]. }
    destruct (decide (Exists (fun b => is_exit b = false) blocks)) as [Hex|Hex].
    { destruct (Hjump Hne Hex) as [id E]. rewrite E in Hcfg. discriminate. }
    assert (Hall : Forall (fun b => is_exit b = true) blocks).
    { apply Forall_forall. intros b Hb. destruct (is_exit b) eqn:E; [reflexivity|].
      exfalso. apply Hex. apply List.Exists_exists.
      exists b. split; [apply list_elem_of_In; exact Hb|exact E]. }
    split; [|exact Hall]. intros ->. discriminate.
Qed.

Lemma get_cfg_ok_iff_witness :
  NoDup (map label jumping)
  /\ Forall (fun b => ops b <> []) jumping
  /\ Exists (fun b => is_exit b = false) jumping
  /\ exists id, get_cfg jumping = Raise (key_error (Block id)).
Proof.
  assert (Hnd : NoDup (map label jumping))
    by (apply (bool_decide_unpack _); vm_compute; exact I).
  assert (Hne : Forall (fun b => ops b <> []) jumping)
    by (repeat constructor; discriminate).
  assert (Hex : Exists (fun b => is_exit b = false) jumping)
    by (apply Exists_cons_hd; reflexivity).
  split; [exact Hnd|]. split; [exact Hne|]. split; [exact Hex|].
  exact (proj2 (proj2 (get_cfg_ok_iff jumping Hnd)) Hne Hex).
Defined.

Example get_cfg_jumping :
  get_cfg jumping = Raise (key_error (Block 7)).
Proof. reflexivity. Qed.

End ControlFlowGraph.

(** ** The summary of a block *)

Section BlockSummaries.
Import Analysis CFGNotions.

Lemma block_gen_kill_fold v ops (g0 k0 X : gset nat) :
  match foldM (fun '(gen, kill) op =>
                 '(opgen, opkill) ← accept op v;
                 Ok ((gen ∖ opkill) ∪ opgen, (kill ∖ opgen) ∪ opkill)) ops (g0, k0) with
  | Ok (G, K) =>
      transfer v ops ((X ∖ k0) ∪ g0) = Ok ((X ∖ K) ∪ G)
      /\ (g0 ## k0 -> Forall (separated v) ops -> G ## K)
  | Raise e => transfer v ops ((X ∖ k0) ∪ g0) = Raise e
  end.
Proof.
  unfold transfer, op_transfer. unbind_result.
  revert g0 k0. induction ops as [|op ops IH]; intros g0 k0; cbn [foldM].
  - split; [reflexivity|]. intros H _. exact H.
  - unbind_result.
    destruct (accept op v) as [[og ok]|e] eqn:Ha; [|reflexivity].
    specialize (IH ((g0 ∖ ok) ∪ og) ((k0 ∖ og) ∪ ok)).
    replace (((X ∖ k0) ∪ g0) ∖ ok ∪ og) with ((X ∖ ((k0 ∖ og) ∪ ok)) ∪ ((g0 ∖ ok) ∪ og))
      by (clear; apply leibniz_equiv; intros x; destruct (decide (x ∈ og)); set_solver).
    destruct (foldM _ ops _) as [[G K]|e]; [|exact IH].
    destruct IH as [IH1 IH2]. split; [exact IH1|].
    intros H0 Hsep. apply IH2.
    + pose proof (Forall_inv Hsep og ok Ha) as H1. clear - H0 H1. set_solver.
    + exact (Forall_inv_tail Hsep).
Qed.

(** X7: the summary of a block that the work list uses agrees with running
    the ops one by one: when no op has a register both in its [gen] and in
    its [kill] set, applying [(cur - opkill) | opgen] for each op of the
    block gives [(X | gen) - kill] for the [gen] and [kill] sets computed
    for the block; and when the visitor raises on an op, both loops raise
    the same exception. *)
Theorem block_summary_agrees (v : AnalysisVisitor) (ops : list Op) (X : gset nat) :
  Forall (fun op => forall opgen opkill, accept op v = Ok (opgen, opkill) -> opgen ## opkill)
         ops ->
  match block_gen_kill v ops with
  | Ok (gen, kill) =>
      foldM (fun cur op => '(opgen, opkill) ← accept op v; Ok ((cur ∖ opkill) ∪ opgen))
            ops X
      = Ok ((X ∪ gen) ∖ kill)
  | Raise e =>
      foldM (fun cur op => '(opgen, opkill) ← accept op v; Ok ((cur ∖ opkill) ∪ opgen))
            ops X
      = Raise e
  end.
Proof.
  intros Hsep. pose proof (block_gen_kill_fold v ops ∅ ∅ X) as H.
  unfold block_gen_kill.
  replace ((X ∖ ∅) ∪ ∅) with X in H by (clear; set_solver).
  destruct (foldM _ ops (∅, ∅)) as [[G K]|e]; [|exact H].
  destruct H as [H1 H2].
  assert (HGK : G ## K) by (apply H2; [clear; set_solver|exact Hsep]).
  unfold transfer, op_transfer in H1. rewrite H1. f_equal.
  clear - HGK. set_solver.
Qed.

Lemma block_summary_agrees_witness :
  Forall (fun op => forall opgen opkill,
              accept op LivenessVisitor = Ok (opgen, opkill) -> opgen ## opkill)
         [Assign 1 0; Assign 2 1; Return 2]
  /\ match block_gen_kill LivenessVisitor [Assign 1 0; Assign 2 1; Return 2] with
     | Ok (gen, kill) =>
         foldM (fun cur op => '(opgen, opkill) ← accept op LivenessVisitor;
                              Ok ((cur ∖ opkill) ∪ opgen))
               [Assign 1 0; Assign 2 1; Return 2] {[3%nat]}
         = Ok (({[3%nat]} ∪ gen) ∖ kill)
     | Raise e =>
         foldM (fun cur op => '(opgen, opkill) ← accept op LivenessVisitor;
                              Ok ((cur ∖ opkill) ∪ opgen))
               [Assign 1 0; Assign 2 1; Return 2] {[3%nat]}
         = Raise e
     end.
Proof.
  assert (H : Forall (fun op => forall opgen opkill,
                          accept op LivenessVisitor = Ok (opgen, opkill) -> opgen ## opkill)
                     [Assign 1 0; Assign 2 1; Return 2]).
  { repeat constructor; intros g k [= <- <-]; set_solver. }
  split; [exact H|]. exact (block_summary_agrees LivenessVisitor _ {[3%nat]} H).
Defined.

End BlockSummaries.

(** ** More on the commands of the daemon *)

Section ServerMore.
Import DmypyServer ServerNotions.
Context `{C : Collaborators}.




Lemma NoDup_map_inj {A B : Type} (f : A -> B) (l : list A) (x y : A) :
  NoDup (map f l) -> In x l -> In y l -> f x = f y -> x = y.
Proof.
  induction l as [|a l IH]; simpl; intros Hnd Hx Hy Hf; [contradiction|].
  apply NoDup_cons in Hnd. destruct Hnd as [Ha Hnd].
  destruct Hx as [->|Hx], Hy as [->|Hy]; [reflexivity| | |auto].
  - exfalso. apply Ha. rewrite Hf. apply list_elem_of_In, List.in_map, Hy.
  - exfalso. apply Ha. rewrite <- Hf. apply list_elem_of_In, List.in_map, Hx.
Qed.

Lemma last_module_unique (previous : list BuildSource) (src : BuildSource) :
  NoDup (map path previous) -> In src previous ->
  last_module previous (path src) = Some (module src).
Proof.
  intros Hnd Hin. unfold last_module.
  destruct (List.find _ (rev previous)) as [x|] eqn:Hf; simpl.
  - apply List.find_some in Hf. destruct Hf as [Hx Hp].
    apply bool_decide_eq_true in Hp. apply List.in_rev in Hx.
    rewrite (NoDup_map_inj path previous x src Hnd Hx Hin Hp). reflexivity.
  - exfalso. pose proof (List.find_none _ _ Hf src) as Hn.
    apply List.in_rev in Hin. specialize (Hn Hin). cbv beta in Hn.
    rewrite bool_decide_eq_true_2 in Hn by reflexivity. discriminate.
Qed.

Lemma filter_none {A : Type} (f : A -> bool) (l : list A) :
  (forall x, In x l -> f x = false) -> List.filter f l = [].
Proof.
  induction l as [|a l IH]; simpl; intros H; [reflexivity|].
  rewrite (H a) by (left; reflexivity). apply IH. intros x Hx. apply H. right. exact Hx.
Qed.

(** X11: when the sources are the ones checked before, each with a path and
    no path twice, [_find_changed] reports no removal, and the changes are
    exactly the sources whose path the watcher reported, in source order. *)
Theorem find_changed_same_sources (sources : list BuildSource) (changed_paths : gset string)
    (s : Server) :
  previous_sources s = Some sources ->
  Forall (fun src => is_Some (truthy_path src)) sources ->
  NoDup (map path sources) ->
  _find_changed sources changed_paths s
  = Ok (omap (fun src => match truthy_path src with
                         | Some p => if bool_decide (p ∈ changed_paths)
                                     then Some (module src, p) else None
                         | None => None
                         end) sources, []).
Proof.
  intros Hprev Htruthy Hnd. unfold _find_changed, attr. rewrite Hprev. unbind_result.
  rewrite filter_none.
  2:{ intros x Hx. apply negb_false_iff, bool_decide_eq_true.
      apply list_elem_of_In, List.in_map, Hx. }
  cbn [mapM]. unbind_result.
  set (changed := omap _ sources). generalize changed. clear changed.
  assert (Hsub : forall src, In src sources -> In src sources) by auto.
  revert Hsub. generalize sources at 1 4 as l.
  induction l as [|src l IH]; intros Hsub changed; [reflexivity|].
  assert (Hin : In src sources) by (apply Hsub; left; reflexivity).
  rewrite List.Forall_forall in Htruthy. destruct (Htruthy src Hin) as [p Hp].
  rewrite Hp, (last_module_unique sources src Hnd Hin), String.eqb_refl. cbn [negb].
  apply IH. intros x Hx. apply Hsub. right. exact Hx.
Qed.






Lemma mapM_paths (l : list BuildSource) :
  mapM (fun src => match truthy_path src with
                   | Some p => Ok (module src, p)
                   | None => Raise (AssertionError "")
                   end) l
  = if forallb has_path l
    then Ok (omap (fun src => match truthy_path src with
                              | Some p => Some (module src, p)
                              | None => None
                              end) l)
    else Raise (AssertionError "").
Proof.
  induction l as [|src l IH]; [reflexivity|].
  cbn [mapM forallb]. unbind_result. unfold has_path at 1.
  destruct (truthy_path src) as [p|] eqn:Hp; [|reflexivity].
  rewrite IH. cbn [andb]. destruct (forallb has_path l); [|reflexivity].
  cbn. rewrite Hp. reflexivity.
Qed.

(** X12: once sources have been checked, [_find_changed] returns its two
    lists exactly when every source given and every previous source whose
    module is no longer among them has a path that is neither [None] nor
    empty; otherwise one of its two assertions fails. *)
Theorem find_changed_needs_paths (sources previous : list BuildSource)
    (changed_paths : gset string) (s : Server) :
  previous_sources s = Some previous ->
  let omitted :=
    List.filter (fun src => negb (bool_decide (module src ∈ map module sources))) previous in
  if forallb has_path omitted && forallb has_path sources
  then exists changed removed, _find_changed sources changed_paths s = Ok (changed, removed)
  else _find_changed sources changed_paths s = Raise (AssertionError "").
Proof.
  intros Hprev omitted. unfold _find_changed, attr. rewrite Hprev. unbind_result.
  fold omitted. rewrite mapM_paths.
  destruct (forallb has_path omitted); cbn [andb].
  - set (changed := omap _ sources). generalize changed. clear changed.
    generalize (omap (fun src => match truthy_path src with
                                 | Some p => Some (module src, p)
                                 | None => None
                                 end) omitted).
    clear omitted.
    induction sources as [|src l IH]; intros removed changed.
    + eexists _, _. reflexivity.
    + cbn [forallb]. unfold has_path at 1.
      destruct (truthy_path src) as [p|]; cbn [andb]; [|reflexivity].
      destruct (last_module previous (path src)); [|apply IH].
      destruct (negb _); apply IH.
  - reflexivity.
Qed.


Lemma find_changed_state sources (s s' : Server) r :
  find_changed sources s = Ok (r, s') ->
  fine_grained_manager s' = fine_grained_manager s
  /\ previous_sources s' = previous_sources s /\ is_Some (fswatcher s').
Proof.
  unfold find_changed, attr. unbind_result. intros H.
  destruct (fswatcher s) as [w|]; [|discriminate].
  destruct (watcher_find_changed w) as [cp w'].
  destruct (_find_changed _ _ _); [|discriminate].
  injection H as <- <-. repeat split. eexists. reflexivity.
Qed.

Lemma update_changed_state sources remove update (s s' : Server) r :
  update_changed sources remove update s = Ok (r, s') ->
  fine_grained_manager s' = fine_grained_manager s
  /\ previous_sources s' = previous_sources s /\ is_Some (fswatcher s').
Proof.
  unfold update_changed, attr. unbind_result. intros H.
  destruct (fswatcher s) as [w|]; [|discriminate].
  destruct (watcher_update_changed w remove update) as [cp w'].
  destruct (_find_changed _ _ _); [|discriminate].
  injection H as <- <-. repeat split. eexists. reflexivity.
Qed.

Lemma update_sources_state sources (s s' : Server) :
  update_sources sources s = Ok s' ->
  fine_grained_manager s' = fine_grained_manager s
  /\ previous_sources s' = previous_sources s /\ is_Some (fswatcher s').
Proof.
  unfold update_sources, attr. unbind_result. intros H.
  destruct (fswatcher s) as [w|]; [|discriminate].
  injection H as <-. repeat split. eexists. reflexivity.
Qed.

(** What a successful [fine_grained_increment] leaves behind. *)
Lemma fine_grained_increment_state sources is_tty tw remove update (s s' : Server) resp :
  fine_grained_increment sources is_tty tw remove update s = Ok (resp, s') ->
  is_Some (fine_grained_manager s') /\ previous_sources s' = Some sources
  /\ is_Some (fswatcher s')
  /\ exists out status, resp = check_response out "" (VInt status).
Proof.
  unfold fine_grained_increment. unbind_result. intros H.
  destruct (fine_grained_manager s) as [manager|] eqn:Hm; [|discriminate].
  match type of H with
  | match ?X with _ => _ end = _ =>
      destruct X as [[[changed removed] s1]|] eqn:HX; [|discriminate]
  end.
  assert (Hw : is_Some (fswatcher s1)).
  { destruct remove, update; try (apply update_changed_state in HX; tauto).
    destruct (update_sources sources s) as [s0|] eqn:H0; [|discriminate].
    apply find_changed_state in HX. tauto. }
  destruct (fg_update (set_search_paths manager sources) changed removed)
    as [messages m'] eqn:Hfg.
  injection H as <- <-. cbn. split; [eexists; reflexivity|].
  split; [reflexivity|]. split; [exact Hw|]. eexists _, _. reflexivity.
Qed.

Lemma initialize_fine_grained_state sources is_tty tw (s s' : Server) resp
    errors used_cache manager :
  build sources (options s) (fscache s) = Built errors used_cache manager ->
  initialize_fine_grained sources is_tty tw s = Ok (resp, s') ->
  is_Some (fine_grained_manager s') /\ previous_sources s' = Some sources
  /\ is_Some (fswatcher s').
Proof.
  unfold initialize_fine_grained, update_sources, attr. unbind_result. cbn -[find_changed].
  intros Hb. rewrite Hb. destruct used_cache.
  - intros H.
    match type of H with
    | match match ?X with _ => _ end with _ => _ end = _ =>
        destruct X as [[[changed removed] s1]|] eqn:HX; [|discriminate]
    end.
    apply find_changed_state in HX. cbn in HX. destruct HX as (_ & Hp & Hw).
    destruct (fg_update manager (changed ++ stale manager) removed) as [messages m'].
    cbn in H. injection H as _ <-. cbn. split; [eexists; reflexivity|]. split; assumption.
  - cbn. intros [= _ <-]. cbn. split; [eexists; reflexivity|].
    split; [reflexivity|]. eexists. reflexivity.
Qed.

Lemma initialize_fine_grained_fresh sources is_tty tw (s : Server) errors manager :
  build sources (options s) (fscache s) = Built errors false manager ->
  exists resp s', initialize_fine_grained sources is_tty tw s = Ok (resp, s').
Proof.
  unfold initialize_fine_grained, update_sources, attr. unbind_result. cbn -[find_changed].
  intros Hb. rewrite Hb. cbn. eexists _, _. reflexivity.
Qed.

Lemma update_stats_state (res : response Stats) (s : Server) :
  (is_Some (fine_grained_manager s) -> is_Some (fine_grained_manager (update_stats res s).2))
  /\ previous_sources (update_stats res s).2 = previous_sources s
  /\ fswatcher (update_stats res s).2 = fswatcher s
  /\ exists stats, (update_stats res s).1 = res ++ stats.
Proof.
  unfold update_stats. destruct (fine_grained_manager s) as [m|] eqn:Hm.
  - destruct (take_stats m) as [st m']. cbn. split; [intros _; eexists; reflexivity|].
    repeat split. eexists. reflexivity.
  - cbn. split; [intros [? H]; discriminate|]. repeat split. exists []. rewrite app_nil_r. reflexivity.
Qed.

Lemma cmd_recheck_not_rejected is_tty tw remove update (s s' : Server) resp :
  is_Some (fine_grained_manager s) ->
  cmd_recheck is_tty tw remove update s = Ok (resp, s') ->
  exists out err status rest, resp = check_response out err status ++ rest.
Proof.
  intros [m Hm]. unfold cmd_recheck, attr. rewrite Hm. unbind_result. intros H.
  destruct (previous_sources s) as [prev|]; [|discriminate].
  match type of H with
  | match ?X with _ => _ end = _ => destruct X as [err|sources]
  end.
  - injection H as <- _. exists "", err, (VInt 2), []. rewrite app_nil_r. reflexivity.
  - destruct (fine_grained_increment _ _ _ _ _ _) as [[res s1]|] eqn:Hinc; [|discriminate].
    apply fine_grained_increment_state in Hinc.
    destruct Hinc as (_ & _ & _ & out & status & ->).
    injection H as H.
    destruct (update_stats_state (check_response out "" (VInt status))
                (set_fscache (flush (fscache s1)) s1)) as (_ & _ & _ & stats & Hst).
    rewrite H in Hst. cbn [fst] in Hst. subst resp.
    eexists _, _, _, _. reflexivity.
Qed.

(** X14: a [check] of a valid source list on a server that has not built yet,
    when the build succeeds: it returns (always, when the build did not use
    the cache), and afterwards the fine-grained manager exists, the checked
    sources are recorded, and a [recheck] is no longer refused: its response
    is a check response. *)
Theorem check_initializes (files : list string) (sources : list BuildSource)
    (is_tty : bool) (terminal_width : Z) (errors : list string) (used_cache : bool)
    (manager : Manager) (s : Server) :
  fine_grained_manager s = None ->
  create_source_list files (options s) (fscache s) = Sources sources ->
  build sources (options s) (fscache s) = Built errors used_cache manager ->
  (used_cache = false ->
   exists resp s', cmd_check files is_tty terminal_width s = Ok (resp, s'))
  /\ forall resp s',
       cmd_check files is_tty terminal_width s = Ok (resp, s') ->
       is_Some (fine_grained_manager s')
       /\ previous_sources s' = Some sources
       /\ forall is_tty' tw' remove update resp' s'',
            cmd_recheck is_tty' tw' remove update s' = Ok (resp', s'') ->
            exists out err status rest, resp' = check_response out err status ++ rest.
Proof.
  intros Hnone Hsrc Hbuild. unfold cmd_check, check. rewrite Hsrc, Hnone. unbind_result.
  split.
  - intros ->.
    destruct (initialize_fine_grained_fresh sources is_tty terminal_width s errors manager
                Hbuild) as (resp & s1 & ->).
    destruct (update_stats resp (set_fscache (flush (fscache s1)) s1)) as [r s2] eqn:E.
    exists r, s2. reflexivity.
  - intros resp s' H.
    destruct (initialize_fine_grained sources is_tty terminal_width s)
      as [[res s1]|] eqn:Hinit; [|discriminate].
    apply (initialize_fine_grained_state _ _ _ _ _ _ _ _ _ Hbuild) in Hinit.
    destruct Hinit as (Hm & Hp & _).
    destruct (update_stats_state res (set_fscache (flush (fscache s1)) s1))
      as (Hm' & Hp' & _ & _).
    injection H as H. rewrite H in Hm', Hp'. cbn in Hm', Hp'.
    assert (Hs' : is_Some (fine_grained_manager s')) by (apply Hm'; exact Hm).
    split; [exact Hs'|]. split; [congruence|].
    intros is_tty' tw' remove update resp' s'' Hre.
    exact (cmd_recheck_not_rejected _ _ _ _ _ _ _ Hs' Hre).
Qed.

Lemma forallb_filter_incl {A : Type} (f g : A -> bool) (l : list A) :
  forallb f l = true -> forallb f (List.filter g l) = true.
Proof.
  rewrite !forallb_forall. intros H x Hx. apply List.filter_In in Hx. apply H. tauto.
Qed.

(** X15: a [recheck] with a list of removed paths, on a server whose checked
    sources all have a path: it returns with status 0 or 1 and statistics,
    and the sources now recorded are the previous ones minus those whose
    path is in the list. *)
Theorem recheck_remove_drops_sources (is_tty : bool) (terminal_width : Z)
    (removed_path : string) (more : list string) (previous : list BuildSource)
    (manager : Manager) (watcher : Watcher) (s : Server) :
  fine_grained_manager s = Some manager ->
  previous_sources s = Some previous ->
  fswatcher s = Some watcher ->
  forallb has_path previous = true ->
  exists resp s',
    cmd_recheck is_tty terminal_width (Some (removed_path :: more)) None s = Ok (resp, s')
    /\ previous_sources s'
       = Some (List.filter
                 (fun src => match truthy_path src with
                             | Some p => negb (bool_decide (p ∈ removed_path :: more))
                             | None => false
                             end) previous)
    /\ exists out status stats,
         resp = check_response out "" (VInt status) ++ [("stats", VStats stats)]
         /\ (status = 0 \/ status = 1).
Proof.
  intros Hm Hp Hw Hpaths. unfold cmd_recheck, attr. rewrite Hm, Hp. unbind_result.
  cbn [truthy_list].
  set (sources := List.filter _ previous).
  unfold fine_grained_increment. rewrite Hm. unbind_result. cbn [default].
  unfold update_changed, attr. rewrite Hw. unbind_result.
  change (id (removed_path :: more)) with (removed_path :: more).
  destruct (watcher_update_changed watcher (removed_path :: more) []) as [cp w'].
  pose proof (find_changed_needs_paths sources previous cp (set_fswatcher w' s)) as Hfc.
  cbn zeta in Hfc. specialize (Hfc Hp).
  rewrite (forallb_filter_incl has_path _ previous Hpaths) in Hfc.
  unfold sources in Hfc at 1. rewrite (forallb_filter_incl has_path _ previous Hpaths) in Hfc.
  cbn [andb] in Hfc. destruct Hfc as (changed & removed & Hfc).
  fold sources in Hfc. cbv beta iota zeta. rewrite Hfc.
  destruct (fg_update (set_search_paths manager sources) changed removed)
    as [messages m'] eqn:Hfg.
  unfold update_stats. cbn.
  destruct (take_stats _) as [st m''].
  eexists _, _. split; [reflexivity|]. split; [reflexivity|].
  eexists _, _, st. split; [reflexivity|].
  destruct messages; [left|right]; reflexivity.
Qed.

End ServerMore.

Section ServerMoreExamples.
Import DmypyServer ServerExamples ServerNotions.

Lemma find_changed_same_sources_witness :
  (previous_sources checked_server = Some two_sources
   /\ Forall (fun src => is_Some (truthy_path src)) two_sources
   /\ NoDup (map path two_sources))
  /\ _find_changed two_sources {["b.py"]} checked_server = Ok ([("b", "b.py")], []).
Proof.
  assert (H1 : previous_sources checked_server = Some two_sources) by reflexivity.
  assert (H2 : Forall (fun src => is_Some (truthy_path src)) two_sources)
    by (repeat constructor; eexists; reflexivity).
  assert (H3 : NoDup (map path two_sources))
    by (apply (bool_decide_unpack _); vm_compute; exact I).
  split; [repeat split; assumption|].
  exact (find_changed_same_sources two_sources {["b.py"]} checked_server H1 H2 H3).
Defined.



Lemma check_initializes_witness :
  (fine_grained_manager toy_server = None
   /\ create_source_list (Collaborators := toy_collaborators) ["a.py"; "b.py"] tt tt
      = Sources [mkBuildSource (Some "a.py") "a.py"; mkBuildSource (Some "b.py") "b.py"]
   /\ build (Collaborators := toy_collaborators)
        [mkBuildSource (Some "a.py") "a.py"; mkBuildSource (Some "b.py") "b.py"] tt tt
      = Built ["a.py"; "b.py"] false [])
  /\ exists resp s', cmd_check (C := toy_collaborators) ["a.py"; "b.py"] false 80 toy_server
                     = Ok (resp, s').
Proof.
  split; [repeat split|].
  apply (check_initializes (C := toy_collaborators) ["a.py"; "b.py"]
           [mkBuildSource (Some "a.py") "a.py"; mkBuildSource (Some "b.py") "b.py"]
           false 80 ["a.py"; "b.py"] false [] toy_server eq_refl eq_refl eq_refl).
  reflexivity.
Defined.

Lemma find_changed_needs_paths_witness :
  previous_sources checked_server = Some two_sources
  /\ (let omitted :=
        List.filter (fun src => negb (bool_decide (module src ∈ map module [mkBuildSource None "m"])))
                    two_sources in
      if forallb has_path omitted && forallb has_path [mkBuildSource None "m"]
      then exists changed removed,
             _find_changed [mkBuildSource None "m"] ∅ checked_server = Ok (changed, removed)
      else _find_changed [mkBuildSource None "m"] ∅ checked_server = Raise (AssertionError "")).
Proof.
  split; [reflexivity|].
  apply (find_changed_needs_paths (C := toy_collaborators) [mkBuildSource None "m"]
           two_sources ∅ checked_server).
  reflexivity.
Defined.

Lemma recheck_remove_drops_sources_witness :
  (fine_grained_manager checked_server = Some []
   /\ previous_sources checked_server = Some two_sources
   /\ fswatcher checked_server = Some []
   /\ forallb has_path two_sources = true)
  /\ exists resp s',
       cmd_recheck (C := toy_collaborators) false 80 (Some ["a.py"]) None checked_server
       = Ok (resp, s')
       /\ previous_sources s'
          = Some (List.filter
                    (fun src => match truthy_path src with
                                | Some p => negb (bool_decide (p ∈ ["a.py"]))
                                | None => false
                                end) two_sources)
       /\ exists out status stats,
            resp = check_response out "" (VInt status) ++ [("stats", VStats stats)]
            /\ (status = 0 \/ status = 1).
Proof.
  split; [repeat split|].
  apply (recheck_remove_drops_sources (C := toy_collaborators) false 80 "a.py" []
           two_sources [] [] checked_server); reflexivity.
Defined.

End ServerMoreExamples.

(** ** More on constant folding *)


Section Folding.
Import ConstantFold FoldNotions.
Context {float : Type}.
Implicit Types e : @Expression float.



(** X16: constant folding is all or nothing: when an operand of an
    expression, at any depth, does not fold, or folds to a float, the
    expression does not fold either.  So no operand is ever dropped (not
    even under [0 * ...]) and no arithmetic on floats is folded. *)
Theorem constant_fold_all_or_nothing e' e (cur_mod_id : string) :
  operand_of e' e ->
  (constant_fold_expr e' cur_mod_id = None
   \/ exists x, constant_fold_expr e' cur_mod_id = Some (VFloat x)) ->
  constant_fold_expr e cur_mod_id = None.
Proof.
  intros Hop. induction Hop as [op l r|op l r|op e|e1 e2 e3 _ IH1 _ IH2]; intros Hnc.
  - cbn [constant_fold_expr]. destruct Hnc as [->|[x ->]]; [reflexivity|].
    destruct (constant_fold_expr r cur_mod_id) as [[]|]; reflexivity.
  - cbn [constant_fold_expr]. destruct Hnc as [->|[x ->]];
      destruct (constant_fold_expr l cur_mod_id) as [[]|]; reflexivity.
  - cbn [constant_fold_expr]. destruct Hnc as [->|[x ->]]; reflexivity.
  - apply IH2. left. apply IH1. exact Hnc.
Qed.

(** [fullname.rsplit('.', 1)[0]] of a qualified name. *)
Lemma before_last_dot_app (p x : string) :
  no_dot x -> before_last_dot (p +:+ "." +:+ x) = Some p.
Proof.
  unfold no_dot. intros Hx. induction p as [|c p IH].
  - change ("" +:+ "." +:+ x) with ("." +:+ x). change ("." +:+ x) with (String (Ascii.ascii_of_nat 46) x).
    cbn [before_last_dot].
    rewrite Hx. reflexivity.
  - change (String c p +:+ "." +:+ x) with (String c (p +:+ "." +:+ x)).
    cbn [before_last_dot]. rewrite IH. reflexivity.
Qed.

(** X17: a reference to a variable [prefix.short] folds to the value of the
    variable exactly when the variable is final and [prefix] is the current
    module: final variables of other modules, and attributes of classes of
    the current module, are not bound. *)
Theorem constant_fold_final_name (name prefix short cur_mod_id : string)
    (is_final : bool) (final_value : option (@ConstantValue float)) :
  name <> "True" -> name <> "False" -> no_dot short ->
  constant_fold_expr
    (NameExpr name (Some (Var (prefix +:+ "." +:+ short) is_final final_value))) cur_mod_id
  = if is_final && String.eqb prefix cur_mod_id then final_value else None.
Proof.
  intros HT HF Hshort. cbn [constant_fold_expr].
  apply String.eqb_neq in HT, HF. rewrite HT, HF.
  unfold rsplit_head. rewrite (before_last_dot_app prefix short Hshort). reflexivity.
Qed.

End Folding.

Section FoldingExamples.
Import ConstantFold FoldNotions.

Lemma constant_fold_all_or_nothing_witness :
  (operand_of (float := unit) (NameExpr "f" None)
              (OpExpr "+" (IntExpr 1) (OpExpr "*" (IntExpr 0) (NameExpr "f" None)))
   /\ (constant_fold_expr (float := unit) (NameExpr "f" None) "m" = None
       \/ exists x, constant_fold_expr (float := unit) (NameExpr "f" None) "m" = Some (VFloat x)))
  /\ constant_fold_expr (float := unit)
       (OpExpr "+" (IntExpr 1) (OpExpr "*" (IntExpr 0) (NameExpr "f" None))) "m" = None.
Proof.
  assert (H1 : operand_of (float := unit) (NameExpr "f" None)
              (OpExpr "+" (IntExpr 1) (OpExpr "*" (IntExpr 0) (NameExpr "f" None))))
    by (eapply operand_trans; [apply operand_right|apply operand_right]).
  assert (H2 : constant_fold_expr (float := unit) (NameExpr "f" None) "m" = None
       \/ exists x, constant_fold_expr (float := unit) (NameExpr "f" None) "m" = Some (VFloat x))
    by (left; reflexivity).
  split; [split; assumption|].
  exact (constant_fold_all_or_nothing _ _ "m" H1 H2).
Defined.

Lemma constant_fold_final_name_witness :
  ("LIMIT" <> "True" /\ "LIMIT" <> "False" /\ no_dot "LIMIT")
  /\ constant_fold_expr (float := unit)
       (NameExpr "LIMIT" (Some (Var ("pkg.mod" +:+ "." +:+ "LIMIT") true
                                    (Some (VInt (PInt 10)))))) "pkg.mod"
     = (if true && String.eqb "pkg.mod" "pkg.mod" then Some (VInt (PInt 10)) else None).
Proof.
  assert (H1 : "LIMIT" <> "True") by discriminate.
  assert (H2 : "LIMIT" <> "False") by discriminate.
  assert (H3 : no_dot "LIMIT") by reflexivity.
  split; [repeat split; assumption|].
  exact (constant_fold_final_name "LIMIT" "pkg.mod" "LIMIT" "pkg.mod" true
           (Some (VInt (PInt 10))) H1 H2 H3).
Defined.

End FoldingExamples.

(** ** Constructing tuples *)



Section TupleConstruction.
Import RTypes Notions.


Lemma tuple_name_ok (t : RType) :
  match tuple_name t with
  | Ok _ => forallb tuple_component_ok (leaves t) = true
  | Raise e => forallb tuple_component_ok (leaves t) = false /\ exists msg, e = AssertionError msg
  end.
Proof.
  induction t as [|o n ub rc ct cu|ts rc uid sn ct IH|c|items s _ _] using RType_ind_nested.
  - split; [reflexivity|]. eexists. reflexivity.
  - cbn. destruct (String.eqb ct "CPyTagged"); [reflexivity|].
    destruct (String.eqb ct "char"); [reflexivity|].
    destruct ub; cbn; [|reflexivity]. split; [reflexivity|]. eexists. reflexivity.
  - cbn [tuple_name leaves]. unbind_result.
    induction ts as [|t ts IHts]; [reflexivity|].
    pose proof (Forall_inv IH) as Ht. specialize (IHts (Forall_inv_tail IH)).
    cbn [mapM flat_map]. unbind_result. rewrite forallb_app.
    destruct (tuple_name t) as [p|e].
    + rewrite Ht. cbn [andb].
      destruct (mapM tuple_name ts) as [ps|e']; exact IHts.
    + destruct Ht as [-> Hmsg]. split; [reflexivity|exact Hmsg].
  - reflexivity.
  - reflexivity.
Qed.

(** X18: [RTuple.__init__] returns exactly when no component, through all
    levels of nested tuples, is void or an unboxed primitive whose C type is
    neither [CPyTagged] nor [char]; when it does not return, it is an
    assertion of [TupleNameVisitor] that fails. *)
Theorem RTuple_init_succeeds_iff (types : list RType) :
  ((exists t, RTuple_init types = Ok t)
   <-> forallb tuple_component_ok (flat_map leaves types) = true)
  /\ (forall e, RTuple_init types = Raise e -> exists msg, e = AssertionError msg).
Proof.
  pose proof (tuple_name_ok (RTuple types false "" "" "")) as H.
  cbn [tuple_name leaves] in H. unfold RTuple_init. unbind_result.
  destruct (mapM tuple_name types) as [parts|e].
  - split; [|discriminate]. split; [intros _; exact H|]. intros _. eexists. reflexivity.
  - destruct H as [H Hmsg]. split.
    + split; [intros [t Ht]; discriminate|]. rewrite H. discriminate.
    + intros e' [= <-]. exact Hmsg.
Qed.

End TupleConstruction.

Section TupleConstructionExamples.
Import RTypes.

Example RTuple_init_nested_void :
  RTuple_init [int_rprimitive; RTuple [RVoid] true "" "" ""]
  = Raise (AssertionError "rvoid in tuple?").
Proof. reflexivity. Qed.

End TupleConstructionExamples.

(** ** The names of the registers of an environment *)



Section EnvironmentFacts.
Import Environment.

Lemma append_inj_r (p a b : string) : p +:+ a = p +:+ b -> a = b.
Proof.
  induction p as [|c p IH]; [auto|].
  change (String c p +:+ a) with (String c (p +:+ a)).
  change (String c p +:+ b) with (String c (p +:+ b)). intros [= H]. auto.
Qed.

Lemma candidate_inj (name : string) (i j : nat) :
  name +:+ pretty i = name +:+ pretty j -> i = j.
Proof. intros H. apply append_inj_r in H. exact (pretty_nat_inj _ _ H). Qed.

Lemma unique_name_loop_mono (fuel d : nat) names name u r :
  unique_name_loop fuel names name u = Some r ->
  unique_name_loop (fuel + d) names name u = Some r.
Proof.
  revert names u. induction fuel as [|fuel IH]; intros names u; cbn [unique_name_loop].
  - destruct (bool_decide _) eqn:B; [discriminate|]. intros H.
    destruct (0 + d)%nat; cbn [unique_name_loop]; rewrite B; exact H.
  - change (S fuel + d)%nat with (S (fuel + d)). cbn [unique_name_loop].
    destruct (bool_decide _); [|auto]. destruct (names !! name); [apply IH|auto].
Qed.

(** Some candidate [name + str(k + j)], [j <= size names], is not taken. *)
Lemma candidate_free (names : gmap string nat) (name : string) (k : nat) :
  exists j, (j <= size names)%nat /\ names !! (name +:+ pretty (k + j)%nat) = None.
Proof.
  destruct (decide (Forall (fun j => is_Some (names !! (name +:+ pretty (k + j)%nat)))
                           (seq 0 (S (size names))))) as [Hall|Hex].
  - exfalso.
    set (l := map (fun j => name +:+ pretty (k + j)%nat) (seq 0 (S (size names)))).
    assert (Hnd : NoDup l).
    { apply NoDup_fmap_2; [|apply NoDup_seq].
      intros i j H. apply candidate_inj in H. lia. }
    assert (Hsub : (list_to_set l : gset string) ⊆ dom names).
    { intros x Hx. apply elem_of_list_to_set, list_elem_of_fmap in Hx.
      destruct Hx as (j & -> & Hj). apply elem_of_dom.
      rewrite List.Forall_forall in Hall. apply Hall. apply list_elem_of_In. exact Hj. }
    apply subseteq_size in Hsub. rewrite size_list_to_set in Hsub by exact Hnd.
    rewrite size_dom in Hsub. unfold l in Hsub. rewrite length_map, length_seq in Hsub. lia.
  - apply not_Forall_Exists in Hex; [|intros j; apply _].
    apply List.Exists_exists in Hex. destruct Hex as (j & Hj & Hn).
    apply List.in_seq in Hj. exists j. split; [lia|].
    apply eq_None_not_Some. exact Hn.
Qed.

Lemma unique_name_loop_taken (fuel : nat) names name u k :
  is_Some (names !! u) -> names !! name = Some k ->
  (exists j, (j < fuel)%nat /\ names !! (name +:+ pretty (k + j)%nat) = None) ->
  exists u' names',
    unique_name_loop fuel names name u = Some (Ok (u', names'))
    /\ names !! u' = None /\ names' !! u' = None
    /\ (forall x, is_Some (names' !! x) <-> is_Some (names !! x)).
Proof.
  revert names u k. induction fuel as [|fuel IH]; intros names u k Hu Hk (j & Hj & Hfree);
    [lia|].
  cbn [unique_name_loop]. rewrite bool_decide_eq_true_2 by exact Hu. rewrite Hk.
  assert (Hdom : forall x, is_Some (<[name := S k]> names !! x) <-> is_Some (names !! x)).
  { intros x. destruct (decide (x = name)) as [->|Hne].
    - rewrite lookup_insert_eq, Hk. split; eauto.
    - rewrite lookup_insert_ne by congruence. reflexivity. }
  destruct (names !! (name +:+ pretty k)) as [v|] eqn:Hc.
  - destruct j as [|j]; [rewrite Nat.add_0_r in Hfree; congruence|].
    destruct (IH (<[name := S k]> names) (name +:+ pretty k) (S k)) as (u' & names' & Hl & H1 & H2 & H3).
    + apply Hdom. rewrite Hc. eauto.
    + apply lookup_insert_eq.
    + exists j. split; [lia|]. apply eq_None_not_Some. rewrite Hdom.
      apply eq_None_not_Some. rewrite <- Hfree. f_equal. f_equal. f_equal. lia.
    + exists u', names'. split; [exact Hl|]. split.
      * apply eq_None_not_Some. rewrite <- Hdom. apply eq_None_not_Some. exact H1.
      * split; [exact H2|]. intros x. rewrite H3. apply Hdom.
  - exists (name +:+ pretty k), (<[name := S k]> names).
    assert (Hnone : <[name := S k]> names !! (name +:+ pretty k) = None).
    { apply eq_None_not_Some. rewrite Hdom. apply eq_None_not_Some. exact Hc. }
    split.
    + destruct fuel; cbn [unique_name_loop];
        rewrite bool_decide_eq_false_2 by (apply eq_None_not_Some; exact Hnone); reflexivity.
    + split; [exact Hc|]. split; [exact Hnone|exact Hdom].
Qed.

Lemma unique_name_loop_total (names : gmap string nat) (name : string) :
  exists u names',
    (forall fuel, (size names < fuel)%nat ->
                  unique_name_loop fuel names name name = Some (Ok (u, names')))
    /\ names !! u = None /\ names' !! u = None
    /\ (forall x, is_Some (names' !! x) <-> is_Some (names !! x)).
Proof.
  destruct (names !! name) as [k|] eqn:Hk.
  - destruct (candidate_free names name k) as (j & Hj & Hfree).
    destruct (unique_name_loop_taken (S (size names)) names name name k) as
      (u & names' & Hl & H1 & H2 & H3).
    + rewrite Hk. eauto.
    + exact Hk.
    + exists j. split; [lia|exact Hfree].
    + exists u, names'. split; [|auto].
      intros fuel Hf. replace fuel with (S (size names) + (fuel - S (size names)))%nat by lia.
      apply unique_name_loop_mono. exact Hl.
  - exists name, names. split; [|split; [exact Hk|split; [exact Hk|reflexivity]]].
    intros fuel _. destruct fuel; cbn [unique_name_loop];
      rewrite bool_decide_eq_false_2 by (rewrite Hk; apply is_Some_None); reflexivity.
Qed.

End EnvironmentFacts.

Section EnvironmentNames.
Import Environment.

Lemma unique_name_loop_inv (fuel : nat) (names names' : gmap string nat) (name u : string) :
  unique_name_loop fuel names name name = Some (Ok (u, names')) ->
  names !! u = None /\ names' !! u = None
  /\ (forall x, is_Some (names' !! x) <-> is_Some (names !! x)).
Proof.
  intros H. destruct (unique_name_loop_total names name) as (u0 & names0 & Hl & Hrest).
  apply (unique_name_loop_mono fuel (S (size names))) in H.
  rewrite Hl in H by lia. injection H as <- <-. exact Hrest.
Qed.

Lemma unique_name_loop_no_error (fuel : nat) (names : gmap string nat) (name : string) e :
  unique_name_loop fuel names name name <> Some (Raise e).
Proof.
  intros H. destruct (unique_name_loop_total names name) as (u0 & names0 & Hl & _).
  apply (unique_name_loop_mono fuel (S (size names))) in H.
  rewrite Hl in H by lia. discriminate.
Qed.

(** X20: the loop of [Environment.add] terminates (after at most as many
    iterations as there are names in use) and never raises; the name the
    value gets was not in use before and is in use afterwards, it is the
    name asked for when that was free, no name in use is forgotten and no
    other value is renamed. *)
Theorem add_gives_fresh_name (reg : nat) (name : string) (env : Environment) :
  exists env' unique_name,
    (forall fuel, (size (names env) < fuel)%nat -> add fuel reg name env = Some (Ok env'))
    /\ value_name env' !! reg = Some unique_name
    /\ names env !! unique_name = None
    /\ names env' !! unique_name = Some 0%nat
    /\ (names env !! name = None -> unique_name = name)
    /\ (forall x, is_Some (names env !! x) -> is_Some (names env' !! x))
    /\ (forall r, r <> reg -> value_name env' !! r = value_name env !! r).
Proof.
  destruct (unique_name_loop_total (names env) name) as (u & names' & Hl & H1 & H2 & H3).
  eexists _, u. split; [|split; [|split; [|split; [|split; [|split]]]]].
  - intros fuel Hf. unfold add. rewrite (Hl fuel Hf). reflexivity.
  - cbn. apply lookup_insert_eq.
  - exact H1.
  - cbn. apply lookup_insert_eq.
  - intros Hn. specialize (Hl (S (size (names env))) (Nat.lt_succ_diag_r _)).
    cbn [unique_name_loop] in Hl.
    rewrite bool_decide_eq_false_2 in Hl by (rewrite Hn; apply is_Some_None).
    injection Hl as <- _. reflexivity.
  - intros x Hx. cbn. destruct (decide (x = u)) as [->|Hne].
    + rewrite lookup_insert_eq. eauto.
    + rewrite lookup_insert_ne by congruence. apply H3. exact Hx.
  - intros r Hr. cbn. apply lookup_insert_ne. congruence.
Qed.


Lemma set_index_fresh (d : list (nat * nat)) (reg i : nat) :
  reg ∉ map fst d -> set_index d reg i = d ++ [(reg, i)].
Proof.
  induction d as [|[r j] d IH]; simpl; intros H; [reflexivity|].
  apply not_elem_of_cons in H. destruct H as [Hne Hd].
  destruct (Nat.eqb r reg) eqn:E; [apply Nat.eqb_eq in E; congruence|].
  rewrite IH by exact Hd. reflexivity.
Qed.

Lemma add_keeps_wf (fuel reg : nat) (name : string) (env env' : Environment) :
  wf env -> reg ∉ regs env -> add fuel reg name env = Some (Ok env') ->
  wf env' /\ regs env' = regs env ++ [reg] /\ temp_index env' = temp_index env.
Proof.
  intros (Hnd & Hidx & Hnames & Hinj) Hfresh Hadd. unfold add in Hadd.
  destruct (unique_name_loop fuel (names env) name name) as [[[u names']|e]|] eqn:Hl;
    try discriminate.
  injection Hadd as <-. apply unique_name_loop_inv in Hl. destruct Hl as (H1 & H2 & H3).
  unfold regs in *. cbn [indexes names value_name temp_index].
  rewrite set_index_fresh by exact Hfresh.
  assert (Hregs : map fst (indexes env ++ [(reg, length (indexes env))])
                  = map fst (indexes env) ++ [reg]) by (rewrite map_app; reflexivity).
  split; [|split; [exact Hregs|reflexivity]].
  unfold wf, regs. cbn [indexes names value_name]. rewrite Hregs.
  split; [|split; [|split]].
  - apply NoDup_app. split; [exact Hnd|]. split; [|apply NoDup_singleton].
    intros x Hx Hx'. apply list_elem_of_singleton in Hx'. subst. contradiction.
  - rewrite map_app, length_app, Hidx. cbn [map snd length].
    rewrite Nat.add_1_r, seq_S. reflexivity.
  - intros r Hr. apply elem_of_app in Hr. destruct Hr as [Hr|Hr].
    + assert (r <> reg) by (intros ->; contradiction).
      rewrite lookup_insert_ne by congruence.
      destruct (Hnames r Hr) as (v & Hv & Hin). exists v. split; [exact Hv|].
      destruct (decide (v = u)) as [->|Hne].
      * rewrite lookup_insert_eq. eauto.
      * rewrite lookup_insert_ne by congruence. apply H3. exact Hin.
    + apply list_elem_of_singleton in Hr. subst r. exists u.
      rewrite !lookup_insert_eq. eauto.
  - assert (Hold : forall r v, r ∈ map fst (indexes env) ->
                     <[reg := u]> (value_name env) !! r = Some v ->
                     r <> reg /\ v <> u).
    { intros r v Hr Hv. assert (r <> reg) by (intros ->; contradiction).
      split; [assumption|]. rewrite lookup_insert_ne in Hv by congruence.
      destruct (Hnames r Hr) as (v' & Hv' & Hin). rewrite Hv in Hv'. injection Hv' as <-.
      intros ->. rewrite H1 in Hin. destruct Hin; discriminate. }
    intros r1 r2 v Hr1 Hr2 Hv1 Hv2.
    apply elem_of_app in Hr1. apply elem_of_app in Hr2.
    destruct Hr1 as [Hr1|Hr1], Hr2 as [Hr2|Hr2].
    + destruct (Hold r1 v Hr1 Hv1) as [Hn1 _]. destruct (Hold r2 v Hr2 Hv2) as [Hn2 _].
      rewrite lookup_insert_ne in Hv1, Hv2 by congruence.
      exact (Hinj r1 r2 v Hr1 Hr2 Hv1 Hv2).
    + apply list_elem_of_singleton in Hr2. subst r2.
      rewrite lookup_insert_eq in Hv2. injection Hv2 as <-.
      destruct (Hold r1 u Hr1 Hv1) as [_ Hn]. congruence.
    + apply list_elem_of_singleton in Hr1. subst r1.
      rewrite lookup_insert_eq in Hv1. injection Hv1 as <-.
      destruct (Hold r2 u Hr2 Hv2) as [_ Hn]. congruence.
    + apply list_elem_of_singleton in Hr1. apply list_elem_of_singleton in Hr2. congruence.
Qed.

Lemma built_wf (env : Environment) : built env -> wf env.
Proof.
  induction 1 as [|fuel reg name env env' _ IH Hfresh Hadd|fuel reg env env' _ IH Hfresh Hadd
                  |fuel reg is_void env env' _ IH Hfresh Hadd].
  - unfold wf, regs. cbn. split; [constructor|]. split; [reflexivity|].
    split; intros r; intros; exfalso; eapply not_elem_of_nil; eassumption.
  - exact (proj1 (add_keeps_wf _ _ _ _ _ IH Hfresh Hadd)).
  - unfold add_temp in Hadd.
    destruct (add fuel reg _ env) as [[env1|e]|] eqn:Ha; try discriminate.
    injection Hadd as <-.
    destruct (add_keeps_wf _ _ _ _ _ IH Hfresh Ha) as (Hwf & _ & _).
    exact Hwf.
  - unfold add_op in Hadd. destruct is_void; [injection Hadd as <-; exact IH|].
    unfold add_temp in Hadd.
    destruct (add fuel reg _ env) as [[env1|e]|] eqn:Ha; try discriminate.
    injection Hadd as <-.
    destruct (add_keeps_wf _ _ _ _ _ IH (Hfresh eq_refl) Ha) as (Hwf & _ & _).
    exact Hwf.
Qed.

(** X21: in an environment built from the empty one by [add], [add_temp] and
    [add_op] of values that were not in it, every register has a name, no
    two registers have the same name, and the index of a register is its
    position in the order of insertion. *)
Theorem environment_names_unique (env : Environment) :
  built env ->
  NoDup (regs env)
  /\ NoDup (reg_names env)
  /\ Forall is_Some (reg_names env)
  /\ indexes env = imap (fun i r => (r, i)) (regs env).
Proof.
  intros Hb. destruct (built_wf env Hb) as (Hnd & Hidx & Hnames & Hinj).
  split; [exact Hnd|]. split; [|split].
  - unfold reg_names. apply NoDup_fmap_2_strong; [|exact Hnd].
    intros r1 r2 Hr1 Hr2 Heq.
    destruct (Hnames r1 Hr1) as (u & Hu & _). rewrite Hu in Heq. symmetry in Heq.
    exact (Hinj r1 r2 u Hr1 Hr2 Hu Heq).
  - unfold reg_names. apply List.Forall_map. apply List.Forall_forall. intros r Hr.
    apply list_elem_of_In in Hr. destruct (Hnames r Hr) as (u & Hu & _). rewrite Hu. eauto.
  - unfold regs in *. clear Hnd Hnames Hinj Hb.
    revert Hidx. generalize (indexes env). intros d.
    induction d as [|[r i] d IH] using rev_ind; intros Hidx; [reflexivity|].
    rewrite map_app, length_app in Hidx. cbn [map snd length] in Hidx.
    rewrite Nat.add_1_r, seq_S in Hidx. apply app_inj_tail in Hidx.
    destruct Hidx as [Hd Hi]. cbn in Hi. subst i.
    rewrite map_app, imap_app. cbn [map fst imap]. rewrite <- IH by exact Hd.
    rewrite length_map, Nat.add_0_r. reflexivity.
Qed.

End EnvironmentNames.


Section EnvironmentExamples.
Import Environment.

Lemma three_names_built : built three_names.
Proof.
  apply (built_add 3 12 "x0" (mkEnvironment [(10, 0); (11, 1)]%nat
                                {["x" := 1%nat; "x0" := 0%nat]} 0
                                {[10%nat := "x"; 11%nat := "x0"]})).
  - apply (built_add 2 11 "x" (mkEnvironment [(10, 0)]%nat {["x" := 0%nat]} 0
                                 {[10%nat := "x"]})).
    + apply (built_add 1 10 "x" Environment_init); [apply built_init| |].
      * apply not_elem_of_nil.
      * vm_compute. reflexivity.
    + apply (bool_decide_unpack _). vm_compute. exact I.
    + vm_compute. reflexivity.
  - apply (bool_decide_unpack _). vm_compute. exact I.
  - vm_compute. reflexivity.
Qed.

Lemma environment_names_unique_witness :
  built three_names
  /\ NoDup (regs three_names)
  /\ NoDup (reg_names three_names)
  /\ Forall is_Some (reg_names three_names)
  /\ indexes three_names = imap (fun i r => (r, i)) (regs three_names).
Proof.
  split; [exact three_names_built|].
  exact (environment_names_unique three_names three_names_built).
Defined.

Example three_names_are :
  reg_names three_names = [Some "x"; Some "x0"; Some "x00"].
Proof. vm_compute. reflexivity. Qed.

End EnvironmentExamples.
